(** * traderai: the configuration pipeline of [core/config.py]

    A shallow embedding of the YAML loader, the recursive merger, the
    environment override builder, the strategy and rules loaders, the
    pydantic schema and the cached settings accessor, together with the
    properties the specification states about them.

    Conventions of the embedding.
    - A Python value is a [value]: a scalar, a list or a dict.  A dict is an
      association list in insertion order whose keys are strings, as the
      annotation [Dict[str, Any]] of the source has it.
    - Strings are ASCII strings; a float is a [spec_float] of the Standard
      Library (IEEE 754 binary64 without NaN payload).
    - A call that can raise returns [res A = exn + A]; [inl e] is the raised
      exception, [inr a] the returned value. *)

From Stdlib Require Import ZArith String Ascii List Bool Lia DecimalString.
From Stdlib Require Import Floats.SpecFloat.
From stdpp Require Import base option list.

Import ListNotations.
Local Open Scope list_scope.
Local Open Scope string_scope.

(** ** Python values and exceptions *)

Module Py.

Inductive scalar : Type :=
| SNone
| SBool (b : bool)
| SInt (z : Z)
| SFloat (f : spec_float)
| SStr (s : string).

#[local] Unset Elimination Schemes.
Inductive value : Type :=
| VScalar (s : scalar)
| VList (l : list value)
| VDict (d : list (string * value)).
#[local] Set Elimination Schemes.

Abbreviation VNone := (VScalar SNone).
Abbreviation VBool b := (VScalar (SBool b)).
Abbreviation VInt z := (VScalar (SInt z)).
Abbreviation VFloat f := (VScalar (SFloat f)).
Abbreviation VStr s := (VScalar (SStr s)).

Definition dict : Type := list (string * value).

(** The exceptions the module can raise.  pydantic's [ValidationError]
    carries the model name and one entry per violated field: its location,
    its message and its error type.  [OSError] stands for the subclasses
    of [OSError] that [open] raises besides [FileNotFoundError], which
    never leaves the loader.  [ValidationError] and [UnicodeDecodeError]
    are subclasses of [ValueError]: a clause [except ValueError] catches
    all three. *)
Record field_error : Type :=
  { fe_loc : list string; fe_msg : string; fe_type : string }.

Inductive os_error : Type :=
| NotADirectoryError
| IsADirectoryError
| PermissionError.

Inductive exn : Type :=
| AttributeError (msg : string)
| TypeError (msg : string)
| KeyError (key : string)
| ValueError (msg : string)
| UnicodeDecodeError (msg : string)
| OSError (class : os_error) (msg : string)
| OverflowError (msg : string)
| NameError (msg : string)
| ValidationError (model : string) (errors : list field_error).

Definition res (A : Type) : Type := exn + A.

Definition ret {A} (a : A) : res A := inr a.
Definition raise {A} (e : exn) : res A := inl e.
Definition bind {A B} (m : res A) (k : A -> res B) : res B :=
  match m with
  | inl e => inl e
  | inr a => k a
  end.

Definition scalar_type_name (s : scalar) : string :=
  match s with
  | SNone => "NoneType"
  | SBool _ => "bool"
  | SInt _ => "int"
  | SFloat _ => "float"
  | SStr _ => "str"
  end.

Definition type_name (v : value) : string :=
  match v with
  | VScalar s => scalar_type_name s
  | VList _ => "list"
  | VDict _ => "dict"
  end.

Definition no_attribute (ty attr : string) : exn :=
  AttributeError ("'" ++ ty ++ "' object has no attribute '" ++ attr ++ "'").

Definition isinstance_dict (v : value) : bool :=
  match v with
  | VDict _ => true
  | _ => false
  end.

(** *** dict operations: [d.get(k)], [k in d], [d[k] = v]

    They are polymorphic in the type of the stored values: the same
    functions serve the trees here, the typed mappings of the loaders and
    the heap objects of the store model. *)

Fixpoint dict_get {V : Type} (k : string) (d : list (string * V)) : option V :=
  match d with
  | [] => None
  | (k', v) :: d' => if String.eqb k k' then Some v else dict_get k d'
  end.

Definition dict_mem {V : Type} (k : string) (d : list (string * V)) : bool :=
  match dict_get k d with
  | Some _ => true
  | None => false
  end.

(** Assignment keeps the position of a key that is already present and
    appends a new key at the end. *)
Fixpoint dict_set {V : Type} (k : string) (v : V) (d : list (string * V))
  : list (string * V) :=
  match d with
  | [] => [(k, v)]
  | (k', v') :: d' =>
      if String.eqb k k' then (k, v) :: d' else (k', v') :: dict_set k v d'
  end.

Definition is_str (k : string) (v : value) : bool :=
  match v with
  | VStr s => String.eqb k s
  | _ => false
  end.

Definition is_substring (k s : string) : bool :=
  match String.index 0 k s with
  | Some _ => true
  | None => false
  end.

(** [base.copy()]: dicts and lists have the method, scalars do not. *)
Definition py_copy (v : value) : res value :=
  match v with
  | VDict d => ret (VDict d)
  | VList l => ret (VList l)
  | VScalar s => raise (no_attribute (scalar_type_name s) "copy")
  end.

(** [key in c] for a string [key]. *)
Definition py_in (key : string) (c : value) : res bool :=
  match c with
  | VDict d => ret (dict_mem key d)
  | VList l => ret (existsb (is_str key) l)
  | VStr s => ret (is_substring key s)
  | VScalar s =>
      raise (TypeError ("argument of type '" ++ scalar_type_name s
                        ++ "' is not iterable"))
  end.

(** [c[key]] for a string [key]. *)
Definition py_getitem (c : value) (key : string) : res value :=
  match c with
  | VDict d =>
      match dict_get key d with
      | Some v => ret v
      | None => raise (KeyError key)
      end
  | VList _ => raise (TypeError "list indices must be integers or slices, not str")
  | VStr _ => raise (TypeError "string indices must be integers")
  | VScalar s =>
      raise (TypeError ("'" ++ scalar_type_name s ++ "' object is not subscriptable"))
  end.

(** [c[key] = v] for a string [key]. *)
Definition py_setitem (c : value) (key : string) (v : value) : res value :=
  match c with
  | VDict d => ret (VDict (dict_set key v d))
  | VList _ => raise (TypeError "list indices must be integers or slices, not str")
  | VScalar s =>
      raise (TypeError ("'" ++ scalar_type_name s
                        ++ "' object does not support item assignment"))
  end.

(** [c.get(key, default)]: only dicts have the method. *)
Definition py_get (c : value) (key : string) (default : value) : res value :=
  match c with
  | VDict d =>
      match dict_get key d with
      | Some v => ret v
      | None => ret default
      end
  | _ => raise (no_attribute (type_name c) "get")
  end.

(** *** Strings: [s.upper()], [s.split(",")], [repr(s)] *)

Definition ascii_upper (c : ascii) : ascii :=
  let n := nat_of_ascii c in
  if Nat.leb 97 n && Nat.leb n 122 then ascii_of_nat (n - 32) else c.

Fixpoint upper (s : string) : string :=
  match s with
  | EmptyString => EmptyString
  | String c s' => String (ascii_upper c) (upper s')
  end.

Fixpoint split (sep : ascii) (s : string) : list string :=
  match s with
  | EmptyString => [""]
  | String c s' =>
      if Ascii.eqb c sep then "" :: split sep s'
      else match split sep s' with
           | [] => [String c ""]
           | w :: ws => String c w :: ws
           end
  end.

Fixpoint join (sep : string) (l : list string) : string :=
  match l with
  | [] => ""
  | [s] => s
  | s :: l' => s ++ sep ++ join sep l'
  end.

Fixpoint has_char (c : ascii) (s : string) : bool :=
  match s with
  | EmptyString => false
  | String c' s' => Ascii.eqb c c' || has_char c s'
  end.

Definition squote : ascii := ascii_of_nat 39.
Definition dquote : ascii := ascii_of_nat 34.
Definition backslash : ascii := ascii_of_nat 92.

Definition hex_digit (n : nat) : ascii :=
  if Nat.ltb n 10 then ascii_of_nat (48 + n) else ascii_of_nat (87 + n).

Definition repr_char (quote c : ascii) : string :=
  let n := nat_of_ascii c in
  if Ascii.eqb c backslash then String backslash (String backslash "")
  else if Ascii.eqb c quote then String backslash (String quote "")
  else if Nat.eqb n 9 then String backslash "t"
  else if Nat.eqb n 10 then String backslash "n"
  else if Nat.eqb n 13 then String backslash "r"
  else if Nat.ltb n 32 || Nat.eqb n 127 then
    String backslash (String "x" (String (hex_digit (n / 16))
                                    (String (hex_digit (n mod 16)) "")))
  else String c "".

Fixpoint repr_chars (quote : ascii) (s : string) : string :=
  match s with
  | EmptyString => EmptyString
  | String c s' => repr_char quote c ++ repr_chars quote s'
  end.

(** [repr] of a string: single quotes, unless the string has a single quote
    and no double quote. *)
Definition py_repr_str (s : string) : string :=
  let quote := if has_char squote s && negb (has_char dquote s)
               then dquote else squote in
  String quote (repr_chars quote s) ++ String quote "".

Definition py_repr_int (z : Z) : string :=
  DecimalString.NilZero.string_of_int (Z.to_int z).

(** *** Numbers *)

Definition float_zero : spec_float := S754_zero false.
Definition mantissa_2_52 : positive := 4503599627370496.
Definition float_one : spec_float := S754_finite false mantissa_2_52 (-52).

(** [float(z)] for an integer: round to nearest even; an integer beyond the
    binary64 range is an [OverflowError]. *)
Definition float_of_Z (z : Z) : option spec_float :=
  match binary_normalize 53 1024 z 0 false with
  | S754_infinity _ => None
  | f => Some f
  end.

(** [int(f)] for a float: truncation towards zero. *)
Definition Z_of_float (f : spec_float) : res Z :=
  match f with
  | S754_zero _ => ret 0%Z
  | S754_nan => raise (ValueError "cannot convert float NaN to integer")
  | S754_infinity _ => raise (OverflowError "cannot convert float infinity to integer")
  | S754_finite s m e =>
      let a := match e with
               | Z0 => Zpos m
               | Zpos p => Z.shiftl (Zpos m) (Zpos p)
               | Zneg p => Z.shiftr (Zpos m) (Zpos p)
               end in
      ret (if s then Z.opp a else a)
  end.

Definition py_truthy (v : value) : bool :=
  match v with
  | VNone => false
  | VBool b => b
  | VInt z => negb (Z.eqb z 0)
  | VFloat (S754_zero _) => false
  | VFloat _ => true
  | VStr s => negb (String.eqb s "")
  | VList l => match l with [] => false | _ => true end
  | VDict d => match d with [] => false | _ => true end
  end.

(** The parts of the Python runtime that are taken as given: the parsers
    behind [float(s)] and [int(s)] ([None] when the string is not a
    literal of that type) and the text [repr] gives for a float. *)
Class PyBuiltins : Type :=
  { float_of_str : string -> option spec_float;
    int_of_str : string -> option Z;
    repr_float : spec_float -> string }.

Section WithBuiltins.
Context `{PyBuiltins}.

Definition py_repr_scalar (s : scalar) : string :=
  match s with
  | SNone => "None"
  | SBool true => "True"
  | SBool false => "False"
  | SInt z => py_repr_int z
  | SFloat f => repr_float f
  | SStr s => py_repr_str s
  end.

Fixpoint py_repr (v : value) : string :=
  match v with
  | VScalar s => py_repr_scalar s
  | VList l => "[" ++ join ", " (map py_repr l) ++ "]"
  | VDict d =>
      "{" ++ join ", " (map (fun kv => py_repr_str (fst kv) ++ ": " ++ py_repr (snd kv)) d)
          ++ "}"
  end.

(** [v.__str__()]: a string is itself, anything else is its [repr]. *)
Definition py_str (v : value) : string :=
  match v with
  | VStr s => s
  | _ => py_repr v
  end.

(** [float(v)] *)
Definition py_float (v : value) : res spec_float :=
  match v with
  | VFloat f => ret f
  | VInt z =>
      match float_of_Z z with
      | Some f => ret f
      | None => raise (OverflowError "int too large to convert to float")
      end
  | VBool b => ret (if b then float_one else float_zero)
  | VStr s =>
      match float_of_str s with
      | Some f => ret f
      | None =>
          raise (ValueError ("could not convert string to float: " ++ py_repr_str s))
      end
  | _ =>
      raise (TypeError ("float() argument must be a string or a real number, not '"
                        ++ type_name v ++ "'"))
  end.

(** [int(v)] *)
Definition py_int (v : value) : res Z :=
  match v with
  | VInt z => ret z
  | VBool b => ret (if b then 1%Z else 0%Z)
  | VFloat f => Z_of_float f
  | VStr s =>
      match int_of_str s with
      | Some z => ret z
      | None =>
          raise (ValueError ("invalid literal for int() with base 10: "
                             ++ py_repr_str s))
      end
  | _ =>
      raise (TypeError
               ("int() argument must be a string, a bytes-like object or a real number, not '"
                ++ type_name v ++ "'"))
  end.
End WithBuiltins.

End Py.

Import Py.

Declare Scope res_scope.
Delimit Scope res_scope with res.
Notation "x <- m ;; k" := (bind m (fun x => k))
  (at level 100, m at next level, right associativity) : res_scope.
Local Open Scope res_scope.

(** ** pydantic (version 1) as the schema classes use it

    The outcome of validating one field or one model: an exception that
    pydantic does not catch ([inl e]), a list of field errors
    ([inr (inl errs)]), or the validated value ([inr (inr a)]). *)

Module Pydantic.

Definition vres (A : Type) : Type := res (list field_error + A).

Definition vok {A} (a : A) : vres A := inr (inr a).
Definition verr {A} (msg type : string) : vres A :=
  inr (inl [{| fe_loc := []; fe_msg := msg; fe_type := type |}]).

Definition under (name : string) (e : field_error) : field_error :=
  {| fe_loc := name :: fe_loc e; fe_msg := fe_msg e; fe_type := fe_type e |}.

(** Errors of a field are reported under the field's name. *)
Definition at_loc {A} (name : string) (v : vres A) : vres A :=
  match v with
  | inr (inl errs) => inr (inl (map (under name) errs))
  | _ => v
  end.

(** The validators of one field run in sequence and stop at the first
    failure. *)
Definition and_then {A B} (v : vres A) (f : A -> vres B) : vres B :=
  match v with
  | inl e => inl e
  | inr (inl errs) => inr (inl errs)
  | inr (inr a) => f a
  end.

(** The fields of a model are all validated, in order, and their errors are
    collected. *)
Definition both {A B} (va : vres A) (vb : vres B) : vres (A * B) :=
  match va with
  | inl e => inl e
  | inr ra =>
      match vb with
      | inl e => inl e
      | inr rb =>
          match ra, rb with
          | inr a, inr b => inr (inr (a, b))
          | inl ea, inl eb => inr (inl (ea ++ eb)%list)
          | inl ea, inr _ => inr (inl ea)
          | inr _, inl eb => inr (inl eb)
          end
      end
  end.

Definition vmap {A B} (f : A -> B) (v : vres A) : vres B :=
  and_then v (fun a => vok (f a)).

(** A required field: a missing key and a [None] are errors. *)
Definition required {A} (name : string) (f : value -> vres A) (kw : dict) : vres A :=
  at_loc name
    match dict_get name kw with
    | None => verr "field required" "value_error.missing"
    | Some VNone => verr "none is not an allowed value" "type_error.none.not_allowed"
    | Some v => f v
    end.

(** A field [Optional[T] = None]. *)
Definition optional {A} (name : string) (f : value -> vres A) (kw : dict)
  : vres (option A) :=
  at_loc name
    match dict_get name kw with
    | None => vok None
    | Some VNone => vok None
    | Some v => vmap Some (f v)
    end.

(** A field [T = default]: the default is taken as it is when the key is
    missing; a [None] is an error. *)
Definition defaulted {A} (name : string) (f : value -> vres A) (default : A)
    (kw : dict) : vres A :=
  at_loc name
    match dict_get name kw with
    | None => vok default
    | Some VNone => verr "none is not an allowed value" "type_error.none.not_allowed"
    | Some v => f v
    end.

(** Items of a [List[T]] field, each reported under its index. *)
Fixpoint list_items {A} (f : value -> vres A) (i : nat) (l : list value)
  : vres (list A) :=
  match l with
  | [] => vok []
  | v :: l' =>
      vmap (fun p => fst p :: snd p)
           (both (at_loc (py_repr_int (Z.of_nat i)) (f v)) (list_items f (S i) l'))
  end.

Definition list_validator {A} (f : value -> vres A) (v : value) : vres (list A) :=
  match v with
  | VList l => list_items f 0 l
  | _ => verr "value is not a valid list" "type_error.list"
  end.

(** [dict(v)] as pydantic tries it on a value given for a model field: a
    dict is itself; a sequence of pairs with string keys becomes a dict;
    anything else fails. *)
Definition pair_of (v : value) : option (string * value) :=
  match v with
  | VList [VStr k; x] => Some (k, x)
  | VDict [(k, _); (k', _)] => Some (k, VStr k')
  | VStr (String a (String b EmptyString)) =>
      Some (String a EmptyString, VStr (String b EmptyString))
  | _ => None
  end.

Fixpoint dict_of_pairs (l : list value) (acc : dict) : option dict :=
  match l with
  | [] => Some acc
  | v :: l' =>
      match pair_of v with
      | Some (k, x) => dict_of_pairs l' (dict_set k x acc)
      | None => None
      end
  end.

Definition py_dict_of (v : value) : option dict :=
  match v with
  | VDict d => Some d
  | VList l => dict_of_pairs l []
  | VStr EmptyString => Some []
  | _ => None
  end.

(** A field whose type is a model class. *)
Definition model_validator {A} (validate : dict -> vres A) (v : value) : vres A :=
  match py_dict_of v with
  | Some kw => validate kw
  | None => verr "value is not a valid dict" "type_error.dict"
  end.

(** [Model( **kw )]: field errors are raised as one [ValidationError]. *)
Definition construct {A} (model : string) (v : vres A) : res A :=
  match v with
  | inl e => inl e
  | inr (inl errs) => inl (ValidationError model errs)
  | inr (inr a) => inr a
  end.

(** The keys of [kw] that are no field of the model, sorted as pydantic
    reports them when [extra = "forbid"]. *)
Fixpoint insert_sorted (k : string) (l : list string) : list string :=
  match l with
  | [] => [k]
  | k' :: l' =>
      if String.leb k k' then k :: l else k' :: insert_sorted k l'
  end.

Definition extra_keys (fields : list string) (kw : dict) : list string :=
  fold_right insert_sorted []
    (List.filter (fun k => negb (existsb (String.eqb k) fields)) (map fst kw)).

Definition extra_error (k : string) : field_error :=
  {| fe_loc := [k]; fe_msg := "extra fields not permitted";
     fe_type := "value_error.extra" |}.

Definition forbid_extra (fields : list string) (kw : dict) : vres unit :=
  match extra_keys fields kw with
  | [] => vok tt
  | ks => inr (inl (map extra_error ks))
  end.

Section Scalars.
Context `{PyBuiltins}.

(** [str]: a string, or a number turned into its text. *)
Definition str_validator (v : value) : vres string :=
  match v with
  | VStr s => vok s
  | VInt _ | VFloat _ | VBool _ => vok (py_str v)
  | _ => verr "str type expected" "type_error.str"
  end.

(** [float]: a float, or what [float(v)] gives; [TypeError] and
    [ValueError] are field errors, any other exception is not caught. *)
Definition float_validator (v : value) : vres spec_float :=
  match py_float v with
  | inr f => vok f
  | inl (TypeError _) | inl (ValueError _) =>
      verr "value is not a valid float" "type_error.float"
  | inl e => inl e
  end.

(** [int]: an integer that is no boolean, or what [int(v)] gives. *)
Definition int_validator (v : value) : vres Z :=
  match py_int v with
  | inr z => vok z
  | inl _ => verr "value is not a valid integer" "type_error.integer"
  end.
End Scalars.

(** [Field(..., min_length=1)] on a string. *)
Definition min_length_1 (s : string) : vres string :=
  if Nat.leb 1 (String.length s) then vok s
  else verr "ensure this value has at least 1 characters"
            "value_error.any_str.min_length; limit_value=1".

(** [Field(..., gt=0, le=1)] on a float: [v > 0] and [v <= 1]. *)
Definition gt0_le1 (v : spec_float) : vres spec_float :=
  if negb (SFltb float_zero v) then
    verr "ensure this value is greater than 0"
         "value_error.number.not_gt; limit_value=0"
  else if negb (SFleb v float_one) then
    verr "ensure this value is less than or equal to 1"
         "value_error.number.not_le; limit_value=1"
  else vok v.

(** A binary64 number in canonical form, and what it is for the number to
    lie in the interval (0, 1]: it is finite and positive, and its value
    [m * 2^e] is at most 1. *)
Definition is_binary64 (f : spec_float) : Prop := valid_binary 53 1024 f = true.

Definition in_unit_interval (f : spec_float) : Prop :=
  match f with
  | S754_finite false m e => (Zpos m * 2 ^ Z.max e 0 <= 2 ^ Z.max (- e) 0)%Z
  | _ => False
  end.

End Pydantic.

Import Pydantic.

(** ** The recursive merger, on trees *)

Module Config.

Section MergeLoop.
(** The body of [for key, value in override.items()], with the recursive
    call abstracted so that [merge_configs] below is structural in the
    override. *)
Variable merge_rec : value -> value -> res value.

Fixpoint merge_loop (items : dict) (result : value) {struct items} : res value :=
  match items with
  | [] => inr result
  | (key, val) :: rest =>
      match val with
      | VDict _ =>
          match py_in key result with
          | inl e => inl e
          | inr true =>
              match py_getitem result key with
              | inl e => inl e
              | inr old =>
                  match merge_rec old val with
                  | inl e => inl e
                  | inr merged =>
                      match py_setitem result key merged with
                      | inl e => inl e
                      | inr result' => merge_loop rest result'
                      end
                  end
              end
          | inr false =>
              match py_setitem result key val with
              | inl e => inl e
              | inr result' => merge_loop rest result'
              end
          end
      | _ =>
          match py_setitem result key val with
          | inl e => inl e
          | inr result' => merge_loop rest result'
          end
      end
  end.
End MergeLoop.

(** [merge_configs(base, override)]: [result = base.copy()], then the loop
    over [override.items()]. *)
Fixpoint merge_configs (base override : value) {struct override} : res value :=
  match py_copy base with
  | inl e => inl e
  | inr result =>
      match override with
      | VDict items => merge_loop (fun old val => merge_configs old val) items result
      | _ => inl (no_attribute (type_name override) "items")
      end
  end.

(** ** The world outside the process

    [files] gives, for a path, what [open(path, "r")] followed by
    [yaml.safe_load] does there:
    - [NoFile]: [open] raises [FileNotFoundError];
    - [OpenFails class msg]: [open] raises another [OSError], because a
      directory of the path is a regular file, the path is a directory, or
      the file may not be read;
    - [Undecodable msg]: the file is opened and its bytes are not text in
      the encoding, so reading it raises [UnicodeDecodeError];
    - [BadYaml diag]: the text is read and the parser raises a
      [yaml.YAMLError] whose text is [diag];
    - [Yaml doc]: the parser returns the document [doc] ([None] for an
      empty file).
    [yaml_stems dir] lists the files [dir.glob("*.yaml")] finds, by stem,
    in the order the scan yields them.  [environ] is the process
    environment after [load_dotenv()]. *)
Inductive file_state : Type :=
| NoFile
| OpenFails (class : os_error) (msg : string)
| Undecodable (msg : string)
| BadYaml (diag : string)
| Yaml (doc : value).

Record world : Type :=
  { files : string -> file_state;
    yaml_stems : string -> list string;
    environ : string -> option string }.

(** [load_yaml(file_path)]: the [try] has two handlers, for
    [FileNotFoundError] and for [yaml.YAMLError]; what else [open] or the
    reading raises leaves the function as it is. *)
Definition load_yaml (w : world) (file_path : string) : res value :=
  match files w file_path with
  | Yaml doc => ret (if py_truthy doc then doc else VDict [])
  | NoFile => ret (VDict [])
  | BadYaml diag =>
      raise (ValueError ("Error parsing YAML file " ++ file_path ++ ": " ++ diag))
  | OpenFails class msg => raise (OSError class msg)
  | Undecodable msg => raise (UnicodeDecodeError msg)
  end.

(** [os.getenv(name, default)] *)
Definition getenv (w : world) (name : string) (default : value) : value :=
  match environ w name with
  | Some s => VStr s
  | None => default
  end.

(** What [core.constants] and [core.types] provide: the environment
    enumeration with its [.value], and the two record classes with their
    constructors, called with keyword arguments unpacked from a dict. *)
Class CoreTypes : Type :=
  { Environment : Type;
    env_value : Environment -> string;
    StrategyConfig : Type;
    RiskPolicy : Type;
    StrategyConfig_new : dict -> res StrategyConfig;
    RiskPolicy_new : dict -> res RiskPolicy }.

(** Unpacking [v] into keyword arguments: [v] must be a mapping. *)
Definition py_kwargs (v : value) : res dict :=
  match v with
  | VDict d => ret d
  | _ => raise (TypeError ("argument after ** must be a mapping, not " ++ type_name v))
  end.

Definition yaml_path (dir stem : string) : string := dir ++ "/" ++ stem ++ ".yaml".

Section Loaders.
Context `{CoreTypes}.
Variable w : world.

(** The loop of both loaders: [data = load_yaml(file_path)], then
    [records[stem] = Record( ** data[section] )]. *)
Fixpoint load_records {R : Type} (new : dict -> res R) (section dir : string)
    (stems : list string) (records : list (string * R)) {struct stems}
  : res (list (string * R)) :=
  match stems with
  | [] => ret records
  | stem :: rest =>
      data <- load_yaml w (yaml_path dir stem) ;;
      sec <- py_getitem data section ;;
      kw <- py_kwargs sec ;;
      r <- new kw ;;
      load_records new section dir rest (dict_set stem r records)
  end.

(** [load_strategy_configs(strategy_dir)] *)
Definition load_strategy_configs (strategy_dir : string)
  : res (list (string * StrategyConfig)) :=
  load_records StrategyConfig_new "strategy" strategy_dir
               (yaml_stems w strategy_dir) [].

(** [load_rules_configs(rules_dir)] *)
Definition load_rules_configs (rules_dir : string)
  : res (list (string * RiskPolicy)) :=
  load_records RiskPolicy_new "risk" rules_dir (yaml_stems w rules_dir) [].
End Loaders.

(** ** The schema classes *)

Record DataProviderConfig : Type :=
  { provider_name : string;
    provider_api_key : option string;
    provider_secret_key : option string;
    provider_endpoint : string }.

Record CacheConfig : Type := { redis_url : string }.

Record RiskConfig : Type :=
  { max_drawdown : spec_float;
    var_limit : spec_float;
    max_latency_ms : option Z }.

Record TradingConfig : Type :=
  { markets : list string;
    max_position_size : spec_float;
    risk : RiskConfig }.

Record AppConfig : Type := { app_name : string; log_level : string }.

Record DataConfig : Type :=
  { providers : list DataProviderConfig; cache : CacheConfig }.

Definition valid_providers : list string :=
  ["alpaca"; "binance"; "oanda"; "polygon"; "csv"].
Definition valid_markets : list string :=
  ["stocks"; "crypto"; "forex"; "commodities"].
Definition valid_levels : list string :=
  ["DEBUG"; "INFO"; "WARNING"; "ERROR"; "CRITICAL"].

Definition str_in (v : string) (l : list string) : bool := existsb (String.eqb v) l.

Section Schema.
Context `{PyBuiltins}.

Definition repr_strs (l : list string) : string := py_repr (VList (map (fun s => VStr s) l)).

(** The [@validator] methods; a [ValueError] they raise is a field error. *)
Definition validate_provider_name (v : string) : vres string :=
  if negb (str_in v valid_providers)
  then verr ("Provider must be one of " ++ repr_strs valid_providers) "value_error"
  else vok v.

Definition validate_markets (v : list string) : vres (list string) :=
  if negb (forallb (fun m => str_in m valid_markets) v)
  then verr ("Markets must be subset of " ++ repr_strs valid_markets) "value_error"
  else vok v.

Definition validate_log_level (v : string) : vres string :=
  if negb (str_in v valid_levels)
  then verr ("Log level must be one of " ++ repr_strs valid_levels) "value_error"
  else vok v.

Definition unit_fraction (v : value) : vres spec_float :=
  and_then (float_validator v) gt0_le1.

Definition DataProviderConfig_validate (kw : dict) : vres DataProviderConfig :=
  vmap (fun '(n, (a, (s, e))) =>
          {| provider_name := n; provider_api_key := a;
             provider_secret_key := s; provider_endpoint := e |})
    (both (required "name"
             (fun v => and_then (and_then (str_validator v) min_length_1)
                                validate_provider_name) kw)
    (both (optional "api_key" str_validator kw)
    (both (optional "secret_key" str_validator kw)
          (required "endpoint" str_validator kw)))).

Definition CacheConfig_validate (kw : dict) : vres CacheConfig :=
  vmap (fun u => {| redis_url := u |})
    (defaulted "redis_url" str_validator "redis://localhost:6379/0" kw).

Definition RiskConfig_validate (kw : dict) : vres RiskConfig :=
  vmap (fun '(d, (v, l)) =>
          {| max_drawdown := d; var_limit := v; max_latency_ms := l |})
    (both (required "max_drawdown" unit_fraction kw)
    (both (required "var_limit" unit_fraction kw)
          (optional "max_latency_ms" int_validator kw))).

Definition TradingConfig_validate (kw : dict) : vres TradingConfig :=
  vmap (fun '(m, (p, r)) =>
          {| markets := m; max_position_size := p; risk := r |})
    (both (required "markets"
             (fun v => and_then (list_validator str_validator v) validate_markets) kw)
    (both (required "max_position_size" unit_fraction kw)
          (required "risk" (model_validator RiskConfig_validate) kw))).

Definition AppConfig_validate (kw : dict) : vres AppConfig :=
  vmap (fun '(n, l) => {| app_name := n; log_level := l |})
    (both (defaulted "name" str_validator "traderai" kw)
          (defaulted "log_level"
             (fun v => and_then (str_validator v) validate_log_level) "INFO" kw)).

Definition DataConfig_validate (kw : dict) : vres DataConfig :=
  vmap (fun '(p, c) => {| providers := p; cache := c |})
    (both (required "providers"
             (list_validator (model_validator DataProviderConfig_validate)) kw)
          (required "cache" (model_validator CacheConfig_validate) kw)).

Definition RiskConfig_new (kw : dict) : res RiskConfig :=
  construct "RiskConfig" (RiskConfig_validate kw).
Definition TradingConfig_new (kw : dict) : res TradingConfig :=
  construct "TradingConfig" (TradingConfig_validate kw).
End Schema.

Record Settings `{CoreTypes} : Type :=
  { app : AppConfig;
    data : DataConfig;
    trading : TradingConfig;
    strategies : list (string * StrategyConfig);
    rules : list (string * RiskPolicy) }.

Definition settings_fields : list string :=
  ["app"; "data"; "trading"; "strategies"; "rules"].

Section SettingsModel.
Context `{PyBuiltins} `{CoreTypes}.

(** Validation of [Settings( **config )], where [config["strategies"]] and
    [config["rules"]] hold the mappings [strats] and [rls] the loaders
    returned (so those two fields are present and valid), and [config]
    holds every other key.  [extra = "forbid"] makes every key that is no
    field an error. *)
Definition Settings_validate (config : dict)
    (strats : list (string * StrategyConfig)) (rls : list (string * RiskPolicy))
  : vres Settings :=
  vmap (fun '(a, (d, (t, _))) =>
          {| app := a; data := d; trading := t; strategies := strats; rules := rls |})
    (both (required "app" (model_validator AppConfig_validate) config)
    (both (required "data" (model_validator DataConfig_validate) config)
    (both (required "trading" (model_validator TradingConfig_validate) config)
          (forbid_extra settings_fields config)))).

Definition Settings_new (config : dict)
    (strats : list (string * StrategyConfig)) (rls : list (string * RiskPolicy))
  : res Settings :=
  construct "Settings" (Settings_validate config strats rls).
End SettingsModel.

(** ** The environment override builder and [get_settings] *)

(** Iterating over a value, as the list comprehension over the providers
    does: the items of a list, the keys of a dict, the characters of a
    string. *)
Fixpoint chars (s : string) : list value :=
  match s with
  | EmptyString => []
  | String c s' => VStr (String c EmptyString) :: chars s'
  end.

Definition py_iter (v : value) : res (list value) :=
  match v with
  | VList l => ret l
  | VDict d => ret (map (fun kv => VStr (fst kv)) d)
  | VStr s => ret (chars s)
  | VScalar s =>
      raise (TypeError ("'" ++ scalar_type_name s ++ "' object is not iterable"))
  end.

Definition py_mapping (v : value) : res dict :=
  match v with
  | VDict d => ret d
  | _ => raise (TypeError ("'" ++ type_name v ++ "' object is not a mapping"))
  end.

Definition py_upper (v : value) : res string :=
  match v with
  | VStr s => ret (upper s)
  | _ => raise (no_attribute (type_name v) "upper")
  end.

Fixpoint mapM {A B} (f : A -> res B) (l : list A) : res (list B) :=
  match l with
  | [] => ret []
  | a :: l' => b <- f a ;; bs <- mapM f l' ;; ret (b :: bs)
  end.

Definition comma : ascii := ascii_of_nat 44.
Definition newline : string := String (ascii_of_nat 10) EmptyString.

(** The literal defaults 0.1, 0.2 and 0.05 as binary64 numbers. *)
Definition float_0_1 : spec_float := S754_finite false 7205759403792794 (-56).
Definition float_0_2 : spec_float := S754_finite false 7205759403792794 (-55).
Definition float_0_05 : spec_float := S754_finite false 7205759403792794 (-57).

Section Builder.
Context `{PyBuiltins}.
Variable w : world.

(** [config.get(k1, {}).get(k2, default)] and the three-level form. *)
Definition get2 (config : value) (k1 k2 : string) (default : value) : res value :=
  a <- py_get config k1 (VDict []) ;;
  py_get a k2 default.

Definition get3 (config : value) (k1 k2 k3 : string) (default : value) : res value :=
  a <- py_get config k1 (VDict []) ;;
  b <- py_get a k2 (VDict []) ;;
  py_get b k3 default.

(** One element of the providers comprehension: the provider's own
    entries, then [api_key] and [secret_key] read from
    [NAME_API_KEY] and [NAME_SECRET_KEY]. *)
Definition provider_override (provider : value) : res value :=
  entries <- py_mapping provider ;;
  name <- py_getitem provider "name" ;;
  up <- py_upper name ;;
  old_api <- py_get provider "api_key" VNone ;;
  let api_key := getenv w (up ++ "_API_KEY") old_api in
  name' <- py_getitem provider "name" ;;
  up' <- py_upper name' ;;
  old_secret <- py_get provider "secret_key" VNone ;;
  let secret_key := getenv w (up' ++ "_SECRET_KEY") old_secret in
  ret (VDict (dict_set "secret_key" secret_key (dict_set "api_key" api_key entries))).

(** [os.getenv("MARKETS", ...).__str__().split(",")] *)
Definition markets_override (config : value) : res value :=
  base_markets <- get2 config "trading" "markets" (VList []) ;;
  ret (VList (map (fun s => VStr s)
                  (split comma (py_str (getenv w "MARKETS" base_markets))))).

(** [float(os.getenv(var, base))] and [int(os.getenv(var, base))], where
    [base] is the lookup in the base tree. *)
Definition float_override (var : string) (base : res value) : res value :=
  b <- base ;;
  f <- py_float (getenv w var b) ;;
  ret (VFloat f).

Definition int_override (var : string) (base : res value) : res value :=
  b <- base ;;
  z <- py_int (getenv w var b) ;;
  ret (VInt z).

(** The three entries of the dict literal passed to the second
    [merge_configs]; each is evaluated in the order of the source. *)
Definition app_overrides (config : value) : res value :=
  base_name <- get2 config "app" "name" VNone ;;
  base_level <- get2 config "app" "log_level" VNone ;;
  ret (VDict [("name", getenv w "APP_NAME" base_name);
              ("log_level", getenv w "LOG_LEVEL" base_level)]).

Definition data_overrides (config : value) : res value :=
  base_providers <- get2 config "data" "providers" (VList []) ;;
  provider_list <- py_iter base_providers ;;
  new_providers <- mapM provider_override provider_list ;;
  base_redis <- get3 config "data" "cache" "redis_url" VNone ;;
  ret (VDict [("providers", VList new_providers);
              ("cache", VDict [("redis_url", getenv w "REDIS_URL" base_redis)])]).

Definition risk_overrides (config : value) : res value :=
  drawdown <- float_override "MAX_DRAWDOWN"
                (get3 config "trading" "risk" "max_drawdown" (VFloat float_0_2)) ;;
  var <- float_override "VAR_LIMIT"
           (get3 config "trading" "risk" "var_limit" (VFloat float_0_05)) ;;
  latency <- int_override "MAX_LATENCY_MS"
               (get3 config "trading" "risk" "max_latency_ms" (VInt 1000)) ;;
  ret (VDict [("max_drawdown", drawdown); ("var_limit", var);
              ("max_latency_ms", latency)]).

Definition trading_overrides (config : value) : res value :=
  new_markets <- markets_override config ;;
  size <- float_override "MAX_POSITION_SIZE"
            (get2 config "trading" "max_position_size" (VFloat float_0_1)) ;;
  new_risk <- risk_overrides config ;;
  ret (VDict [("markets", new_markets); ("max_position_size", size);
              ("risk", new_risk)]).

(** The numeric variables with the conversion the builder applies to
    each, and the [ValueError] that conversion raises on a string [s]
    that is no literal of the target type. *)
Definition parses_as_target (var s : string) : option bool :=
  if str_in var ["MAX_POSITION_SIZE"; "MAX_DRAWDOWN"; "VAR_LIMIT"]
  then Some (match float_of_str s with Some _ => true | None => false end)
  else if String.eqb var "MAX_LATENCY_MS"
  then Some (match int_of_str s with Some _ => true | None => false end)
  else None.

Definition conversion_error (var s : string) : exn :=
  if String.eqb var "MAX_LATENCY_MS"
  then ValueError ("invalid literal for int() with base 10: " ++ py_repr_str s)
  else ValueError ("could not convert string to float: " ++ py_repr_str s).

Definition env_overrides (config : value) : res value :=
  new_app <- app_overrides config ;;
  new_data <- data_overrides config ;;
  new_trading <- trading_overrides config ;;
  ret (VDict [("app", new_app); ("data", new_data); ("trading", new_trading)]).

(** What the dict literal has evaluated when it comes to convert the value
    of the numeric variable [var]: the [app] and [data] entries (lines
    134-150), the markets (line 152), the numeric entries written above
    the entry of [var], and the lookup in the base tree that is the second
    argument of [os.getenv] in the entry of [var]. *)
Definition entries_before (var : string) (config : value) : res unit :=
  new_app <- app_overrides config ;;
  new_data <- data_overrides config ;;
  new_markets <- markets_override config ;;
  if String.eqb var "MAX_POSITION_SIZE" then
    base <- get2 config "trading" "max_position_size" (VFloat float_0_1) ;; ret tt
  else
    size <- float_override "MAX_POSITION_SIZE"
              (get2 config "trading" "max_position_size" (VFloat float_0_1)) ;;
    if String.eqb var "MAX_DRAWDOWN" then
      base <- get3 config "trading" "risk" "max_drawdown" (VFloat float_0_2) ;; ret tt
    else
      drawdown <- float_override "MAX_DRAWDOWN"
                    (get3 config "trading" "risk" "max_drawdown" (VFloat float_0_2)) ;;
      if String.eqb var "VAR_LIMIT" then
        base <- get3 config "trading" "risk" "var_limit" (VFloat float_0_05) ;; ret tt
      else
        limit <- float_override "VAR_LIMIT"
                   (get3 config "trading" "risk" "var_limit" (VFloat float_0_05)) ;;
        base <- get3 config "trading" "risk" "max_latency_ms" (VInt 1000) ;; ret tt.
End Builder.

(** [str(e)] for a pydantic [ValidationError]. *)
Definition display_error (e : field_error) : string :=
  join " -> " (fe_loc e) ++ newline ++ "  " ++ fe_msg e ++ " (type=" ++ fe_type e ++ ")".

Definition validation_error_str (model : string) (errs : list field_error) : string :=
  py_repr_int (Z.of_nat (List.length errs)) ++ " validation error"
  ++ (if Nat.eqb (List.length errs) 1 then "" else "s") ++ " for " ++ model
  ++ newline ++ join newline (map display_error errs).

(** [str(e)] for an exception, and what it is for a message to name a
    file or to wrap a diagnostic: the text occurs in it. *)
Definition exn_message (e : exn) : string :=
  match e with
  | AttributeError msg | TypeError msg | ValueError msg | UnicodeDecodeError msg
  | OSError _ msg | OverflowError msg | NameError msg => msg
  | KeyError key => py_repr_str key
  | ValidationError model errs => validation_error_str model errs
  end.

Definition contains (s sub : string) : Prop :=
  exists pre post, s = pre ++ sub ++ post.

Section GetSettings.
Context `{PyBuiltins} `{CoreTypes}.
Variable w : world.

(** [config["strategies"] = ...]: [config] must take item assignment. *)
Definition as_dict (config : value) : res dict :=
  match py_setitem config "strategies" VNone with
  | inl e => inl e
  | inr _ => match config with VDict d => ret d | _ => ret [] end
  end.

(** [get_settings(env)] *)
Definition get_settings (env : Environment) : res Settings :=
  let config_dir := "configs" in
  let default_config_path := config_dir ++ "/default.yaml" in
  let env_config_path := config_dir ++ "/" ++ env_value env ++ ".yaml" in
  let strategy_dir := config_dir ++ "/strategies" in
  let rules_dir := config_dir ++ "/rules" in
  default_config <- load_yaml w default_config_path ;;
  env_config <- load_yaml w env_config_path ;;
  config <- merge_configs default_config env_config ;;
  overrides <- env_overrides w config ;;
  config <- merge_configs config overrides ;;
  strats <- load_strategy_configs w strategy_dir ;;
  config <- as_dict config ;;
  rls <- load_rules_configs w rules_dir ;;
  match Settings_new config strats rls with
  | inl (ValidationError model errs) =>
      raise (ValueError ("Configuration validation error: "
                         ++ validation_error_str model errs))
  | inl (ValueError msg) | inl (UnicodeDecodeError msg) =>
      raise (ValueError ("Configuration validation error: " ++ msg))
  | r => r
  end.

(** The module-level [settings] variable, and [init_settings(env)] as a
    function of the world and of the variable's current value. *)
Definition init_settings (env : Environment) (settings : option Settings)
  : res Settings * option Settings :=
  match settings with
  | None =>
      match get_settings env with
      | inr s => (inr s, Some s)
      | inl e => (inl e, None)
      end
  | Some s => (inr s, Some s)
  end.
End GetSettings.

End Config.

Import Config.


(** ** The recursive merger, on a store

    [merge_configs] copies and assigns: whether it leaves its arguments
    alone is a question about objects, not about trees.  Here a dict or a
    list is an object at an address of a store, a value is a scalar or a
    reference, [base.copy()] allocates, and [result[key] = v] updates the
    object [result] refers to.  The recursion is on [fuel]; [None] means
    that the fuel ran out or that a reference dangles. *)

Module Store.

Abbreviation addr := nat.

Inductive hval : Type :=
| HScalar (s : scalar)
| HRef (a : addr).

Inductive obj : Type :=
| ODict (d : list (string * hval))
| OList (l : list hval).

Abbreviation heap := (list obj).

Definition outcome : Type := option (heap * res hval).

(** [isinstance(v, dict)] *)
Definition is_dict (h : heap) (v : hval) : option bool :=
  match v with
  | HScalar _ => Some false
  | HRef a =>
      match h !! a with
      | Some (ODict _) => Some true
      | Some (OList _) => Some false
      | None => None
      end
  end.

Definition is_hstr (k : string) (v : hval) : bool :=
  match v with
  | HScalar (SStr s) => String.eqb k s
  | _ => false
  end.

(** [key in result], [result[key]] and [result[key] = v] on the object
    [result] refers to. *)
Definition obj_in (key : string) (o : obj) : bool :=
  match o with
  | ODict d => dict_mem key d
  | OList l => existsb (is_hstr key) l
  end.

Definition obj_getitem (o : obj) (key : string) : res hval :=
  match o with
  | ODict d =>
      match dict_get key d with
      | Some v => ret v
      | None => raise (KeyError key)
      end
  | OList _ => raise (TypeError "list indices must be integers or slices, not str")
  end.

Definition obj_setitem (o : obj) (key : string) (v : hval) : res obj :=
  match o with
  | ODict d => ret (ODict (dict_set key v d))
  | OList _ => raise (TypeError "list indices must be integers or slices, not str")
  end.

(** [result[key] = v] where [result] is the object at [r]. *)
Definition assign (h : heap) (r : addr) (key : string) (v : hval)
  : option (heap * res unit) :=
  match h !! r with
  | None => None
  | Some o =>
      match obj_setitem o key v with
      | inl e => Some (h, inl e)
      | inr o' => Some (<[r := o']> h, inr tt)
      end
  end.

Section MergeLoop.
Variable merge_rec : heap -> hval -> hval -> outcome.

Fixpoint merge_loop (items : list (string * hval)) (r : addr) (h : heap)
    {struct items} : outcome :=
  match items with
  | [] => Some (h, inr (HRef r))
  | (key, val) :: rest =>
      match is_dict h val, h !! r with
      | Some true, Some result =>
          if obj_in key result then
            match obj_getitem result key with
            | inl e => Some (h, inl e)
            | inr old =>
                match merge_rec h old val with
                | None => None
                | Some (h1, inl e) => Some (h1, inl e)
                | Some (h1, inr merged) =>
                    match assign h1 r key merged with
                    | None => None
                    | Some (h2, inl e) => Some (h2, inl e)
                    | Some (h2, inr _) => merge_loop rest r h2
                    end
                end
            end
          else
            match assign h r key val with
            | None => None
            | Some (h2, inl e) => Some (h2, inl e)
            | Some (h2, inr _) => merge_loop rest r h2
            end
      | Some false, Some _ =>
          match assign h r key val with
          | None => None
          | Some (h2, inl e) => Some (h2, inl e)
          | Some (h2, inr _) => merge_loop rest r h2
          end
      | _, _ => None
      end
  end.
End MergeLoop.

(** [merge_configs(base, override)] in the store [h]: the copy of the
    object [base] refers to is allocated at the first free address. *)
Fixpoint merge_configs (fuel : nat) (h : heap) (base override : hval)
    {struct fuel} : outcome :=
  match fuel with
  | O => None
  | S fuel' =>
      match base with
      | HScalar s => Some (h, inl (no_attribute (scalar_type_name s) "copy"))
      | HRef b =>
          match h !! b with
          | None => None
          | Some o =>
              let r := List.length h in
              let h1 := (h ++ [o])%list in
              match override with
              | HScalar s =>
                  Some (h1, inl (no_attribute (scalar_type_name s) "items"))
              | HRef ov =>
                  match h1 !! ov with
                  | None => None
                  | Some (OList _) => Some (h1, inl (no_attribute "list" "items"))
                  | Some (ODict items) => merge_loop (merge_configs fuel') items r h1
                  end
              end
          end
      end
  end.

End Store.

(** ** Stores and trees

    How the store model relates to the tree model.  [repr avoid h v t]: in
    the store [h] the value [v] unfolds to the tree [t], through addresses
    outside [avoid] only.  Objects may be shared between several places of
    a tree; a cyclic object stands for no tree. *)

Module StoreRepr.
Import Store.

#[local] Unset Elimination Schemes.
Inductive repr (avoid : addr -> Prop) (h : heap) : hval -> value -> Prop :=
| repr_scalar s : repr avoid h (HScalar s) (VScalar s)
| repr_list a l tl :
    ~ avoid a ->
    h !! a = Some (OList l) ->
    Forall2 (repr avoid h) l tl ->
    repr avoid h (HRef a) (VList tl)
| repr_dict a d td :
    ~ avoid a ->
    h !! a = Some (ODict d) ->
    Forall2 (fun kv kt => fst kv = fst kt /\ repr avoid h (snd kv) (snd kt)) d td ->
    repr avoid h (HRef a) (VDict td).
#[local] Set Elimination Schemes.

Abbreviation item_repr avoid h :=
  (fun (kv : string * hval) (kt : string * value) =>
     fst kv = fst kt /\ repr avoid h (snd kv) (snd kt)).

(** The content of an object against the content of a dict or list tree. *)
Definition obj_repr (avoid : addr -> Prop) (h : heap) (o : obj) (t : value) : Prop :=
  match o, t with
  | ODict d, VDict td => Forall2 (item_repr avoid h) d td
  | OList l, VList tl => Forall2 (repr avoid h) l tl
  | _, _ => False
  end.

Definition nowhere : addr -> Prop := fun _ => False.

(** [run], a computation indexed by its fuel, has the outcome [out] for
    every fuel from some amount on. *)
Definition settles (run : nat -> outcome) (out : heap * res hval) : Prop :=
  exists fuel, forall fuel', fuel <= fuel' -> run fuel' = Some out.

(** A run on the store against a result on trees: the same exception, or
    a value that stands for the returned tree in the final store. *)
Definition agrees (avoid : addr -> Prop) (run : nat -> outcome) (expected : res value)
  : Prop :=
  match expected with
  | inr t => exists h' r, settles run (h', inr r) /\ repr avoid h' r t
  | inl e => exists h', settles run (h', inl e)
  end.

(** The same for the loop that fills the object at [r]. *)
Definition loop_agrees (avoid : addr -> Prop) (r : addr)
    (run : nat -> outcome) (expected : res value) : Prop :=
  match expected with
  | inr t' =>
      exists h' o',
        settles run (h', inr (HRef r)) /\ h' !! r = Some o' /\ obj_repr avoid h' o' t'
  | inl e => exists h', settles run (h', inl e)
  end.

(** One call of the merger on the store against the merger on trees, for
    the override tree [tv]. *)
Definition simulates (tv : value) : Prop :=
  forall avoid (h : heap) b o tb,
    (forall a, avoid a -> a < length h) ->
    repr avoid h b tb -> repr avoid h o tv ->
    agrees avoid (fun fuel => Store.merge_configs fuel h b o)
           (Config.merge_configs tb tv).

End StoreRepr.

(** ** Loading the module

    What executing [core/config.py] from top to bottom does to the module
    namespace.  A statement lists the global names it evaluates when it
    runs, in order, and the names it binds.  A class statement evaluates
    its bases and, in its body, the annotations, the default values and
    the decorators; a [def] evaluates the annotations and defaults of its
    signature, not its body.  (Annotations are evaluated when the
    statement runs: the module has no [from __future__ import annotations].) *)

Module Loading.

Inductive stmt : Type :=
| Import (names : list string)
| ExprStmt (uses : list string)
| ClassDef (name : string) (uses : list string)
| FunctionDef (name : string) (uses : list string)
| AnnAssign (name : string) (uses : list string).

Definition uses (s : stmt) : list string :=
  match s with
  | Import _ => []
  | ExprStmt u | ClassDef _ u | FunctionDef _ u | AnnAssign _ u => u
  end.

Definition binds (s : stmt) : list string :=
  match s with
  | Import names => names
  | ExprStmt _ => []
  | ClassDef n _ | FunctionDef n _ | AnnAssign n _ => [n]
  end.

Definition bound (ns : list string) (x : string) : bool := existsb (String.eqb x) ns.

Fixpoint first_unbound (ns : list string) (names : list string) : option string :=
  match names with
  | [] => None
  | x :: names' => if bound ns x then first_unbound ns names' else Some x
  end.

Definition exec_stmt (ns : list string) (s : stmt) : res (list string) :=
  match first_unbound ns (uses s) with
  | Some x => raise (NameError ("name '" ++ x ++ "' is not defined"))
  | None => ret (binds s ++ ns)%list
  end.

Fixpoint exec_module (ns : list string) (body : list stmt) : res (list string) :=
  match body with
  | [] => ret ns
  | s :: body' => ns' <- exec_stmt ns s ;; exec_module ns' body'
  end.

Definition builtins : list string := ["str"; "float"; "int"].

Definition imports : list stmt :=
  [ Import ["os"];
    Import ["List"; "Dict"; "Any"; "Optional"];
    Import ["Path"];
    Import ["yaml"];
    Import ["load_dotenv"];
    Import ["BaseModel"; "Field"; "validator"];
    Import ["Environment"];
    Import ["StrategyConfig"; "RiskPolicy"];
    ExprStmt ["load_dotenv"] ].

Definition class_DataProviderConfig : stmt :=
  ClassDef "DataProviderConfig"
    ["BaseModel"; "Field"; "str"; "Optional"; "str"; "Optional"; "str"; "str"; "validator"].
Definition class_CacheConfig : stmt := ClassDef "CacheConfig" ["BaseModel"; "str"].
Definition class_RiskConfig : stmt :=
  ClassDef "RiskConfig" ["BaseModel"; "Field"; "float"; "Field"; "float"; "Optional"; "int"].
Definition class_TradingConfig : stmt :=
  ClassDef "TradingConfig"
    ["BaseModel"; "List"; "str"; "Field"; "float"; "RiskConfig"; "validator"].
Definition class_AppConfig : stmt :=
  ClassDef "AppConfig" ["BaseModel"; "str"; "str"; "validator"].
Definition class_Settings : stmt :=
  ClassDef "Settings"
    ["BaseModel"; "AppConfig"; "DataConfig"; "TradingConfig";
     "Dict"; "str"; "StrategyConfig"; "Dict"; "str"; "RiskPolicy"].
Definition class_DataConfig : stmt :=
  ClassDef "DataConfig" ["BaseModel"; "List"; "DataProviderConfig"; "CacheConfig"].

Definition functions : list stmt :=
  [ FunctionDef "load_yaml" ["Path"; "Dict"; "str"; "Any"];
    FunctionDef "merge_configs"
      ["Dict"; "str"; "Any"; "Dict"; "str"; "Any"; "Dict"; "str"; "Any"];
    FunctionDef "load_strategy_configs" ["Path"; "Dict"; "str"; "StrategyConfig"];
    FunctionDef "load_rules_configs" ["Path"; "Dict"; "str"; "RiskPolicy"];
    FunctionDef "get_settings" ["Environment"; "Environment"; "Settings"];
    AnnAssign "settings" ["Optional"; "Settings"];
    FunctionDef "init_settings" ["Environment"; "Environment"; "Settings"] ].

(** The module in the order of the source: [Settings] (line 62) comes
    before [DataConfig] (line 73). *)
Definition config_py : list stmt :=
  (imports ++
   [class_DataProviderConfig; class_CacheConfig; class_RiskConfig;
    class_TradingConfig; class_AppConfig; class_Settings; class_DataConfig] ++
   functions)%list.

(** The same statements with [DataConfig] moved before [Settings]. *)
Definition config_py_reordered : list stmt :=
  (imports ++
   [class_DataProviderConfig; class_CacheConfig; class_RiskConfig;
    class_TradingConfig; class_AppConfig; class_DataConfig; class_Settings] ++
   functions)%list.

(** Calling a function of the module: the module is imported first, and the
    call needs the function's name bound. *)
Definition call_in {A} (body : list stmt) (f : string) (call : res A) : res A :=
  ns <- exec_module builtins body ;;
  if bound ns f then call
  else raise (AttributeError ("module 'core.config' has no attribute '" ++ f ++ "'")).

End Loading.

(** ** A concrete runtime, to run the code on examples

    [plain_builtins] reads plain decimal integer literals (an optional sign
    and digits) and rejects every other string; Python's parsers accept
    more (fractions, exponents, surrounding blanks), and the examples below
    only parse strings on which both agree.  Its [repr_float] is the exact
    decimal expansion, which is Python's text for floats such as 0.5, 1.5
    or 2.0.  [plain_core] identifies an environment with its value and lets
    the two record classes accept any keyword arguments. *)

Module Examples.

Fixpoint digits_value (s : string) (acc : Z) : option Z :=
  match s with
  | EmptyString => Some acc
  | String c s' =>
      let n := nat_of_ascii c in
      if Nat.leb 48 n && Nat.leb n 57
      then digits_value s' (10 * acc + Z.of_nat (n - 48))%Z
      else None
  end.

Definition plain_int_of_str (s : string) : option Z :=
  match s with
  | EmptyString => None
  | String c s' =>
      if Ascii.eqb c "-" then
        match s' with
        | EmptyString => None
        | _ => option_map Z.opp (digits_value s' 0)
        end
      else if Ascii.eqb c "+" then
        match s' with
        | EmptyString => None
        | _ => digits_value s' 0
        end
      else digits_value s 0
  end.

Definition plain_float_of_str (s : string) : option spec_float :=
  match plain_int_of_str s with
  | Some z => float_of_Z z
  | None => None
  end.

Fixpoint strip_zeros (fuel : nat) (frac : Z) (width : nat) : Z * nat :=
  match fuel with
  | O => (frac, width)
  | S fuel' =>
      if Z.eqb (frac mod 10) 0 && Nat.ltb 1 width
      then strip_zeros fuel' (frac / 10)%Z (width - 1)
      else (frac, width)
  end.

Fixpoint zeros (n : nat) : string :=
  match n with
  | O => ""
  | S n' => String "0" (zeros n')
  end.

Definition plain_repr_float (f : spec_float) : string :=
  match f with
  | S754_zero s => if s then "-0.0" else "0.0"
  | S754_infinity s => if s then "-inf" else "inf"
  | S754_nan => "nan"
  | S754_finite s m e =>
      (if s then "-" else "") ++
      match e with
      | Zneg k =>
          let d := Z.pow 2 (Zpos k) in
          let '(frac, width) :=
            strip_zeros (Pos.to_nat k) ((Zpos m mod d) * Z.pow 5 (Zpos k))%Z (Pos.to_nat k) in
          let digits := py_repr_int frac in
          py_repr_int (Zpos m / d) ++ "." ++ zeros (width - String.length digits) ++ digits
      | _ => py_repr_int (Z.shiftl (Zpos m) e) ++ ".0"
      end
  end.

Definition plain_builtins : PyBuiltins :=
  {| float_of_str := plain_float_of_str;
     int_of_str := plain_int_of_str;
     repr_float := plain_repr_float |}.

Definition plain_core : CoreTypes :=
  {| Environment := string;
     env_value := fun e => e;
     StrategyConfig := dict;
     RiskPolicy := dict;
     StrategyConfig_new := fun kw => ret kw;
     RiskPolicy_new := fun kw => ret kw |}.

(** A default file that passes the schema once [MARKETS] is set. *)
Definition default_yaml : value :=
  VDict
    [("app", VDict [("name", VStr "traderai"); ("log_level", VStr "INFO")]);
     ("data",
      VDict [("providers",
              VList [VDict [("name", VStr "alpaca");
                            ("endpoint", VStr "https://paper-api.alpaca.markets")]]);
             ("cache", VDict [("redis_url", VStr "redis://localhost:6379/0")])]);
     ("trading",
      VDict [("markets", VList [VStr "stocks"; VStr "crypto"]);
             ("max_position_size", VFloat float_0_1);
             ("risk", VDict [("max_drawdown", VFloat float_0_2);
                             ("var_limit", VFloat float_0_05)])])].

Definition files_with (path : string) (doc : file_state) : string -> file_state :=
  fun p => if String.eqb p path then doc else NoFile.

Definition env_with (var : string) (s : string) : string -> option string :=
  fun n => if String.eqb n var then Some s else None.

(** Only [configs/default.yaml] exists; [MARKETS=stocks,crypto]. *)
Definition good_world : world :=
  {| files := files_with "configs/default.yaml" (Yaml default_yaml);
     yaml_stems := fun _ => [];
     environ := env_with "MARKETS" "stocks,crypto" |}.

(** The same files with an empty environment. *)
Definition no_env_world : world :=
  {| files := files_with "configs/default.yaml" (Yaml default_yaml);
     yaml_stems := fun _ => [];
     environ := fun _ => None |}.

(** The same files with [MAX_DRAWDOWN=abc]. *)
Definition bad_number_world : world :=
  {| files := files_with "configs/default.yaml" (Yaml default_yaml);
     yaml_stems := fun _ => [];
     environ := env_with "MAX_DRAWDOWN" "abc" |}.

(** A default file whose one provider has no [name], [MAX_DRAWDOWN=abc]
    and [MARKETS=stocks,crypto]. *)
Definition nameless_provider_yaml : value :=
  VDict
    [("app", VDict [("name", VStr "traderai"); ("log_level", VStr "INFO")]);
     ("data",
      VDict [("providers",
              VList [VDict [("endpoint", VStr "https://paper-api.alpaca.markets")]]);
             ("cache", VDict [("redis_url", VStr "redis://localhost:6379/0")])]);
     ("trading",
      VDict [("markets", VList [VStr "stocks"; VStr "crypto"]);
             ("max_position_size", VFloat float_0_1);
             ("risk", VDict [("max_drawdown", VFloat float_0_2);
                             ("var_limit", VFloat float_0_05)])])].

Definition nameless_provider_world : world :=
  {| files := files_with "configs/default.yaml" (Yaml nameless_provider_yaml);
     yaml_stems := fun _ => [];
     environ := fun n =>
       if String.eqb n "MAX_DRAWDOWN" then Some "abc"
       else if String.eqb n "MARKETS" then Some "stocks,crypto"
       else None |}.

(** The files of [good_world] with [MAX_POSITION_SIZE=big] and
    [MAX_DRAWDOWN=abc]: two numeric variables that do not parse. *)
Definition two_bad_numbers_world : world :=
  {| files := files_with "configs/default.yaml" (Yaml default_yaml);
     yaml_stems := fun _ => [];
     environ := fun n =>
       if String.eqb n "MAX_POSITION_SIZE" then Some "big"
       else if String.eqb n "MAX_DRAWDOWN" then Some "abc"
       else None |}.

(** A default file that does not parse. *)
Definition bad_yaml_world : world :=
  {| files := files_with "configs/default.yaml" (BadYaml "mapping values are not allowed here");
     yaml_stems := fun _ => [];
     environ := fun _ => None |}.




(** One strategy file, [momentum.yaml], without a [strategy] section, and
    one rules file, [limits.yaml], without a [risk] section. *)
Definition missing_section_world : world :=
  {| files := fun p =>
       if String.eqb p "configs/strategies/momentum.yaml"
       then Yaml (VDict [("name", VStr "momentum")])
       else if String.eqb p "configs/rules/limits.yaml"
       then Yaml (VDict [("limit", VInt 3)])
       else NoFile;
     yaml_stems := fun dir =>
       if String.eqb dir "configs/strategies" then ["momentum"]
       else if String.eqb dir "configs/rules" then ["limits"]
       else [];
     environ := fun _ => None |}.

(** The default file with one more top-level key, [foo: bar]. *)
Definition extra_key_yaml : value :=
  match default_yaml with
  | VDict d => VDict (d ++ [("foo", VStr "bar")])%list
  | v => v
  end.

(** The override the builder makes for it in [good_world], and the tree
    the second merge returns. *)
Definition extra_key_overrides : value :=
  Eval vm_compute in
    match env_overrides (H := plain_builtins) good_world extra_key_yaml with
    | inr ovr => ovr
    | inl _ => VNone
    end.

Definition extra_key_merged : dict :=
  Eval vm_compute in
    match merge_configs extra_key_yaml extra_key_overrides with
    | inr (VDict d) => d
    | _ => []
    end.

(** The default file with the three fractions replaced. *)
Definition fractions_yaml (drawdown var size : spec_float) : dict :=
  [("app", VDict [("name", VStr "traderai"); ("log_level", VStr "INFO")]);
   ("data",
    VDict [("providers",
            VList [VDict [("name", VStr "alpaca");
                          ("endpoint", VStr "https://paper-api.alpaca.markets")]]);
           ("cache", VDict [("redis_url", VStr "redis://localhost:6379/0")])]);
   ("trading",
    VDict [("markets", VList [VStr "stocks"; VStr "crypto"]);
           ("max_position_size", VFloat size);
           ("risk", VDict [("max_drawdown", VFloat drawdown);
                           ("var_limit", VFloat var)])])].

(** What [get_settings] returns in [good_world]. *)
Definition good_settings : @Settings plain_core :=
  {| app := {| app_name := "traderai"; log_level := "INFO" |};
     data :=
       {| providers :=
            [{| provider_name := "alpaca";
                provider_api_key := None;
                provider_secret_key := None;
                provider_endpoint := "https://paper-api.alpaca.markets" |}];
          cache := {| redis_url := "redis://localhost:6379/0" |} |};
     trading :=
       {| markets := ["stocks"; "crypto"];
          max_position_size := float_0_1;
          risk := {| max_drawdown := float_0_2;
                     var_limit := float_0_05;
                     max_latency_ms := Some 1000%Z |} |};
     strategies := [];
     rules := [] |}.

(** The [Settings] made from [fractions_yaml] when it is accepted. *)
Definition fractions_settings (drawdown var size : spec_float) : @Settings plain_core :=
  {| app := app good_settings;
     data := data good_settings;
     trading :=
       {| markets := ["stocks"; "crypto"];
          max_position_size := size;
          risk := {| max_drawdown := drawdown; var_limit := var;
                     max_latency_ms := None |} |};
     strategies := [];
     rules := [] |}.

(** The two errors of the range check, as reported for [max_drawdown]. *)
Definition not_le_error : field_error :=
  {| fe_loc := ["trading"; "risk"; "max_drawdown"];
     fe_msg := "ensure this value is less than or equal to 1";
     fe_type := "value_error.number.not_le; limit_value=1" |}.

Definition not_gt_error : field_error :=
  {| fe_loc := ["trading"; "risk"; "max_drawdown"];
     fe_msg := "ensure this value is greater than 0";
     fe_type := "value_error.number.not_gt; limit_value=0" |}.

(** A store with the base [{"a": {"x": 1, "y": 2}, "b": 3}] at address 0
    and the override [{"a": {"y": 5}, "c": []}] at address 2, and the store
    after merging them: the result is at address 5, the merge of the two
    nested dicts at address 6. *)
Definition sample_heap : list Store.obj :=
  [ Store.ODict [("a", Store.HRef 1); ("b", Store.HScalar (SInt 3))];
    Store.ODict [("x", Store.HScalar (SInt 1)); ("y", Store.HScalar (SInt 2))];
    Store.ODict [("a", Store.HRef 3); ("c", Store.HRef 4)];
    Store.ODict [("y", Store.HScalar (SInt 5))];
    Store.OList [] ].

Definition merged_heap : list Store.obj :=
  (sample_heap ++
   [ Store.ODict [("a", Store.HRef 6); ("b", Store.HScalar (SInt 3));
                  ("c", Store.HRef 4)];
     Store.ODict [("x", Store.HScalar (SInt 1)); ("y", Store.HScalar (SInt 5))] ])%list.

(** The trees the objects 0 and 2 of [sample_heap] stand for. *)
Definition sample_base_tree : value :=
  VDict [("a", VDict [("x", VInt 1); ("y", VInt 2)]); ("b", VInt 3)].

Definition sample_override_tree : value :=
  VDict [("a", VDict [("y", VInt 5)]); ("c", VList [])].

Definition float_1_5 : spec_float := S754_finite false 6755399441055744 (-52).
Definition float_0_5 : spec_float := S754_finite false 4503599627370496 (-53).

End Examples.

(** ** Shapes of trees

    A Python dict has each key once.  [distinct_keys v] says so of [v] and
    of every dict nested in dicts of [v] (the dicts the merger can reach;
    it never looks inside a list).  [get_path p v] follows the keys [p]
    down the nested dicts of [v], as [v.get(k1, {}).get(k2)] does.
    [mergeable base override] is the condition on the two trees under
    which the merger meets no value it cannot copy or assign to: wherever
    the override holds a dict at a key the base has, the base holds a dict
    there too (or a list, and the override's dict is empty), and so on
    below. *)

Module TreeShape.

Fixpoint distinct (l : list string) : bool :=
  match l with
  | [] => true
  | k :: l' => negb (existsb (String.eqb k) l') && distinct l'
  end.

Fixpoint distinct_keys (v : value) : bool :=
  match v with
  | VDict d => distinct (map fst d) && forallb (fun kv => distinct_keys (snd kv)) d
  | _ => true
  end.

Fixpoint get_path (p : list string) (v : value) : option value :=
  match p with
  | [] => Some v
  | k :: p' =>
      match v with
      | VDict d =>
          match dict_get k d with
          | Some x => get_path p' x
          | None => None
          end
      | _ => None
      end
  end.

(** The dicts along [p] in [v] have distinct keys. *)
Fixpoint distinct_along (p : list string) (v : value) : bool :=
  match p, v with
  | k :: p', VDict d =>
      distinct (map fst d)
      && match dict_get k d with
         | Some x => distinct_along p' x
         | None => true
         end
  | _, _ => true
  end.

(** The override does not reach the path [p]: following [p] down the
    dicts of the override, a key is missing before [p] ends. *)
Fixpoint untouched (p : list string) (override : value) : bool :=
  match p, override with
  | k :: p', VDict items =>
      match dict_get k items with
      | None => true
      | Some x => untouched p' x
      end
  | _, _ => false
  end.

Fixpoint mergeable (base override : value) {struct override} : bool :=
  match override with
  | VDict items =>
      match base with
      | VDict d =>
          forallb (fun kv =>
                     match snd kv, dict_get (fst kv) d with
                     | VDict _, Some old => mergeable old (snd kv)
                     | _, _ => true
                     end) items
      | VList _ => match items with [] => true | _ => false end
      | VScalar _ => false
      end
  | _ => false
  end.

End TreeShape.

(** ** Stages of the pipeline and sequences of calls *)

Module Stages.

Section WithWorld.
Context `{CoreTypes}.
Variable w : world.

(** The tree bound to [config] after the first merge in [get_settings]:
    the environment's file merged onto the default file. *)
Definition base_config (env : Environment) : res value :=
  default_config <- load_yaml w "configs/default.yaml" ;;
  env_config <- load_yaml w ("configs/" ++ env_value env ++ ".yaml") ;;
  merge_configs default_config env_config.
End WithWorld.

(** What one scanned file contributes to a loader: the record made from
    its section. *)
Definition loads_as (w : world) {R : Type} (new : dict -> res R)
    (section dir stem : string) (r : R) : Prop :=
  exists data kw,
    load_yaml w (yaml_path dir stem) = inr data
    /\ py_getitem data section = inr (VDict kw)
    /\ new kw = inr r.

(** Calls of [init_settings] made one after the other in one process, each
    in the world of its moment: the results of the calls and the final
    value of the module variable. *)
Fixpoint init_calls `{PyBuiltins} `{CoreTypes}
    (calls : list (world * Environment)) (settings : option Settings)
  : list (res Settings) * option Settings :=
  match calls with
  | [] => ([], settings)
  | (w, env) :: rest =>
      let (r, settings') := init_settings w env settings in
      let (rs, final) := init_calls rest settings' in
      (r :: rs, final)
  end.

End Stages.

(** ** More example worlds *)

Module MoreExamples.
Import Examples.

(** The default file without [app.name]; [MARKETS=stocks,crypto]. *)
Definition missing_name_yaml : value :=
  VDict
    [("app", VDict [("log_level", VStr "INFO")]);
     ("data",
      VDict [("providers",
              VList [VDict [("name", VStr "alpaca");
                            ("endpoint", VStr "https://paper-api.alpaca.markets")]]);
             ("cache", VDict [("redis_url", VStr "redis://localhost:6379/0")])]);
     ("trading",
      VDict [("markets", VList [VStr "stocks"; VStr "crypto"]);
             ("max_position_size", VFloat float_0_1);
             ("risk", VDict [("max_drawdown", VFloat float_0_2);
                             ("var_limit", VFloat float_0_05)])])].

Definition missing_name_world : world :=
  {| files := files_with "configs/default.yaml" (Yaml missing_name_yaml);
     yaml_stems := fun _ => [];
     environ := env_with "MARKETS" "stocks,crypto" |}.


(** One strategy file with its [strategy] section and one rules file with
    its [risk] section. *)
Definition records_world : world :=
  {| files := fun p =>
       if String.eqb p "configs/strategies/momentum.yaml"
       then Yaml (VDict [("strategy", VDict [("window", VInt 20)])])
       else if String.eqb p "configs/rules/limits.yaml"
       then Yaml (VDict [("risk", VDict [("limit", VInt 3)])])
       else NoFile;
     yaml_stems := fun dir =>
       if String.eqb dir "configs/strategies" then ["momentum"]
       else if String.eqb dir "configs/rules" then ["limits"]
       else [];
     environ := fun _ => None |}.

(** A strategy file whose [strategy] section is empty, after one that is
    well formed. *)
Definition null_section_world : world :=
  {| files := fun p =>
       if String.eqb p "configs/strategies/momentum.yaml"
       then Yaml (VDict [("strategy", VDict [("window", VInt 20)])])
       else if String.eqb p "configs/strategies/reversal.yaml"
       then Yaml (VDict [("strategy", VNone)])
       else NoFile;
     yaml_stems := fun dir =>
       if String.eqb dir "configs/strategies" then ["momentum"; "reversal"; "trend"]
       else [];
     environ := fun _ => None |}.

(** One strategy file, [momentum.yaml], whose document is the empty
    list. *)
Definition empty_list_world : world :=
  {| files := files_with "configs/strategies/momentum.yaml" (Yaml (VList []));
     yaml_stems := fun dir =>
       if String.eqb dir "configs/strategies" then ["momentum"] else [];
     environ := fun _ => None |}.

(** [good_world] with more files: a production file that does not parse
    and a stray file in the strategies directory that the scan does not
    list. *)
Definition other_files_world : world :=
  {| files := fun p =>
       if String.eqb p "configs/default.yaml" then Yaml default_yaml
       else if String.eqb p "configs/prod.yaml" then BadYaml "broken"
       else if String.eqb p "configs/strategies/notes.txt" then Yaml (VStr "notes")
       else NoFile;
     yaml_stems := fun _ => [];
     environ := env_with "MARKETS" "stocks,crypto" |}.

End MoreExamples.

(** * Properties *)

Import Examples.

(** ** Association lists *)

Section DictFacts.
Context {V : Type}.
Implicit Types (d : list (string * V)) (k : string) (v : V).

Lemma dict_get_set_eq k v d : dict_get k (dict_set k v d) = Some v.
Proof.
  induction d as [|[k' v'] d IH]; simpl.
  - now rewrite String.eqb_refl.
  - destruct (String.eqb k k') eqn:E; simpl.
    + now rewrite String.eqb_refl.
    + now rewrite E.
Qed.

Lemma dict_get_set_ne k k' v d :
  k <> k' -> dict_get k' (dict_set k v d) = dict_get k' d.
Proof.
  intros Hne. induction d as [|[k0 v0] d IH]; simpl.
  - apply String.eqb_neq in Hne. rewrite String.eqb_sym in Hne. now rewrite Hne.
  - destruct (String.eqb k k0) eqn:E; simpl.
    + apply String.eqb_eq in E. subst k0.
      destruct (String.eqb k' k) eqn:E'; [|reflexivity].
      apply String.eqb_eq in E'. congruence.
    + destruct (String.eqb k' k0); [reflexivity|apply IH].
Qed.

Lemma dict_get_None k d : dict_get k d = None <-> k ∉ map fst d.
Proof.
  induction d as [|[k0 v0] d IH]; simpl.
  - split; [intros _; apply not_elem_of_nil|reflexivity].
  - rewrite not_elem_of_cons. destruct (String.eqb k k0) eqn:E.
    + apply String.eqb_eq in E. subst. split; [discriminate|tauto].
    + apply String.eqb_neq in E. rewrite IH. tauto.
Qed.

Lemma dict_get_elem k v d :
  NoDup (map fst d) -> (k, v) ∈ d -> dict_get k d = Some v.
Proof.
  induction d as [|[k0 v0] d IH]; simpl.
  - intros _ Hin. now apply elem_of_nil in Hin.
  - rewrite NoDup_cons, elem_of_cons. intros [Hk0 Hnd] [Heq|Hin].
    + injection Heq as -> ->. now rewrite String.eqb_refl.
    + destruct (String.eqb k k0) eqn:E; [|now apply IH].
      apply String.eqb_eq in E. subst k0. exfalso. apply Hk0.
      apply list_elem_of_fmap. now exists (k, v).
Qed.

Lemma dict_get_Some_elem k v d : dict_get k d = Some v -> (k, v) ∈ d.
Proof.
  induction d as [|[k0 v0] d IH]; simpl; [discriminate|].
  destruct (String.eqb k k0) eqn:E.
  - apply String.eqb_eq in E. subst k0. intros [= ->]. apply elem_of_cons. now left.
  - intros Hget. apply elem_of_cons. right. now apply IH.
Qed.

Lemma dict_mem_true k d : dict_mem k d = true <-> k ∈ map fst d.
Proof.
  unfold dict_mem. destruct (dict_get k d) eqn:E.
  - split; [intros _|reflexivity].
    apply list_elem_of_fmap. exists (k, v). split; [reflexivity|].
    now apply dict_get_Some_elem.
  - apply dict_get_None in E. split; [discriminate|tauto].
Qed.

Lemma dict_mem_false k d : dict_mem k d = false <-> dict_get k d = None.
Proof. unfold dict_mem. destruct (dict_get k d); split; congruence. Qed.
End DictFacts.

(** ** The merger on trees *)

Lemma merge_configs_dict base items :
  merge_configs base (VDict items) =
  match py_copy base with
  | inl e => inl e
  | inr result => merge_loop merge_configs items result
  end.
Proof. reflexivity. Qed.

Lemma merge_configs_scalar_base s override :
  merge_configs (VScalar s) override = inl (no_attribute (scalar_type_name s) "copy").
Proof. destruct override; reflexivity. Qed.

(** One turn of the loop on a dict [result]. *)
Lemma merge_loop_cons rec key val rest d :
  merge_loop rec ((key, val) :: rest) (VDict d) =
  match val, dict_get key d with
  | VDict _, Some old =>
      match rec old val with
      | inl e => inl e
      | inr merged => merge_loop rec rest (VDict (dict_set key merged d))
      end
  | _, _ => merge_loop rec rest (VDict (dict_set key val d))
  end.
Proof.
  simpl. unfold dict_mem. destruct val as [s|l|d']; try reflexivity.
  destruct (dict_get key d); reflexivity.
Qed.

(** The loop leaves alone the keys the override does not have. *)
Lemma merge_loop_other_keys rec items : forall d r k,
  merge_loop rec items (VDict d) = inr r ->
  k ∉ map fst items ->
  exists d', r = VDict d' /\ dict_get k d' = dict_get k d.
Proof.
  induction items as [|[key val] rest IH]; intros d r k Hrun Hk.
  - simpl in Hrun. injection Hrun as <-. eauto.
  - simpl in Hk. apply not_elem_of_cons in Hk as [Hne Hk].
    rewrite merge_loop_cons in Hrun.
    destruct val as [s|l|d0]; [| |destruct (dict_get key d) as [old|] eqn:Eold];
      try (destruct (rec old (VDict d0)) as [e|merged]; [discriminate|]);
      apply IH with (k := k) in Hrun as (d' & -> & Hget); try assumption;
      exists d'; (split; [reflexivity|]); rewrite Hget;
      apply dict_get_set_ne; congruence.
Qed.

(** What the loop leaves at a key of the override. *)
Lemma merge_loop_override_key rec items : forall d r k v,
  merge_loop rec items (VDict d) = inr r ->
  NoDup (map fst items) ->
  (k, v) ∈ items ->
  exists d', r = VDict d' /\
    match v, dict_get k d with
    | VDict _, Some old => exists merged, rec old v = inr merged /\ dict_get k d' = Some merged
    | _, _ => dict_get k d' = Some v
    end.
Proof.
  induction items as [|[key val] rest IH]; intros d r k v Hrun Hnd Hin.
  - now apply elem_of_nil in Hin.
  - simpl in Hnd. apply NoDup_cons in Hnd as [Hfresh Hnd].
    apply elem_of_cons in Hin as [Heq|Hin].
    + injection Heq as <- <-. rewrite merge_loop_cons in Hrun.
      destruct v as [s|l|d0]; [| |destruct (dict_get k d) as [old|] eqn:Eold];
        try (destruct (rec old (VDict d0)) as [e|merged] eqn:Erec; [discriminate|]);
        apply merge_loop_other_keys with (k := k) in Hrun as (d' & -> & Hget);
        try assumption; exists d'; (split; [reflexivity|]);
        rewrite dict_get_set_eq in Hget; eauto.
    + assert (Hne : key <> k).
      { intros ->. apply Hfresh. apply list_elem_of_fmap. now exists (k, v). }
      rewrite merge_loop_cons in Hrun.
      assert (Hstep : forall x, dict_get k (dict_set key x d) = dict_get k d)
        by (intros x; now apply dict_get_set_ne).
      destruct val as [s|l|d0]; [| |destruct (dict_get key d) as [old|] eqn:Eold];
        try (destruct (rec old (VDict d0)) as [e|merged]; [discriminate|]);
        eapply IH in Hrun as (d' & -> & Hres); try eassumption;
        exists d'; (split; [reflexivity|]); rewrite Hstep in Hres; exact Hres.
Qed.

Lemma merge_loop_list_raises rec item rest l :
  merge_loop rec (item :: rest) (VList l)
  = inl (TypeError "list indices must be integers or slices, not str").
Proof.
  destruct item as [key [s|l'|d]]; simpl; try reflexivity.
  destruct (existsb (is_str key) l); reflexivity.
Qed.

(** A merge that returns on a non-empty override had a dict as base. *)
Lemma merge_configs_base_dict base item rest r :
  merge_configs base (VDict (item :: rest)) = inr r -> exists d, base = VDict d.
Proof.
  rewrite merge_configs_dict. destruct base as [s|l|d]; cbn [py_copy ret raise].
  - discriminate.
  - rewrite merge_loop_list_raises. discriminate.
  - eauto.
Qed.

Lemma merge_configs_other_keys d items r k :
  merge_configs (VDict d) (VDict items) = inr r ->
  k ∉ map fst items ->
  exists d', r = VDict d' /\ dict_get k d' = dict_get k d.
Proof. rewrite merge_configs_dict. apply merge_loop_other_keys. Qed.

Lemma merge_configs_override_key d items r k v :
  merge_configs (VDict d) (VDict items) = inr r ->
  NoDup (map fst items) ->
  (k, v) ∈ items ->
  exists d', r = VDict d' /\
    match v, dict_get k d with
    | VDict _, Some old =>
        exists merged, merge_configs old v = inr merged /\ dict_get k d' = Some merged
    | _, _ => dict_get k d' = Some v
    end.
Proof. rewrite merge_configs_dict. apply merge_loop_override_key. Qed.

Example merge_configs_nested :
  merge_configs
    (VDict [("a", VDict [("x", VInt 1); ("y", VInt 2)]); ("b", VInt 3)])
    (VDict [("a", VDict [("y", VInt 5)]); ("c", VList [])])
  = inr (VDict [("a", VDict [("x", VInt 1); ("y", VInt 5)]); ("b", VInt 3);
                ("c", VList [])]).
Proof. reflexivity. Qed.

(** C1.  The merger recurses as soon as the override's value is a mapping
    and the base has the key, whatever the base holds there.  Where the
    base holds a scalar the recursive call raises [AttributeError] (a
    scalar has no [copy]); where it holds a list the call raises
    [TypeError] at the first assignment, and for an empty override mapping
    it returns the base's list, so that the override's value does not
    replace it.  The input base [{"a": 1}], override [{"a": {"b": 2}}] is
    one on which the merge does not return. *)
Theorem merge_configs_mapping_over_non_mapping :
  (forall k s d items rest,
      merge_configs (VDict ((k, VScalar s) :: d)) (VDict ((k, VDict items) :: rest))
      = inl (no_attribute (scalar_type_name s) "copy"))
  /\ (forall k l d item items rest,
      merge_configs (VDict ((k, VList l) :: d)) (VDict ((k, VDict (item :: items)) :: rest))
      = inl (TypeError "list indices must be integers or slices, not str"))
  /\ (forall k l d,
      merge_configs (VDict ((k, VList l) :: d)) (VDict [(k, VDict [])])
      = inr (VDict ((k, VList l) :: d)))
  /\ merge_configs (VDict [("a", VInt 1)]) (VDict [("a", VDict [("b", VInt 2)])])
     = inl (AttributeError "'int' object has no attribute 'copy'").
Proof.
  repeat split.
  - intros k s d items rest. rewrite merge_configs_dict. cbn [py_copy ret raise].
    rewrite merge_loop_cons. cbn [dict_get]. rewrite String.eqb_refl.
    now rewrite merge_configs_scalar_base.
  - intros k l d item items rest. rewrite merge_configs_dict. cbn [py_copy ret raise].
    rewrite merge_loop_cons. cbn [dict_get]. rewrite String.eqb_refl.
    rewrite merge_configs_dict. cbn [py_copy ret raise].
    now rewrite merge_loop_list_raises.
  - intros k l d. rewrite merge_configs_dict. cbn [py_copy ret raise].
    rewrite merge_loop_cons. cbn [dict_get]. rewrite String.eqb_refl.
    rewrite merge_configs_dict. simpl. now rewrite String.eqb_refl.
Qed.

(** ** Strings *)





Lemma has_char_app c s t : has_char c (s ++ t) = has_char c s || has_char c t.
Proof.
  induction s as [|a s IH]; simpl; [reflexivity|].
  rewrite IH. now rewrite orb_assoc.
Qed.

Lemma contains_has_char s sub c :
  contains s sub -> has_char c sub = true -> has_char c s = true.
Proof.
  intros (pre & post & ->) Hc. rewrite !has_char_app, Hc.
  now rewrite orb_true_r.
Qed.

(** ** The YAML loader *)




(** Other falsy documents are read as the empty tree too. *)
Lemma load_yaml_falsy w file_path doc :
  files w file_path = Yaml doc -> py_truthy doc = false ->
  load_yaml w file_path = inr (VDict []).
Proof. unfold load_yaml. now intros -> ->. Qed.

(** ** The strategy and rules loaders *)

Section LoaderFacts.
Context `{CoreTypes}.
Variable w : world.
Context {R : Type} (new : dict -> res R) (section dir : string).

Lemma load_records_app pre post : forall records,
  load_records w new section dir (pre ++ post)%list records =
  (recs <- load_records w new section dir pre records ;;
   load_records w new section dir post recs).
Proof.
  induction pre as [|stem pre IH]; intros records; simpl; [reflexivity|].
  unfold bind.
  destruct (load_yaml w (yaml_path dir stem)) as [e|data]; [reflexivity|].
  destruct (py_getitem data section) as [e|sec]; [reflexivity|].
  destruct (py_kwargs sec) as [e|kw]; [reflexivity|].
  destruct (new kw) as [e|r]; [reflexivity|].
  apply IH.
Qed.

(** A file that is reached and whose content is a mapping without the
    section stops the scan with [KeyError]. *)
Lemma load_records_missing_section pre stem post records recs d :
  load_records w new section dir pre records = inr recs ->
  load_yaml w (yaml_path dir stem) = inr (VDict d) ->
  dict_get section d = None ->
  load_records w new section dir (pre ++ stem :: post)%list records
  = inl (KeyError section).
Proof.
  intros Hpre Hload Hget. rewrite load_records_app, Hpre. simpl.
  rewrite Hload. simpl. now rewrite Hget.
Qed.

(** A file from which the section cannot be read makes the scan fail,
    wherever it stands in the directory. *)
Lemma load_records_fails stems : forall stem records,
  stem ∈ stems ->
  (forall data, load_yaml w (yaml_path dir stem) = inr data ->
                exists e, py_getitem data section = inl e) ->
  exists e, load_records w new section dir stems records = inl e.
Proof.
  induction stems as [|s stems IH]; intros stem records Hin Hbad.
  - now apply elem_of_nil in Hin.
  - simpl. unfold bind.
    destruct (load_yaml w (yaml_path dir s)) as [e|data] eqn:Hload; [eauto|].
    destruct (py_getitem data section) as [e|sec] eqn:Hsec; [eauto|].
    destruct (py_kwargs sec) as [e|kw]; [eauto|].
    destruct (new kw) as [e|r]; [eauto|].
    apply elem_of_cons in Hin as [->|Hin]; [|eauto].
    destruct (Hbad data Hload) as [e He]. congruence.
Qed.
End LoaderFacts.

(** C7, as amended.  When the scan reaches a strategy file whose loaded
    content is a mapping without a top-level [strategy] key, the loader
    raises [KeyError('strategy')]: the message is the missing key and says
    nothing of the file.  The rules loader does the same with [risk]. *)
Theorem loaders_missing_section `{CoreTypes} (w : world) (dir : string)
    (pre post : list string) (stem : string) (d : dict) :
  yaml_stems w dir = (pre ++ stem :: post)%list ->
  load_yaml w (yaml_path dir stem) = inr (VDict d) ->
  (forall recs,
      load_records w StrategyConfig_new "strategy" dir pre [] = inr recs ->
      dict_get "strategy" d = None ->
      load_strategy_configs w dir = inl (KeyError "strategy")
      /\ exn_message (KeyError "strategy") = "'strategy'")
  /\ (forall recs,
      load_records w RiskPolicy_new "risk" dir pre [] = inr recs ->
      dict_get "risk" d = None ->
      load_rules_configs w dir = inl (KeyError "risk")
      /\ exn_message (KeyError "risk") = "'risk'").
Proof.
  intros Hstems Hload. split; intros recs Hpre Hget; (split; [|reflexivity]).
  - unfold load_strategy_configs. rewrite Hstems.
    eapply load_records_missing_section; eassumption.
  - unfold load_rules_configs. rewrite Hstems.
    eapply load_records_missing_section; eassumption.
Qed.

Lemma loaders_missing_section_witness :
  load_strategy_configs (H := plain_core) missing_section_world "configs/strategies"
  = inl (KeyError "strategy")
  /\ load_rules_configs (H := plain_core) missing_section_world "configs/rules"
     = inl (KeyError "risk").
Proof.
  split.
  - exact (proj1 (proj1 (loaders_missing_section (H := plain_core)
             missing_section_world "configs/strategies" [] [] "momentum"
             [("name", VStr "momentum")] eq_refl eq_refl) [] eq_refl eq_refl)).
  - exact (proj1 (proj2 (loaders_missing_section (H := plain_core)
             missing_section_world "configs/rules" [] [] "limits"
             [("limit", VInt 3)] eq_refl eq_refl) [] eq_refl eq_refl)).
Defined.

(** C7 as stated fails: for [momentum.yaml] without a [strategy] section the
    loader raises [KeyError('strategy')], which is no [ValueError] (the
    class the module uses for its configuration errors) and whose message
    does not name the file. *)
Lemma loaders_missing_section_counterexample :
  let outcome :=
    load_strategy_configs (H := plain_core) missing_section_world "configs/strategies" in
  outcome = inl (KeyError "strategy")
  /\ ~ (exists e, outcome = inl e /\ contains (exn_message e) "momentum")
  /\ ~ (exists msg, outcome = inl (ValueError msg)).
Proof.
  split; [reflexivity|]. split.
  - intros (e & He & Hc). injection He as <-.
    apply contains_has_char with (c := "m"%char) in Hc; [discriminate|reflexivity].
  - intros (msg & He). discriminate.
Qed.

(** ** Loading the module *)

Import Loading.

(** With [DataConfig] defined before [Settings] the module loads and binds
    both entry points. *)
Example reordered_module_loads :
  exists ns, exec_module builtins config_py_reordered = inr ns
             /\ bound ns "get_settings" = true /\ bound ns "init_settings" = true.
Proof. eexists. split; [reflexivity|]. split; reflexivity. Qed.

(** C10.  Executing the module stops at the class statement of [Settings]
    with [NameError: name 'DataConfig' is not defined]: the annotation
    [data: DataConfig] is evaluated before the class [DataConfig] exists.
    So no call of [get_settings] or [init_settings] returns a [Settings],
    whatever the files, the environment and the arguments. *)
Theorem settings_class_needs_DataConfig :
  exec_module builtins config_py = inl (NameError "name 'DataConfig' is not defined")
  /\ (forall (B : PyBuiltins) (C : CoreTypes) (w : world) (env : Environment),
        call_in config_py "get_settings" (get_settings w env)
        = inl (NameError "name 'DataConfig' is not defined"))
  /\ (forall (B : PyBuiltins) (C : CoreTypes) (w : world) (env : Environment)
             (settings : option Settings),
        call_in config_py "init_settings" (fst (init_settings w env settings))
        = inl (NameError "name 'DataConfig' is not defined")).
Proof. repeat split. Qed.

(** ** The settings accessor *)

(** C3.  Once a call of [init_settings] has returned a [Settings], the
    module variable holds it, and the next call returns that same value
    and leaves the variable alone, for any environment argument and any
    state of the files and of the process environment: its result does not
    depend on them, so the pipeline is not run again. *)
Theorem init_settings_cached `{PyBuiltins} `{CoreTypes}
    (w1 w2 : world) (env1 env2 : Environment)
    (before after : option Settings) (s : Settings) :
  init_settings w1 env1 before = (inr s, after) ->
  after = Some s /\ init_settings w2 env2 after = (inr s, after).
Proof.
  unfold init_settings. intros Hfirst.
  assert (Hafter : after = Some s).
  { destruct before as [s0|].
    - now injection Hfirst as <- <-.
    - destruct (get_settings w1 env1) as [e|s0]; [discriminate|].
      now injection Hfirst as <- <-. }
  split; [exact Hafter|]. now rewrite Hafter.
Qed.

Lemma init_settings_cached_witness :
  init_settings (H := plain_builtins) (H0 := plain_core) good_world "dev" None
  = (inr good_settings, Some good_settings)
  /\ init_settings (H := plain_builtins) (H0 := plain_core) bad_yaml_world "prod"
       (Some good_settings)
     = (inr good_settings, Some good_settings).
Proof.
  assert (Hfirst : init_settings (H := plain_builtins) (H0 := plain_core)
                     good_world "dev" None
                   = (inr good_settings, Some good_settings))
    by (vm_compute; reflexivity).
  split; [exact Hfirst|].
  exact (proj2 (init_settings_cached (H := plain_builtins) (H0 := plain_core)
                  good_world bad_yaml_world "dev" "prod" None
                  (Some good_settings) good_settings Hfirst)).
Defined.

(** A failed first call caches nothing: the next call runs the pipeline. *)
Lemma init_settings_after_failure `{PyBuiltins} `{CoreTypes}
    (w1 w2 : world) (env1 env2 : Environment) (e : exn) :
  get_settings w1 env1 = inl e ->
  init_settings w1 env1 None = (inl e, None)
  /\ fst (init_settings w2 env2 None) = get_settings w2 env2.
Proof.
  intros Hfail. unfold init_settings. rewrite Hfail. split; [reflexivity|].
  now destruct (get_settings w2 env2).
Qed.

(** ** The environment override builder *)

Section BuilderFacts.
Context `{PyBuiltins}.
Variable w : world.

Lemma markets_override_set config base_markets s :
  environ w "MARKETS" = Some s ->
  get2 config "trading" "markets" (VList []) = inr base_markets ->
  markets_override w config = inr (VList (map (fun x => VStr x) (split comma s))).
Proof.
  intros Henv Hbase. unfold markets_override, getenv. rewrite Hbase. simpl.
  now rewrite Henv.
Qed.

Lemma markets_override_unset config base_markets :
  environ w "MARKETS" = None ->
  get2 config "trading" "markets" (VList []) = inr base_markets ->
  markets_override w config
  = inr (VList (map (fun x => VStr x) (split comma (py_str base_markets)))).
Proof.
  intros Henv Hbase. unfold markets_override, getenv. rewrite Hbase. simpl.
  now rewrite Henv.
Qed.

Lemma float_override_unparsable var s base b :
  environ w var = Some s -> float_of_str s = None -> base = inr b ->
  float_override w var base
  = inl (ValueError ("could not convert string to float: " ++ py_repr_str s)).
Proof.
  intros Henv Hparse ->. unfold float_override, getenv. simpl.
  rewrite Henv. simpl. now rewrite Hparse.
Qed.

Lemma int_override_unparsable var s base b :
  environ w var = Some s -> int_of_str s = None -> base = inr b ->
  int_override w var base
  = inl (ValueError ("invalid literal for int() with base 10: " ++ py_repr_str s)).
Proof.
  intros Henv Hparse ->. unfold int_override, getenv. simpl.
  rewrite Henv. simpl. now rewrite Hparse.
Qed.

Lemma float_override_fails var s base :
  environ w var = Some s -> float_of_str s = None ->
  exists e, float_override w var base = inl e.
Proof.
  intros Henv Hparse. destruct base as [e|b].
  - exists e. reflexivity.
  - eexists. eapply float_override_unparsable; eauto.
Qed.

Lemma int_override_fails var s base :
  environ w var = Some s -> int_of_str s = None ->
  exists e, int_override w var base = inl e.
Proof.
  intros Henv Hparse. destruct base as [e|b].
  - exists e. reflexivity.
  - eexists. eapply int_override_unparsable; eauto.
Qed.
End BuilderFacts.

(** C2.  With [MARKETS] set, [trading.markets] of the override is the
    variable's value split on commas.  With [MARKETS] unset the builder
    does not take over the base tree's list: it turns the list into its
    text and splits that, so that the base list [["stocks", "crypto"]]
    becomes [["['stocks'", " 'crypto']"]] (and a missing list becomes
    [["[]"]]), which the [markets] validator then rejects. *)
Theorem markets_fallback_is_stringified :
  (forall B : PyBuiltins,
      markets_override (H := B) good_world default_yaml
      = inr (VList [VStr "stocks"; VStr "crypto"]))
  /\ (forall B : PyBuiltins,
      markets_override (H := B) no_env_world default_yaml
      = inr (VList [VStr "['stocks'"; VStr " 'crypto']"]))
  /\ (forall B : PyBuiltins,
      markets_override (H := B) no_env_world (VDict []) = inr (VList [VStr "[]"]))
  /\ get_settings (H := plain_builtins) (H0 := plain_core) no_env_world "dev"
     = inl (ValueError
              ("Configuration validation error: 1 validation error for Settings"
               ++ newline ++ "trading -> markets" ++ newline
               ++ "  Markets must be subset of ['stocks', 'crypto', 'forex', 'commodities'] (type=value_error)")).
Proof.
  split; [|split; [|split]]; try (intros B; reflexivity).
  vm_compute. reflexivity.
Qed.

Lemma mapM_ext {A B} (f g : A -> res B) (l : list A) :
  (forall a, f a = g a) -> mapM f l = mapM g l.
Proof.
  intros Hfg. induction l as [|a l IH]; simpl; [reflexivity|].
  now rewrite Hfg, IH.
Qed.

(** The names the builder reads for a provider end in [_API_KEY] or
    [_SECRET_KEY], so they are none of the numeric variables. *)
Ltac string_mismatch :=
  repeat match goal with
         | Heq : (?u ++ _)%string = _ |- _ =>
             is_var u; destruct u; simpl in Heq;
             [discriminate Heq|first [discriminate Heq|injection Heq as _ Heq]]
         end.

Lemma provider_names_not_numeric (up var : string) :
  str_in var ["MAX_POSITION_SIZE"; "MAX_DRAWDOWN"; "VAR_LIMIT"; "MAX_LATENCY_MS"] = true ->
  up ++ "_API_KEY" <> var /\ up ++ "_SECRET_KEY" <> var.
Proof.
  unfold str_in. simpl. rewrite !orb_true_iff, !String.eqb_eq.
  intros [->|[->|[->|[->|Hf]]]]; [..|discriminate Hf];
    split; intros Heq; string_mismatch.
Qed.

Section BuilderAgreement.
Context `{PyBuiltins}.
Variables (w w0 : world) (var : string).
Hypothesis agree : forall n, n <> var -> environ w n = environ w0 n.

Lemma getenv_agree n default : n <> var -> getenv w n default = getenv w0 n default.
Proof. intros Hn. unfold getenv. now rewrite agree. Qed.

Lemma app_overrides_agree config :
  "APP_NAME" <> var -> "LOG_LEVEL" <> var ->
  app_overrides w config = app_overrides w0 config.
Proof.
  intros H1 H2. unfold app_overrides, bind.
  destruct (get2 config "app" "name" VNone); [reflexivity|].
  destruct (get2 config "app" "log_level" VNone); [reflexivity|].
  now rewrite !getenv_agree.
Qed.

Lemma provider_override_agree provider :
  (forall up, up ++ "_API_KEY" <> var) -> (forall up, up ++ "_SECRET_KEY" <> var) ->
  provider_override w provider = provider_override w0 provider.
Proof.
  intros H1 H2. unfold provider_override, bind.
  destruct (py_mapping provider); [reflexivity|].
  destruct (py_getitem provider "name"); [reflexivity|].
  destruct (py_upper v); [reflexivity|].
  destruct (py_get provider "api_key" VNone); [reflexivity|].
  destruct (py_get provider "secret_key" VNone); [reflexivity|].
  now rewrite !getenv_agree.
Qed.

Lemma data_overrides_agree config :
  (forall up, up ++ "_API_KEY" <> var) -> (forall up, up ++ "_SECRET_KEY" <> var) ->
  "REDIS_URL" <> var ->
  data_overrides w config = data_overrides w0 config.
Proof.
  intros H1 H2 H3. unfold data_overrides, bind.
  destruct (get2 config "data" "providers" (VList [])); [reflexivity|].
  destruct (py_iter v) as [e|provider_list]; [reflexivity|].
  rewrite (mapM_ext (provider_override w) (provider_override w0))
    by (intros p; now apply provider_override_agree).
  destruct (mapM (provider_override w0) provider_list); [reflexivity|].
  destruct (get3 config "data" "cache" "redis_url" VNone); [reflexivity|].
  now rewrite getenv_agree.
Qed.

Lemma markets_override_agree config :
  "MARKETS" <> var -> markets_override w config = markets_override w0 config.
Proof.
  intros H1. unfold markets_override, bind.
  destruct (get2 config "trading" "markets" (VList [])); [reflexivity|].
  now rewrite getenv_agree.
Qed.

Lemma float_override_agree n base :
  n <> var -> float_override w n base = float_override w0 n base.
Proof.
  intros H1. unfold float_override, bind. destruct base; [reflexivity|].
  now rewrite getenv_agree.
Qed.

Lemma int_override_agree n base :
  n <> var -> int_override w n base = int_override w0 n base.
Proof.
  intros H1. unfold int_override, bind. destruct base; [reflexivity|].
  now rewrite getenv_agree.
Qed.
End BuilderAgreement.

Lemma float_override_base `{PyBuiltins} w n base v :
  float_override w n base = inr v -> exists b, base = inr b.
Proof. destruct base as [e|b]; [discriminate|eauto]. Qed.

Lemma int_override_base `{PyBuiltins} w n base v :
  int_override w n base = inr v -> exists b, base = inr b.
Proof. destruct base as [e|b]; [discriminate|eauto]. Qed.

Section Unparsable.
Context `{PyBuiltins}.
Variables (w : world) (var s : string).
Hypothesis Henv : environ w var = Some s.
Hypothesis Hbad : parses_as_target var s = Some false.

Lemma unparsable_cases :
  (str_in var ["MAX_POSITION_SIZE"; "MAX_DRAWDOWN"; "VAR_LIMIT"] = true
   /\ float_of_str s = None)
  \/ (var = "MAX_LATENCY_MS" /\ int_of_str s = None).
Proof.
  unfold parses_as_target in Hbad.
  destruct (str_in var _) eqn:Hin.
  - left. split; [reflexivity|]. destruct (float_of_str s); [discriminate|reflexivity].
  - destruct (String.eqb var "MAX_LATENCY_MS") eqn:Heq; [|discriminate].
    right. apply String.eqb_eq in Heq. split; [exact Heq|].
    destruct (int_of_str s); [discriminate|reflexivity].
Qed.

Lemma unparsable_numeric :
  str_in var ["MAX_POSITION_SIZE"; "MAX_DRAWDOWN"; "VAR_LIMIT"; "MAX_LATENCY_MS"] = true.
Proof.
  destruct unparsable_cases as [[Hin _]|[-> _]]; [|reflexivity].
  unfold str_in in *. simpl in *. rewrite !orb_true_iff in *. tauto.
Qed.

(** Whatever the base tree, the builder raises. *)
Lemma env_overrides_fails config : exists e, env_overrides w config = inl e.
Proof.
  unfold env_overrides, trading_overrides, risk_overrides, bind.
  destruct (app_overrides w config) as [e|a]; [eauto|].
  destruct (data_overrides w config) as [e|d]; [eauto|].
  destruct (markets_override w config) as [e|m]; [eauto|].
  destruct unparsable_cases as [[Hin Hparse]|[-> Hparse]].
  - unfold str_in in Hin. simpl in Hin.
    rewrite !orb_true_iff, !String.eqb_eq in Hin.
    destruct Hin as [->|[->|[->|Hf]]]; [| | |discriminate].
    + destruct (float_override_fails w _ s
                  (get2 config "trading" "max_position_size" (VFloat float_0_1))
                  Henv Hparse) as [e ->]. eauto.
    + destruct (float_override w "MAX_POSITION_SIZE" _) as [e|sz]; [eauto|].
      destruct (float_override_fails w _ s
                  (get3 config "trading" "risk" "max_drawdown" (VFloat float_0_2))
                  Henv Hparse) as [e ->]. eauto.
    + destruct (float_override w "MAX_POSITION_SIZE" _) as [e|sz]; [eauto|].
      destruct (float_override w "MAX_DRAWDOWN" _) as [e|dd]; [eauto|].
      destruct (float_override_fails w _ s
                  (get3 config "trading" "risk" "var_limit" (VFloat float_0_05))
                  Henv Hparse) as [e ->]. eauto.
  - destruct (float_override w "MAX_POSITION_SIZE" _) as [e|sz]; [eauto|].
    destruct (float_override w "MAX_DRAWDOWN" _) as [e|dd]; [eauto|].
    destruct (float_override w "VAR_LIMIT" _) as [e|vl]; [eauto|].
    destruct (int_override_fails w _ s
                (get3 config "trading" "risk" "max_latency_ms" (VInt 1000))
                Henv Hparse) as [e ->]. eauto.
Qed.

Lemma get_settings_fails `{CoreTypes} env : exists e, get_settings w env = inl e.
Proof.
  unfold get_settings, bind.
  destruct (load_yaml w _) as [e|default_config]; [eauto|].
  destruct (load_yaml w _) as [e|env_config]; [eauto|].
  destruct (merge_configs default_config env_config) as [e|config]; [eauto|].
  destruct (env_overrides_fails config) as [e ->]. eauto.
Qed.
End Unparsable.

Section ConversionError.
Context `{PyBuiltins}.
Variables (w w0 : world) (var s : string).
Hypothesis Henv : environ w var = Some s.
Hypothesis Hbad : parses_as_target var s = Some false.
Hypothesis agree : forall n, n <> var -> environ w n = environ w0 n.

(** On a base tree for which the builder returns once the variable is
    changed, the builder raises the conversion's [ValueError]. *)
Lemma env_overrides_conversion_error config ovr :
  env_overrides w0 config = inr ovr ->
  env_overrides w config = inl (conversion_error var s).
Proof.
  intros Hok.
  assert (Hnum : str_in var ["MAX_POSITION_SIZE"; "MAX_DRAWDOWN"; "VAR_LIMIT";
                             "MAX_LATENCY_MS"] = true)
    by (eapply unparsable_numeric; eassumption).
  assert (Hapi : forall up, up ++ "_API_KEY" <> var)
    by (intros up; apply (provider_names_not_numeric up var Hnum)).
  assert (Hsecret : forall up, up ++ "_SECRET_KEY" <> var)
    by (intros up; apply (provider_names_not_numeric up var Hnum)).
  unfold env_overrides, trading_overrides, risk_overrides in *.
  destruct (unparsable_cases var s Hbad) as [[Hin Hparse]|[Hvar Hparse]].
  - unfold str_in in Hin. simpl in Hin.
    rewrite !orb_true_iff, !String.eqb_eq in Hin.
    destruct Hin as [Hvar|[Hvar|[Hvar|Hf]]]; [| | |discriminate]; subst var;
      rewrite (app_overrides_agree w w0 _ agree) by discriminate;
      rewrite (data_overrides_agree w w0 _ agree) by (assumption || discriminate);
      rewrite (markets_override_agree w w0 _ agree) by discriminate;
      rewrite ?(float_override_agree w w0 _ agree "MAX_POSITION_SIZE") by discriminate;
      rewrite ?(float_override_agree w w0 _ agree "MAX_DRAWDOWN") by discriminate;
      unfold bind in *;
      destruct (app_overrides w0 config); [discriminate| |discriminate| |discriminate|];
      destruct (data_overrides w0 config); [discriminate| |discriminate| |discriminate|];
      destruct (markets_override w0 config); [discriminate| |discriminate| |discriminate|].
    + destruct (float_override w0 "MAX_POSITION_SIZE" _) as [e|sz] eqn:Hstep;
        [discriminate|].
      apply float_override_base in Hstep as [b Hb].
      now rewrite (float_override_unparsable w _ s _ b Henv Hparse Hb).
    + destruct (float_override w0 "MAX_POSITION_SIZE" _) as [e|sz]; [discriminate|].
      destruct (float_override w0 "MAX_DRAWDOWN" _) as [e|dd] eqn:Hstep;
        [discriminate|].
      apply float_override_base in Hstep as [b Hb].
      now rewrite (float_override_unparsable w _ s _ b Henv Hparse Hb).
    + destruct (float_override w0 "MAX_POSITION_SIZE" _) as [e|sz]; [discriminate|].
      destruct (float_override w0 "MAX_DRAWDOWN" _) as [e|dd]; [discriminate|].
      destruct (float_override w0 "VAR_LIMIT" _) as [e|vl] eqn:Hstep;
        [discriminate|].
      apply float_override_base in Hstep as [b Hb].
      now rewrite (float_override_unparsable w _ s _ b Henv Hparse Hb).
  - subst var.
    rewrite (app_overrides_agree w w0 _ agree) by discriminate.
    rewrite (data_overrides_agree w w0 _ agree) by (assumption || discriminate).
    rewrite (markets_override_agree w w0 _ agree) by discriminate.
    rewrite (float_override_agree w w0 _ agree "MAX_POSITION_SIZE") by discriminate.
    rewrite (float_override_agree w w0 _ agree "MAX_DRAWDOWN") by discriminate.
    rewrite (float_override_agree w w0 _ agree "VAR_LIMIT") by discriminate.
    unfold bind in *.
    destruct (app_overrides w0 config); [discriminate|].
    destruct (data_overrides w0 config); [discriminate|].
    destruct (markets_override w0 config); [discriminate|].
    destruct (float_override w0 "MAX_POSITION_SIZE" _) as [e|sz]; [discriminate|].
    destruct (float_override w0 "MAX_DRAWDOWN" _) as [e|dd]; [discriminate|].
    destruct (float_override w0 "VAR_LIMIT" _) as [e|vl]; [discriminate|].
    destruct (int_override w0 "MAX_LATENCY_MS" _) as [e|lat] eqn:Hstep;
      [discriminate|].
    apply int_override_base in Hstep as [b Hb].
    now rewrite (int_override_unparsable w _ s _ b Henv Hparse Hb).
Qed.
End ConversionError.

Section EvaluationOrder.
Context `{PyBuiltins}.
Variables (w : world) (var s : string).
Hypothesis Henv : environ w var = Some s.
Hypothesis Hbad : parses_as_target var s = Some false.

(** The builder evaluates what stands before the conversion and then
    raises the conversion's error: what is written after it is not
    reached. *)
Lemma env_overrides_order config :
  env_overrides w config
  = (done <- entries_before w var config ;; raise (conversion_error var s)).
Proof.
  unfold env_overrides, entries_before, trading_overrides, risk_overrides, bind.
  destruct (app_overrides w config) as [e|a]; [reflexivity|].
  destruct (data_overrides w config) as [e|d]; [reflexivity|].
  destruct (markets_override w config) as [e|m]; [reflexivity|].
  destruct (unparsable_cases var s Hbad) as [[Hin Hparse]|[Hvar Hparse]].
  - unfold str_in in Hin. simpl in Hin.
    rewrite !orb_true_iff, !String.eqb_eq in Hin.
    destruct Hin as [Hvar|[Hvar|[Hvar|Hf]]]; [| | |discriminate]; subst var;
      unfold conversion_error; simpl String.eqb; cbv iota.
    + destruct (get2 config "trading" "max_position_size" _) as [e|b]; [reflexivity|].
      now rewrite (float_override_unparsable w _ s _ b Henv Hparse eq_refl).
    + destruct (float_override w "MAX_POSITION_SIZE" _) as [e|sz]; [reflexivity|].
      destruct (get3 config "trading" "risk" "max_drawdown" _) as [e|b]; [reflexivity|].
      now rewrite (float_override_unparsable w _ s _ b Henv Hparse eq_refl).
    + destruct (float_override w "MAX_POSITION_SIZE" _) as [e|sz]; [reflexivity|].
      destruct (float_override w "MAX_DRAWDOWN" _) as [e|dd]; [reflexivity|].
      destruct (get3 config "trading" "risk" "var_limit" _) as [e|b]; [reflexivity|].
      now rewrite (float_override_unparsable w _ s _ b Henv Hparse eq_refl).
  - subst var. unfold conversion_error; simpl String.eqb; cbv iota.
    destruct (float_override w "MAX_POSITION_SIZE" _) as [e|sz]; [reflexivity|].
    destruct (float_override w "MAX_DRAWDOWN" _) as [e|dd]; [reflexivity|].
    destruct (float_override w "VAR_LIMIT" _) as [e|vl]; [reflexivity|].
    destruct (get3 config "trading" "risk" "max_latency_ms" _) as [e|b]; [reflexivity|].
    now rewrite (int_override_unparsable w _ s _ b Henv Hparse eq_refl).
Qed.
End EvaluationOrder.

(** C8, as amended.  When one of [MAX_POSITION_SIZE], [MAX_DRAWDOWN],
    [VAR_LIMIT] and [MAX_LATENCY_MS] holds a string that [float] (for the
    first three) or [int] (for the last) does not read, the builder raises
    on every base tree and [get_settings] raises with it, the builder's
    exception unchanged.  Which exception it is follows the order in which
    the dict literal is evaluated: when an entry that stands before the
    conversion raises ([entries_before]), the builder raises that
    exception; when none does, it raises the conversion's own
    [ValueError], "could not convert string to float: ..." or "invalid
    literal for int() with base 10: ..." (the specification's
    [ConfigTypeError]).  The latter is the case whenever the builder
    returns once that one variable is changed. *)
Theorem env_overrides_unparsable_number `{PyBuiltins} `{CoreTypes}
    (w : world) (var s : string) :
  environ w var = Some s ->
  parses_as_target var s = Some false ->
  (forall config, exists e, env_overrides w config = inl e)
  /\ (forall env, exists e, get_settings w env = inl e)
  /\ (forall env config,
        Stages.base_config w env = inr config ->
        exists e, env_overrides w config = inl e /\ get_settings w env = inl e)
  /\ (forall config,
        entries_before w var config = inr tt ->
        env_overrides w config = inl (conversion_error var s))
  /\ (forall config e,
        entries_before w var config = inl e -> env_overrides w config = inl e)
  /\ (exists msg, conversion_error var s = ValueError msg)
  /\ (forall w0 config ovr,
        (forall n, n <> var -> environ w n = environ w0 n) ->
        env_overrides w0 config = inr ovr ->
        env_overrides w config = inl (conversion_error var s)).
Proof.
  intros Henv Hbad. split; [|split; [|split; [|split; [|split; [|split]]]]].
  - intros config. now apply env_overrides_fails with (var := var) (s := s).
  - intros env. now apply get_settings_fails with (var := var) (s := s).
  - intros env config Hbase.
    destruct (env_overrides_fails w var s Henv Hbad config) as [e He].
    exists e. split; [exact He|].
    unfold get_settings. unfold Stages.base_config in Hbase. unfold bind in *.
    destruct (load_yaml w _) as [e1|default_config]; [discriminate|].
    destruct (load_yaml w _) as [e2|env_config]; [discriminate|].
    now rewrite Hbase, He.
  - intros config Hbefore.
    now rewrite (env_overrides_order w var s Henv Hbad), Hbefore.
  - intros config e Hbefore.
    now rewrite (env_overrides_order w var s Henv Hbad), Hbefore.
  - unfold conversion_error. destruct (String.eqb var "MAX_LATENCY_MS"); eauto.
  - intros w0 config ovr Hagree Hok.
    now apply env_overrides_conversion_error with (w0 := w0) (ovr := ovr).
Qed.

Lemma env_overrides_unparsable_number_witness :
  env_overrides (H := plain_builtins) bad_number_world default_yaml
  = inl (ValueError "could not convert string to float: 'abc'")
  /\ env_overrides (H := plain_builtins) two_bad_numbers_world default_yaml
     = inl (ValueError "could not convert string to float: 'big'")
  /\ get_settings (H := plain_builtins) (H0 := plain_core) nameless_provider_world "dev"
     = inl (KeyError "name").
Proof.
  split; [|split].
  - destruct (env_overrides_unparsable_number (H := plain_builtins) (H0 := plain_core)
                bad_number_world "MAX_DRAWDOWN" "abc" eq_refl eq_refl)
      as (_ & _ & _ & Hconv & _).
    exact (Hconv default_yaml eq_refl).
  - destruct (env_overrides_unparsable_number (H := plain_builtins) (H0 := plain_core)
                two_bad_numbers_world "MAX_DRAWDOWN" "abc" eq_refl eq_refl)
      as (_ & _ & _ & _ & Hfirst & _).
    exact (Hfirst default_yaml _ eq_refl).
  - destruct (env_overrides_unparsable_number (H := plain_builtins) (H0 := plain_core)
                nameless_provider_world "MAX_DRAWDOWN" "abc" eq_refl eq_refl)
      as (_ & _ & Hget & _ & Hfirst & _).
    destruct (Hget "dev" nameless_provider_yaml eq_refl) as (e & He & Hrun).
    rewrite (Hfirst nameless_provider_yaml (KeyError "name") eq_refl) in He.
    injection He as <-. exact Hrun.
Defined.

(** C8 as stated fails.  With [MAX_DRAWDOWN=abc] and a provider mapping
    without [name] in the default file, the builder raises
    [KeyError('name')] while it evaluates the [data] entry, before it
    comes to the numbers, and [get_settings] raises it: no conversion
    error is raised. *)
Lemma env_overrides_unparsable_number_counterexample :
  environ nameless_provider_world "MAX_DRAWDOWN" = Some "abc"
  /\ parses_as_target (H := plain_builtins) "MAX_DRAWDOWN" "abc" = Some false
  /\ env_overrides (H := plain_builtins) nameless_provider_world nameless_provider_yaml
     = inl (KeyError "name")
  /\ get_settings (H := plain_builtins) (H0 := plain_core) nameless_provider_world "dev"
     = inl (KeyError "name")
  /\ ~ (exists msg,
          env_overrides (H := plain_builtins) nameless_provider_world
            nameless_provider_yaml = inl (ValueError msg)).
Proof.
  split; [reflexivity|]. split; [reflexivity|]. split; [reflexivity|].
  split; [reflexivity|]. intros [msg Hmsg]. discriminate Hmsg.
Qed.

(** ** The schema: which validations never raise *)











Section SchemaReturns.
Context `{PyBuiltins}.




Lemma unit_fraction_float f : unit_fraction (VFloat f) = gt0_le1 f.
Proof. reflexivity. Qed.










End SchemaReturns.

(** ** Extra keys *)






Lemma vmap_errors {A B} (f : A -> B) (v : vres A) errs :
  v = inr (inl errs) -> vmap f v = inr (inl errs).
Proof. now intros ->. Qed.

(** ** The merged tree that reaches [Settings] *)









Example settings_extra_key_example :
  Settings_new (H := plain_builtins) (H0 := plain_core) extra_key_merged [] []
  = inl (ValidationError "Settings" [extra_error "foo"]).
Proof. vm_compute. reflexivity. Qed.

(** ** The range check on fractions *)

Local Open Scope Z_scope.

Lemma digits2_pos_bounds m :
  2 ^ (Zpos (digits2_pos m) - 1) <= Zpos m < 2 ^ Zpos (digits2_pos m).
Proof.
  induction m as [p IH|p IH|]; simpl digits2_pos.
  - rewrite Pos2Z.inj_succ.
    replace (Z.succ (Zpos (digits2_pos p)) - 1) with (Z.succ (Zpos (digits2_pos p) - 1)) by lia.
    rewrite !Z.pow_succ_r by lia. lia.
  - rewrite Pos2Z.inj_succ.
    replace (Z.succ (Zpos (digits2_pos p)) - 1) with (Z.succ (Zpos (digits2_pos p) - 1)) by lia.
    rewrite !Z.pow_succ_r by lia. lia.
  - simpl. lia.
Qed.

Lemma pow2_le a b : 0 <= a <= b -> 2 ^ a <= 2 ^ b.
Proof. intros Hab. apply Z.pow_le_mono_r; lia. Qed.

(** What being canonical says of a positive finite number. *)
Lemma binary64_mantissa m e :
  is_binary64 (S754_finite false m e) ->
  Zpos m < 2 ^ 53 /\ (-1074 < e -> 2 ^ 52 <= Zpos m).
Proof.
  unfold is_binary64, valid_binary, bounded, canonical_mantissa, fexp, emin.
  rewrite andb_true_iff, Z.eqb_eq. intros [Hcan _].
  pose proof (digits2_pos_bounds m) as [Hlo Hhi].
  set (d := Zpos (digits2_pos m)) in *.
  assert (Hd : 0 < d) by (unfold d; lia).
  split.
  - assert (d <= 53) by lia.
    apply Z.lt_le_trans with (2 ^ d); [exact Hhi|]. apply pow2_le. lia.
  - intros He. assert (d = 53) by lia.
    replace 52 with (d - 1) by lia. exact Hlo.
Qed.

Lemma mantissa_2_52_value : Zpos mantissa_2_52 = 2 ^ 52.
Proof. vm_compute. reflexivity. Qed.

Lemma SFleb_float_one m e :
  SFleb (S754_finite false m e) float_one =
  match Z.compare e (-52) with
  | Lt => true
  | Gt => false
  | Eq => match Pos.compare m mantissa_2_52 with Gt => false | _ => true end
  end.
Proof.
  unfold SFleb, float_one. cbn [SFcompare].
  destruct (Z.compare e (-52)); [|reflexivity..].
  rewrite Pos.compare_cont_spec. now destruct (Pos.compare m mantissa_2_52).
Qed.

Lemma gt0_le1_spec f :
  is_binary64 f ->
  (in_unit_interval f -> gt0_le1 f = vok f)
  /\ (~ in_unit_interval f -> exists errs, gt0_le1 f = inr (inl errs)).
Proof.
  intros Hvalid. unfold gt0_le1.
  destruct f as [s|s| |s m e].
  - split; [intros []|intros _; unfold verr; eauto].
  - split; [intros []|intros _; destruct s; unfold verr; eauto].
  - split; [intros []|intros _; unfold verr; eauto].
  - destruct s; [split; [intros []|intros _; unfold verr; eauto]|].
    destruct (binary64_mantissa m e Hvalid) as [Hhi Hlo].
    change (SFltb float_zero (S754_finite false m e)) with true. cbn [negb].
    rewrite SFleb_float_one. unfold in_unit_interval.
    pose proof mantissa_2_52_value as HM.
    destruct (Z.compare_spec e (-52)) as [->|Hlt|Hgt].
    + change (Z.max (-52) 0) with 0. change (Z.max (- -52) 0) with 52.
      rewrite Z.pow_0_r, Z.mul_1_r.
      destruct (Pos.compare_spec m mantissa_2_52) as [Heq|Hl|Hg]; cbn [negb].
      * split; [reflexivity|]. intros Hn. exfalso. apply Hn. subst m.
        rewrite HM. apply Z.le_refl.
      * split; [reflexivity|]. intros Hn. exfalso. apply Hn.
        apply Pos2Z.pos_lt_pos in Hl. rewrite HM in Hl. apply Z.lt_le_incl, Hl.
      * split; [|intros _; unfold verr; eauto]. intros Hle. exfalso.
        apply Pos2Z.pos_lt_pos in Hg. rewrite HM in Hg.
        exact (Z.lt_irrefl _ (Z.lt_le_trans _ _ _ Hg Hle)).
    + cbn [negb]. split; [reflexivity|]. intros Hn. exfalso. apply Hn.
      rewrite Z.max_r by lia. rewrite Z.max_l by lia. rewrite Z.pow_0_r, Z.mul_1_r.
      apply Z.le_trans with (2 ^ 53); [lia|]. apply pow2_le. lia.
    + cbn [negb]. split; [|intros _; unfold verr; eauto].
      intros Hle. exfalso.
      assert (H52 : 2 ^ 52 <= Zpos m) by (apply Hlo; lia).
      destruct (Z.le_gt_cases 0 e) as [Hpos|Hneg].
      * rewrite Z.max_l in Hle by lia. rewrite Z.max_r in Hle by lia.
        rewrite Z.pow_0_r in Hle.
        assert (H1 : 1 <= 2 ^ e) by (apply (pow2_le 0 e); lia).
        assert (H2 : Zpos m * 1 <= Zpos m * 2 ^ e) by (apply Z.mul_le_mono_nonneg_l; lia).
        lia.
      * rewrite Z.max_r in Hle by lia. rewrite Z.max_l in Hle by lia.
        rewrite Z.pow_0_r, Z.mul_1_r in Hle.
        assert (2 ^ (- e) <= 2 ^ 51) by (apply pow2_le; lia). lia.
Qed.

Lemma gt0_le1_accepts f : is_binary64 f -> gt0_le1 f = vok f <-> in_unit_interval f.
Proof.
  intros Hvalid. destruct (gt0_le1_spec f Hvalid) as [Hyes Hno]. split; [|exact Hyes].
  intros Hok.
  assert (Hdec : in_unit_interval f \/ ~ in_unit_interval f).
  { unfold in_unit_interval. destruct f as [| | |[] m e]; try tauto.
    destruct (Z.le_gt_cases (Zpos m * 2 ^ Z.max e 0) (2 ^ Z.max (- e) 0)); [tauto|].
    right. lia. }
  destruct Hdec as [Hin|Hout]; [exact Hin|].
  destruct (Hno Hout) as [errs He]. rewrite He in Hok. discriminate.
Qed.

Lemma in_unit_interval_dec f : in_unit_interval f \/ ~ in_unit_interval f.
Proof.
  unfold in_unit_interval. destruct f as [| | |[] m e]; try tauto.
  destruct (Z.le_gt_cases (Zpos m * 2 ^ Z.max e 0) (2 ^ Z.max (- e) 0)); [tauto|].
  right. lia.
Qed.

(** The check either accepts the number as it is or reports an error. *)
Lemma gt0_le1_cases f :
  is_binary64 f ->
  (in_unit_interval f /\ gt0_le1 f = vok f)
  \/ (~ in_unit_interval f /\ exists errs, gt0_le1 f = inr (inl errs)).
Proof.
  intros Hvalid. destruct (gt0_le1_spec f Hvalid) as [Hyes Hno].
  destruct (in_unit_interval_dec f) as [Hin|Hout]; [left|right]; auto.
Qed.

Local Close Scope Z_scope.

(** *** Reading an accepted model backwards *)

Lemma vmap_inv {A B} (f : A -> B) (v : vres A) b :
  vmap f v = vok b -> exists a, v = vok a /\ b = f a.
Proof.
  destruct v as [e|[errs|a]]; simpl; try discriminate.
  intros [= <-]. eauto.
Qed.

Lemma both_inv {A B} (va : vres A) (vb : vres B) a b :
  both va vb = vok (a, b) -> va = vok a /\ vb = vok b.
Proof.
  destruct va as [e|[ea|a']]; simpl; try discriminate;
    destruct vb as [e|[eb|b']]; simpl; try discriminate.
  now intros [= <- <-].
Qed.

Lemma at_loc_inv {A} name (v : vres A) a : at_loc name v = vok a -> v = vok a.
Proof. destruct v as [e|[errs|a']]; simpl; try discriminate. auto. Qed.

Lemma and_then_inv {A B} (v : vres A) (f : A -> vres B) b :
  and_then v f = vok b -> exists a, v = vok a /\ f a = vok b.
Proof. destruct v as [e|[errs|a]]; simpl; try discriminate. eauto. Qed.

Lemma required_inv {A} name (f : value -> vres A) kw a :
  required name f kw = vok a -> exists v, dict_get name kw = Some v /\ f v = vok a.
Proof.
  unfold required. intros Hok. apply at_loc_inv in Hok.
  destruct (dict_get name kw) as [v|]; [|discriminate].
  exists v. split; [reflexivity|].
  destruct v as [[| | | |]| |]; try exact Hok. discriminate.
Qed.

Lemma gt0_le1_inv f g : gt0_le1 f = vok g -> g = f /\ gt0_le1 g = vok g.
Proof.
  intros Hok. assert (g = f).
  { unfold gt0_le1 in Hok. destruct (negb _); [discriminate|].
    destruct (negb _); [discriminate|]. now injection Hok. }
  subst g. auto.
Qed.

Lemma model_validator_inv {A} (validate : dict -> vres A) v a :
  model_validator validate v = vok a ->
  exists kw, py_dict_of v = Some kw /\ validate kw = vok a.
Proof.
  unfold model_validator. destruct (py_dict_of v) as [kw|]; [eauto|discriminate].
Qed.

Lemma required_found {A} name (f : value -> vres A) kw v a :
  dict_get name kw = Some v -> v <> VNone -> f v = vok a ->
  required name f kw = vok a.
Proof.
  intros Hget Hv Hf. unfold required. rewrite Hget.
  destruct v as [[| | | |]| |]; try (now rewrite Hf). congruence.
Qed.

Section Fractions.
Context `{PyBuiltins}.

Lemma unit_fraction_inv v f : unit_fraction v = vok f -> gt0_le1 f = vok f.
Proof.
  unfold unit_fraction. intros Hok.
  apply and_then_inv in Hok as (g & _ & Hg). now apply gt0_le1_inv in Hg.
Qed.

(** What an accepted model says of the mapping it was made from. *)
Lemma RiskConfig_validate_inv kw r :
  RiskConfig_validate kw = vok r ->
  (exists v, dict_get "max_drawdown" kw = Some v
             /\ unit_fraction v = vok (max_drawdown r))
  /\ (exists v, dict_get "var_limit" kw = Some v
                /\ unit_fraction v = vok (var_limit r)).
Proof.
  unfold RiskConfig_validate. intros Hok.
  apply vmap_inv in Hok as ([d [v l]] & Hboth & ->).
  apply both_inv in Hboth as [Hd Hrest]. apply both_inv in Hrest as [Hv _].
  apply required_inv in Hd. apply required_inv in Hv. auto.
Qed.

Lemma TradingConfig_validate_inv kw t :
  TradingConfig_validate kw = vok t ->
  (exists v, dict_get "max_position_size" kw = Some v
             /\ unit_fraction v = vok (max_position_size t))
  /\ (exists v rk, dict_get "risk" kw = Some v /\ py_dict_of v = Some rk
                   /\ RiskConfig_validate rk = vok (risk t)).
Proof.
  unfold TradingConfig_validate. intros Hok.
  apply vmap_inv in Hok as ([m [p r]] & Hboth & ->).
  apply both_inv in Hboth as [_ Hrest]. apply both_inv in Hrest as [Hp Hr].
  apply required_inv in Hp. apply required_inv in Hr as (v & Hget & Hr).
  apply model_validator_inv in Hr as (rk & Hdict & Hr).
  split; [exact Hp|]. exists v, rk. auto.
Qed.

Lemma Settings_new_inv `{CoreTypes} config strats rls S :
  Settings_new config strats rls = inr S ->
  exists v kw, dict_get "trading" config = Some v /\ py_dict_of v = Some kw
               /\ TradingConfig_validate kw = vok (trading S).
Proof.
  unfold Settings_new, construct. intros Hok.
  destruct (Settings_validate config strats rls) as [e|[errs|S']] eqn:Hval;
    try discriminate.
  injection Hok as ->. unfold Settings_validate in Hval.
  apply vmap_inv in Hval as ([a [d [t u]]] & Hboth & ->).
  apply both_inv in Hboth as [_ Hrest]. apply both_inv in Hrest as [_ Hrest].
  apply both_inv in Hrest as [Ht _].
  apply required_inv in Ht as (v & Hget & Ht).
  apply model_validator_inv in Ht as (kw & Hdict & Ht).
  exists v, kw. auto.
Qed.

(** The fractions of an accepted [Settings] passed the range check. *)
Lemma Settings_new_checked `{CoreTypes} config strats rls S :
  Settings_new config strats rls = inr S ->
  gt0_le1 (max_drawdown (risk (trading S))) = vok (max_drawdown (risk (trading S)))
  /\ gt0_le1 (var_limit (risk (trading S))) = vok (var_limit (risk (trading S)))
  /\ gt0_le1 (max_position_size (trading S)) = vok (max_position_size (trading S)).
Proof.
  intros Hok. apply Settings_new_inv in Hok as (v & kw & _ & _ & Ht).
  apply TradingConfig_validate_inv in Ht as [(x & _ & Hp) (y & rk & _ & _ & Hr)].
  apply RiskConfig_validate_inv in Hr as [(d & _ & Hd) (l & _ & Hl)].
  repeat split; eapply unit_fraction_inv; eassumption.
Qed.
End Fractions.

Section FractionsTemplate.
Context `{PyBuiltins} `{CoreTypes}.

Lemma Settings_new_fractions_accepted a b c :
  gt0_le1 a = vok a -> gt0_le1 b = vok b -> gt0_le1 c = vok c ->
  exists S, Settings_new (fractions_yaml a b c) [] [] = inr S
            /\ max_drawdown (risk (trading S)) = a
            /\ var_limit (risk (trading S)) = b
            /\ max_position_size (trading S) = c.
Proof.
  intros Ha Hb Hc.
  set (rk := [("max_drawdown", VFloat a); ("var_limit", VFloat b)]).
  set (tk := [("markets", VList [VStr "stocks"; VStr "crypto"]);
              ("max_position_size", VFloat c); ("risk", VDict rk)]).
  assert (Hrisk : RiskConfig_validate rk
                  = vok {| max_drawdown := a; var_limit := b; max_latency_ms := None |}).
  { unfold RiskConfig_validate.
    rewrite (required_found "max_drawdown" unit_fraction rk (VFloat a) a)
      by (reflexivity || discriminate || exact Ha).
    rewrite (required_found "var_limit" unit_fraction rk (VFloat b) b)
      by (reflexivity || discriminate || exact Hb).
    reflexivity. }
  assert (Htrading : TradingConfig_validate tk
                     = vok {| markets := ["stocks"; "crypto"];
                              max_position_size := c;
                              risk := {| max_drawdown := a; var_limit := b;
                                         max_latency_ms := None |} |}).
  { unfold TradingConfig_validate.
    rewrite (required_found "max_position_size" unit_fraction tk (VFloat c) c)
      by (reflexivity || discriminate || exact Hc).
    rewrite (required_found "risk" (model_validator RiskConfig_validate) tk (VDict rk) _)
      by (reflexivity || discriminate || exact Hrisk).
    reflexivity. }
  unfold Settings_new, Settings_validate.
  rewrite (required_found "trading" (model_validator TradingConfig_validate)
             (fractions_yaml a b c) (VDict tk) _)
    by (reflexivity || discriminate || exact Htrading).
  eexists. split; [reflexivity|]. simpl. auto.
Qed.

Lemma Settings_new_fractions_checked a b c S :
  Settings_new (fractions_yaml a b c) [] [] = inr S ->
  gt0_le1 a = vok a /\ gt0_le1 b = vok b /\ gt0_le1 c = vok c.
Proof.
  intros Hok. apply Settings_new_inv in Hok as (v & kw & Hget & Hdict & Ht).
  injection Hget as <-. injection Hdict as <-.
  apply TradingConfig_validate_inv in Ht as [(x & Hx & Hp) (y & rk & Hy & Hdict & Hr)].
  injection Hx as <-. injection Hy as <-. injection Hdict as <-.
  apply RiskConfig_validate_inv in Hr as [(d & Hd & Hdd) (l & Hl & Hvl)].
  injection Hd as <-. injection Hl as <-.
  rewrite unit_fraction_float in Hp, Hdd, Hvl.
  apply gt0_le1_inv in Hp as [-> Hp]. apply gt0_le1_inv in Hdd as [-> Hdd].
  apply gt0_le1_inv in Hvl as [-> Hvl]. auto.
Qed.
End FractionsTemplate.

(** C6.  [max_drawdown], [var_limit] and [max_position_size] all go through
    the same check, which accepts a binary64 number exactly when it lies in
    (0, 1].  The fractions of every accepted [Settings] passed it; for a
    tree whose other fields are valid, [Settings] is accepted exactly when
    the three fractions lie in (0, 1]; with [max_drawdown] at 1.5 or at 0
    construction raises the [ValidationError] (the specification's
    [ConfigValidationError]), and at 1.0 it is accepted. *)
Theorem fractions_in_unit_interval `{PyBuiltins} `{CoreTypes} :
  (forall f, is_binary64 f -> (gt0_le1 f = vok f <-> in_unit_interval f))
  /\ (forall config strats rls S,
        Settings_new config strats rls = inr S ->
        let t := trading S in
        (is_binary64 (max_drawdown (risk t)) -> in_unit_interval (max_drawdown (risk t)))
        /\ (is_binary64 (var_limit (risk t)) -> in_unit_interval (var_limit (risk t)))
        /\ (is_binary64 (max_position_size t) -> in_unit_interval (max_position_size t)))
  /\ (forall a b c,
        is_binary64 a -> is_binary64 b -> is_binary64 c ->
        ((exists S, Settings_new (fractions_yaml a b c) [] [] = inr S)
         <-> in_unit_interval a /\ in_unit_interval b /\ in_unit_interval c))
  /\ Settings_new (fractions_yaml float_1_5 float_0_05 float_0_1) [] []
     = inl (ValidationError "Settings" [not_le_error])
  /\ Settings_new (fractions_yaml float_zero float_0_05 float_0_1) [] []
     = inl (ValidationError "Settings" [not_gt_error])
  /\ (exists S, Settings_new (fractions_yaml float_one float_0_05 float_0_1) [] [] = inr S
                /\ max_drawdown (risk (trading S)) = float_one).
Proof.
  split; [|split; [|split; [|split; [|split]]]].
  - intros f Hf. now apply gt0_le1_accepts.
  - intros config strats rls S Hok.
    destruct (Settings_new_checked _ _ _ _ Hok) as (Hd & Hv & Hp).
    cbv zeta. repeat split; intros Hvalid; now apply gt0_le1_accepts.
  - intros a b c Ha Hb Hc. split.
    + intros [S Hok]. apply Settings_new_fractions_checked in Hok as (Ea & Eb & Ec).
      repeat split; now apply gt0_le1_accepts.
    + intros (Ia & Ib & Ic).
      destruct (Settings_new_fractions_accepted a b c) as (S & Hok & _);
        try (now apply gt0_le1_accepts). eauto.
  - vm_compute. reflexivity.
  - vm_compute. reflexivity.
  - destruct (Settings_new_fractions_accepted float_one float_0_05 float_0_1)
      as (S & Hok & Hd & _); try (vm_compute; reflexivity). eauto.
Qed.

Lemma fractions_in_unit_interval_witness :
  (gt0_le1 float_one = vok float_one <-> in_unit_interval float_one)
  /\ ((exists S, Settings_new (H := plain_builtins) (H0 := plain_core)
                   (fractions_yaml float_one float_0_05 float_0_1) [] [] = inr S)
      <-> in_unit_interval float_one /\ in_unit_interval float_0_05
          /\ in_unit_interval float_0_1)
  /\ in_unit_interval float_0_2.
Proof.
  destruct (fractions_in_unit_interval (H := plain_builtins) (H0 := plain_core))
    as (Hcheck & Hsound & Htemplate & _).
  split; [|split].
  - apply Hcheck. vm_compute. reflexivity.
  - apply Htemplate; vm_compute; reflexivity.
  - assert (Hok : Settings_new (H := plain_builtins) (H0 := plain_core)
                    (fractions_yaml float_0_2 float_0_05 float_0_1) [] []
                  = inr (fractions_settings float_0_2 float_0_05 float_0_1))
      by (vm_compute; reflexivity).
    apply (proj1 (Hsound _ _ _ _ Hok)); vm_compute; reflexivity.
Defined.

Example fraction_examples :
  in_unit_interval float_one /\ ~ in_unit_interval float_1_5
  /\ ~ in_unit_interval float_zero /\ in_unit_interval float_0_5.
Proof.
  unfold in_unit_interval, float_one, float_1_5, float_zero, float_0_5.
  repeat split; try (vm_compute; congruence).
Qed.

(** ** The merger on the store *)

Import Store.

Lemma prefix_insert_ge {A} (l0 l : list A) (r : nat) (x : A) :
  l0 `prefix_of` l -> length l0 <= r -> l0 `prefix_of` <[r := x]> l.
Proof.
  intros [k ->] Hr. exists (<[r - length l0 := x]> k).
  now apply insert_app_r_alt.
Qed.

Lemma assign_frame h0 h r key v h' out :
  assign h r key v = Some (h', out) ->
  h0 `prefix_of` h -> length h0 <= r -> h0 `prefix_of` h'.
Proof.
  unfold assign. intros Hrun Hpre Hr.
  destruct (h !! r) as [o|]; [|discriminate].
  destruct (obj_setitem o key v) as [e|o']; injection Hrun as <- <-.
  - exact Hpre.
  - now apply prefix_insert_ge.
Qed.

Lemma assign_dict h r key v d :
  h !! r = Some (ODict d) ->
  assign h r key v = Some (<[r := ODict (dict_set key v d)]> h, inr tt).
Proof. unfold assign. now intros ->. Qed.

(** The store only grows at fresh addresses: what was there before the
    call is there after it, whatever the outcome. *)
Section Frame.
Variable merge_rec : heap -> hval -> hval -> outcome.
Hypothesis rec_frame : forall h base override h' out,
  merge_rec h base override = Some (h', out) -> h `prefix_of` h'.

Lemma merge_loop_frame items r : forall h0 h h' out,
  Store.merge_loop merge_rec items r h = Some (h', out) ->
  h0 `prefix_of` h -> length h0 <= r -> h0 `prefix_of` h'.
Proof.
  induction items as [|[key val] rest IH]; intros h0 h h' out Hrun Hpre Hr.
  - simpl in Hrun. now injection Hrun as <- <-.
  - simpl in Hrun.
    destruct (is_dict h val) as [[|]|]; [| |discriminate];
      (destruct (h !! r) as [result|] eqn:Hres; [|discriminate]).
    + destruct (obj_in key result).
      * destruct (obj_getitem result key) as [e|old].
        { now injection Hrun as <- <-. }
        destruct (merge_rec h old val) as [[h1 [e|merged]]|] eqn:Hrec;
          [| |discriminate].
        { injection Hrun as <- <-. etrans; [exact Hpre|]. eauto. }
        assert (Hpre1 : h0 `prefix_of` h1) by (etrans; [exact Hpre|]; eauto).
        destruct (assign h1 r key merged) as [[h2 [e|u]]|] eqn:Hassign;
          [| |discriminate].
        { injection Hrun as <- <-. eapply assign_frame; eassumption. }
        eapply IH; [exact Hrun| |exact Hr]. eapply assign_frame; eassumption.
      * destruct (assign h r key val) as [[h2 [e|u]]|] eqn:Hassign;
          [| |discriminate].
        { injection Hrun as <- <-. eapply assign_frame; eassumption. }
        eapply IH; [exact Hrun| |exact Hr]. eapply assign_frame; eassumption.
    + destruct (assign h r key val) as [[h2 [e|u]]|] eqn:Hassign;
        [| |discriminate].
      { injection Hrun as <- <-. eapply assign_frame; eassumption. }
      eapply IH; [exact Hrun| |exact Hr]. eapply assign_frame; eassumption.
Qed.

Lemma merge_loop_result items r : forall h h' v,
  Store.merge_loop merge_rec items r h = Some (h', inr v) -> v = HRef r.
Proof.
  induction items as [|[key val] rest IH]; intros h h' v Hrun; simpl in Hrun.
  - now injection Hrun as _ <-.
  - destruct (is_dict h val) as [[|]|]; [| |discriminate];
      (destruct (h !! r) as [result|]; [|discriminate]).
    + destruct (obj_in key result).
      * destruct (obj_getitem result key) as [e|old]; [discriminate|].
        destruct (merge_rec h old val) as [[h1 [e|merged]]|];
          [discriminate| |discriminate].
        destruct (assign h1 r key merged) as [[h2 [e|u]]|];
          [discriminate| |discriminate]. eauto.
      * destruct (assign h r key val) as [[h2 [e|u]]|];
          [discriminate| |discriminate]. eauto.
    + destruct (assign h r key val) as [[h2 [e|u]]|];
        [discriminate| |discriminate]. eauto.
Qed.

(** The dict at [r] after the loop: the keys the override does not have
    are as before, and a key only the override has holds the override's
    value. *)
Lemma merge_loop_lookup items r : forall h d h' v,
  h !! r = Some (ODict d) ->
  Store.merge_loop merge_rec items r h = Some (h', inr v) ->
  exists d',
    h' !! r = Some (ODict d')
    /\ (forall k, k ∉ map fst items -> dict_get k d' = dict_get k d)
    /\ (NoDup (map fst items) ->
        forall k x, (k, x) ∈ items -> dict_get k d = None -> dict_get k d' = Some x).
Proof.
  induction items as [|[key val] rest IH]; intros h d h' v Hres Hrun.
  - simpl in Hrun. injection Hrun as <- _. exists d. split; [exact Hres|].
    split; [reflexivity|]. intros _ k x Hin. now apply elem_of_nil in Hin.
  - simpl in Hrun. rewrite Hres in Hrun.
    assert (Hnext : forall h2 x,
               h2 !! r = Some (ODict (dict_set key x d)) ->
               (dict_get key d = None -> x = val) ->
               Store.merge_loop merge_rec rest r h2 = Some (h', inr v) ->
               exists d',
                 h' !! r = Some (ODict d')
                 /\ (forall k, k ∉ map fst ((key, val) :: rest) ->
                               dict_get k d' = dict_get k d)
                 /\ (NoDup (map fst ((key, val) :: rest)) ->
                     forall k y, (k, y) ∈ (key, val) :: rest ->
                                 dict_get k d = None -> dict_get k d' = Some y)).
    { intros h2 x Hres2 Hx Hrest.
      destruct (IH _ _ _ _ Hres2 Hrest) as (d' & Hd' & Hother & Hnew).
      exists d'. split; [exact Hd'|]. split.
      - intros k Hk. simpl in Hk. apply not_elem_of_cons in Hk as [Hne Hk].
        rewrite (Hother k Hk). apply dict_get_set_ne. congruence.
      - simpl. intros Hnd k y Hin Hnone.
        apply NoDup_cons in Hnd as [Hfresh Hnd].
        apply elem_of_cons in Hin as [Heq|Hin].
        + injection Heq as -> ->. rewrite (Hother key Hfresh).
          rewrite dict_get_set_eq. f_equal. now apply Hx.
        + assert (Hne : key <> k).
          { intros ->. apply Hfresh. apply list_elem_of_fmap. now exists (k, y). }
          apply (Hnew Hnd k y Hin). rewrite dict_get_set_ne by exact Hne.
          exact Hnone. }
    destruct (is_dict h val) as [[|]|]; [| |discriminate].
    + simpl obj_in in Hrun. destruct (dict_mem key d) eqn:Hmem.
      * simpl obj_getitem in Hrun. unfold dict_mem in Hmem.
        destruct (dict_get key d) as [old|] eqn:Hold; [|discriminate].
        simpl in Hrun.
        destruct (merge_rec h old val) as [[h1 [e|merged]]|] eqn:Hrec;
          [discriminate| |discriminate].
        assert (Hres1 : h1 !! r = Some (ODict d)).
        { eapply prefix_lookup_Some; [exact Hres|]. eauto. }
        rewrite (assign_dict _ _ _ _ _ Hres1) in Hrun.
        refine (Hnext _ merged _ _ Hrun); [|discriminate].
        apply list_lookup_insert_eq. now apply lookup_lt_Some in Hres1.
      * rewrite (assign_dict _ _ _ _ _ Hres) in Hrun.
        refine (Hnext _ val _ _ Hrun); [|reflexivity].
        apply list_lookup_insert_eq. now apply lookup_lt_Some in Hres.
    + rewrite (assign_dict _ _ _ _ _ Hres) in Hrun.
      refine (Hnext _ val _ _ Hrun); [|reflexivity].
      apply list_lookup_insert_eq. now apply lookup_lt_Some in Hres.
Qed.
End Frame.

Lemma merge_configs_frame fuel : forall h base override h' out,
  Store.merge_configs fuel h base override = Some (h', out) -> h `prefix_of` h'.
Proof.
  induction fuel as [|fuel IH]; intros h base override h' out Hrun; [discriminate|].
  simpl in Hrun. destruct base as [s|b].
  - now injection Hrun as <- <-.
  - destruct (h !! b) as [o|]; [|discriminate].
    assert (Hgrow : h `prefix_of` (h ++ [o])%list) by now apply prefix_app_r.
    destruct override as [s|ov].
    + now injection Hrun as <- <-.
    + destruct ((h ++ [o])%list !! ov) as [[items|l]|]; [| |discriminate].
      * eapply merge_loop_frame; [exact IH|exact Hrun|exact Hgrow|reflexivity].
      * now injection Hrun as <- <-.
Qed.

Import StoreRepr.

(** ** The two models of the merger agree *)

Lemma value_ind' (P : value -> Prop) :
  (forall s, P (VScalar s)) ->
  (forall l, Forall P l -> P (VList l)) ->
  (forall d, Forall (fun kv => P (snd kv)) d -> P (VDict d)) ->
  forall v, P v.
Proof.
  intros Hs Hl Hd. fix IH 1. intros [s|l|d].
  - apply Hs.
  - apply Hl. induction l as [|x l IHl]; constructor; [apply IH|exact IHl].
  - apply Hd. induction d as [|[k x] d IHd]; constructor; [apply IH|exact IHd].
Qed.

(** [repr] is kept when the store grows and when the set to avoid shrinks
    on the old addresses. *)
Lemma repr_mono avoid avoid' (h h' : heap) :
  h `prefix_of` h' ->
  (forall a, a < length h -> avoid' a -> avoid a) ->
  forall t v, repr avoid h v t -> repr avoid' h' v t.
Proof.
  intros Hpre Hav. induction t as [s|tl IH|td IH] using value_ind'; intros v Hv;
    inversion Hv as [s'|a l tl' Ha Hl Hall|a d td' Ha Hl Hall]; subst.
  - constructor.
  - apply repr_list with (l := l).
    + intros Hx. apply Ha, Hav; [|exact Hx]. now apply lookup_lt_Some in Hl.
    + eapply prefix_lookup_Some; eassumption.
    + clear Hv Hl. induction Hall as [|x t l tl Hxt Hall IHall]; constructor.
      * apply Forall_cons in IH as [IHx _]. now apply IHx.
      * apply IHall. now apply Forall_cons in IH as [_ IH].
  - apply repr_dict with (d := d).
    + intros Hx. apply Ha, Hav; [|exact Hx]. now apply lookup_lt_Some in Hl.
    + eapply prefix_lookup_Some; eassumption.
    + clear Hv Hl. induction Hall as [|x t l tl [Hk Hxt] Hall IHall]; constructor.
      * apply Forall_cons in IH as [IHx _]. split; [exact Hk|now apply IHx].
      * apply IHall. now apply Forall_cons in IH as [_ IH].
Qed.

(** [repr] does not see an update at an address it avoids. *)
Lemma repr_insert avoid (h : heap) r o :
  avoid r -> forall t v, repr avoid h v t -> repr avoid (<[r := o]> h) v t.
Proof.
  intros Hr. induction t as [s|tl IH|td IH] using value_ind'; intros v Hv;
    inversion Hv as [s'|a l tl' Ha Hl Hall|a d td' Ha Hl Hall]; subst.
  - constructor.
  - apply repr_list with (l := l); [exact Ha| |].
    + rewrite list_lookup_insert_ne; [exact Hl|]. intros ->. contradiction.
    + clear Hv Hl. induction Hall as [|x t l tl Hxt Hall IHall]; constructor.
      * apply Forall_cons in IH as [IHx _]. now apply IHx.
      * apply IHall. now apply Forall_cons in IH as [_ IH].
  - apply repr_dict with (d := d); [exact Ha| |].
    + rewrite list_lookup_insert_ne; [exact Hl|]. intros ->. contradiction.
    + clear Hv Hl. induction Hall as [|x t l tl [Hk Hxt] Hall IHall]; constructor.
      * apply Forall_cons in IH as [IHx _]. split; [exact Hk|now apply IHx].
      * apply IHall. now apply Forall_cons in IH as [_ IH].
Qed.

Lemma items_repr_mono avoid avoid' (h h' : heap) d td :
  h `prefix_of` h' ->
  (forall a, a < length h -> avoid' a -> avoid a) ->
  Forall2 (item_repr avoid h) d td -> Forall2 (item_repr avoid' h') d td.
Proof.
  intros Hpre Hav Hall. induction Hall as [|x t l tl [Hk Hxt] Hall IH]; constructor;
    [|exact IH].
  split; [exact Hk|]. eapply repr_mono; eassumption.
Qed.

Lemma list_repr_mono avoid avoid' (h h' : heap) l tl :
  h `prefix_of` h' ->
  (forall a, a < length h -> avoid' a -> avoid a) ->
  Forall2 (repr avoid h) l tl -> Forall2 (repr avoid' h') l tl.
Proof.
  intros Hpre Hav Hall. induction Hall as [|x t l tl Hxt Hall IH]; constructor;
    [|exact IH].
  eapply repr_mono; eassumption.
Qed.

Lemma obj_repr_mono avoid avoid' (h h' : heap) o t :
  h `prefix_of` h' ->
  (forall a, a < length h -> avoid' a -> avoid a) ->
  obj_repr avoid h o t -> obj_repr avoid' h' o t.
Proof.
  intros Hpre Hav. destruct o as [d|l], t as [s|tl|td]; simpl; try tauto.
  - now apply items_repr_mono.
  - now apply list_repr_mono.
Qed.

Lemma items_repr_insert avoid (h : heap) r o d td :
  avoid r ->
  Forall2 (item_repr avoid h) d td -> Forall2 (item_repr avoid (<[r := o]> h)) d td.
Proof.
  intros Hr Hall. induction Hall as [|x t l tl [Hk Hxt] Hall IH]; constructor;
    [|exact IH].
  split; [exact Hk|]. now apply repr_insert.
Qed.

(** Lookups and updates of corresponding dicts correspond. *)
Lemma items_repr_get avoid (h : heap) d td key :
  Forall2 (item_repr avoid h) d td ->
  match dict_get key d, dict_get key td with
  | Some v, Some t => repr avoid h v t
  | None, None => True
  | _, _ => False
  end.
Proof.
  intros Hall. induction Hall as [|[k v] [k' t] l tl [Hk Hvt] Hall IH]; simpl;
    [exact I|].
  simpl in Hk. subst k'. destruct (String.eqb key k); [exact Hvt|exact IH].
Qed.

Lemma items_repr_set avoid (h : heap) d td key v t :
  Forall2 (item_repr avoid h) d td -> repr avoid h v t ->
  Forall2 (item_repr avoid h) (dict_set key v d) (dict_set key t td).
Proof.
  intros Hall Hvt. induction Hall as [|[k x] [k' y] l tl [Hk Hxy] Hall IH]; simpl.
  - constructor; [now split|constructor].
  - simpl in Hk. subst k'. destruct (String.eqb key k).
    + constructor; [now split|exact Hall].
    + constructor; [now split|exact IH].
Qed.

Lemma repr_is_dict avoid (h : heap) v t :
  repr avoid h v t -> is_dict h v = Some (isinstance_dict t).
Proof.
  intros Hvt.
  inversion Hvt as [s|a l tl Ha Hl Hall|a d td Ha Hl Hall]; subst; simpl;
    [reflexivity|now rewrite Hl..].
Qed.

Lemma merge_loop_agrees (avoid : addr -> Prop) (r : addr) :
  avoid r ->
  forall items_t,
    Forall (fun kt => simulates (snd kt)) items_t ->
    forall items (h : heap) ores tres,
      (forall a, avoid a -> a < length h) ->
      h !! r = Some ores ->
      obj_repr avoid h ores tres ->
      Forall2 (item_repr avoid h) items items_t ->
      loop_agrees avoid r
        (fun fuel => Store.merge_loop (Store.merge_configs fuel) items r h)
        (Config.merge_loop Config.merge_configs items_t tres).
Proof.
  intros Hr items_t. induction items_t as [|[key tval] rest_t IHitems];
    intros Hsim items h ores tres Hav Hres Hobj Hitems.
  - inversion Hitems; subst. simpl. exists h, ores.
    split; [|auto]. exists 0. reflexivity.
  - inversion Hitems as [|[key' val] kt rest rest' [Hkey Hval] Hrest]; subst.
    simpl in Hkey. subst key'. simpl in Hval.
    apply Forall_cons in Hsim as [Hsim_val Hsim_rest].
    pose proof (repr_is_dict _ _ _ _ Hval) as Hisd.
    destruct ores as [d|l], tres as [s|tl|td]; simpl in Hobj; try contradiction.
    + (* result is a dict *)
      rewrite merge_loop_cons.
      pose proof (items_repr_get _ _ _ _ key Hobj) as Hget.
      assert (Hassign : forall (h1 : heap) x tx,
                 h `prefix_of` h1 ->
                 (forall a, avoid a -> a < length h1) ->
                 repr avoid h1 x tx ->
                 loop_agrees avoid r
                   (fun fuel => Store.merge_loop (Store.merge_configs fuel) rest r
                                  (<[r := ODict (dict_set key x d)]> h1))
                   (Config.merge_loop Config.merge_configs rest_t
                      (VDict (dict_set key tx td)))).
      { intros h1 x tx Hpre Hav1 Hx.
        assert (Hres1 : h1 !! r = Some (ODict d))
          by (eapply prefix_lookup_Some; eassumption).
        apply IHitems with (ores := ODict (dict_set key x d)).
        - exact Hsim_rest.
        - intros a Ha. rewrite length_insert. now apply Hav1.
        - apply list_lookup_insert_eq. now apply lookup_lt_Some in Hres1.
        - simpl. apply items_repr_insert; [exact Hr|]. apply items_repr_set; [|exact Hx].
          eapply items_repr_mono; [exact Hpre| |exact Hobj]. auto.
        - apply items_repr_insert; [exact Hr|].
          eapply items_repr_mono; [exact Hpre| |exact Hrest]. auto. }
      assert (Hplain : loop_agrees avoid r
                (fun fuel => Store.merge_loop (Store.merge_configs fuel) rest r
                               (<[r := ODict (dict_set key val d)]> h))
                (Config.merge_loop Config.merge_configs rest_t
                   (VDict (dict_set key tval td))))
        by (apply Hassign; [reflexivity|exact Hav|exact Hval]).
      assert (Hstep_plain :
                (isinstance_dict tval && dict_mem key d = false) ->
                forall fuel,
                  Store.merge_loop (Store.merge_configs fuel) ((key, val) :: rest) r h
                  = Store.merge_loop (Store.merge_configs fuel) rest r
                      (<[r := ODict (dict_set key val d)]> h)).
      { intros Hcond fuel. simpl Store.merge_loop. rewrite Hisd, Hres. simpl obj_in.
        rewrite (assign_dict _ _ _ _ _ Hres).
        destruct (isinstance_dict tval); [|reflexivity].
        simpl in Hcond. now rewrite Hcond. }
      destruct tval as [s|tl|sub].
      * replace (match dict_get key td with Some _ | _ => _ end)
          with (Config.merge_loop Config.merge_configs rest_t
                  (VDict (dict_set key (VScalar s) td)))
          by now destruct (dict_get key td).
        unfold loop_agrees in *.
        destruct (Config.merge_loop _ rest_t _) as [e|t'].
        -- destruct Hplain as (h' & fuel & Hfuel). exists h', fuel.
           intros fuel' Hle. rewrite Hstep_plain by reflexivity. now apply Hfuel.
        -- destruct Hplain as (h' & o' & (fuel & Hfuel) & Ho'). exists h', o'.
           split; [|exact Ho']. exists fuel.
           intros fuel' Hle. rewrite Hstep_plain by reflexivity. now apply Hfuel.
      * replace (match dict_get key td with Some _ | _ => _ end)
          with (Config.merge_loop Config.merge_configs rest_t
                  (VDict (dict_set key (VList tl) td)))
          by now destruct (dict_get key td).
        unfold loop_agrees in *.
        destruct (Config.merge_loop _ rest_t _) as [e|t'].
        -- destruct Hplain as (h' & fuel & Hfuel). exists h', fuel.
           intros fuel' Hle. rewrite Hstep_plain by reflexivity. now apply Hfuel.
        -- destruct Hplain as (h' & o' & (fuel & Hfuel) & Ho'). exists h', o'.
           split; [|exact Ho']. exists fuel.
           intros fuel' Hle. rewrite Hstep_plain by reflexivity. now apply Hfuel.
      * destruct (dict_get key td) as [old_t|] eqn:Hold_t;
          destruct (dict_get key d) as [old|] eqn:Hold; try contradiction.
        -- (* the key is in the result: recursive call *)
           assert (Hmem : dict_mem key d = true) by (unfold dict_mem; now rewrite Hold).
           assert (Hstep : forall fuel,
                     Store.merge_loop (Store.merge_configs fuel) ((key, val) :: rest) r h
                     = match Store.merge_configs fuel h old val with
                       | None => None
                       | Some (h1, inl e) => Some (h1, inl e)
                       | Some (h1, inr merged) =>
                           match assign h1 r key merged with
                           | None => None
                           | Some (h2, inl e) => Some (h2, inl e)
                           | Some (h2, inr _) =>
                               Store.merge_loop (Store.merge_configs fuel) rest r h2
                           end
                       end).
           { intros fuel. simpl Store.merge_loop. rewrite Hisd, Hres. simpl.
             now rewrite Hmem, Hold. }
           cbn [snd] in Hsim_val.
           specialize (Hsim_val avoid h old val old_t Hav Hget Hval).
           unfold agrees in Hsim_val.
           destruct (Config.merge_configs old_t (VDict sub)) as [e|merged_t].
           ++ destruct Hsim_val as (h1 & fuel & Hfuel). exists h1, fuel.
              intros fuel' Hle. rewrite Hstep, (Hfuel fuel' Hle). reflexivity.
           ++ destruct Hsim_val as (h1 & merged & [fuel1 Hfuel1] & Hmerged).
              assert (Hpre : h `prefix_of` h1)
                by (eapply merge_configs_frame; apply (Hfuel1 fuel1); lia).
              assert (Hav1 : forall a, avoid a -> a < length h1).
              { intros a Ha. apply prefix_length in Hpre. specialize (Hav a Ha). lia. }
              assert (Hres1 : h1 !! r = Some (ODict d))
                by (eapply prefix_lookup_Some; eassumption).
              specialize (Hassign h1 merged merged_t Hpre Hav1 Hmerged).
              assert (Hrun : forall fuel', fuel1 <= fuel' ->
                        Store.merge_loop (Store.merge_configs fuel') ((key, val) :: rest) r h
                        = Store.merge_loop (Store.merge_configs fuel') rest r
                            (<[r := ODict (dict_set key merged d)]> h1)).
              { intros fuel' Hle. rewrite Hstep, (Hfuel1 fuel' Hle).
                now rewrite (assign_dict _ _ _ _ _ Hres1). }
              unfold loop_agrees in *.
              destruct (Config.merge_loop _ rest_t _) as [e|t'].
              ** destruct Hassign as (h' & fuel2 & Hfuel2). exists h', (Nat.max fuel1 fuel2).
                 intros fuel' Hle. rewrite Hrun by lia. apply Hfuel2. lia.
              ** destruct Hassign as (h' & o' & (fuel2 & Hfuel2) & Ho'). exists h', o'.
                 split; [|exact Ho']. exists (Nat.max fuel1 fuel2).
                 intros fuel' Hle. rewrite Hrun by lia. apply Hfuel2. lia.
        -- assert (Hmem : dict_mem key d = false) by (unfold dict_mem; now rewrite Hold).
           unfold loop_agrees in *.
           destruct (Config.merge_loop _ rest_t _) as [e|t'].
           ++ destruct Hplain as (h' & fuel & Hfuel). exists h', fuel.
              intros fuel' Hle. rewrite Hstep_plain by (now rewrite Hmem).
              now apply Hfuel.
           ++ destruct Hplain as (h' & o' & (fuel & Hfuel) & Ho'). exists h', o'.
              split; [|exact Ho']. exists fuel.
              intros fuel' Hle. rewrite Hstep_plain by (now rewrite Hmem).
              now apply Hfuel.
    + (* result is a list: the first access raises *)
      rewrite merge_loop_list_raises. exists h, 0. intros fuel' _.
      simpl Store.merge_loop. rewrite Hisd, Hres.
      destruct (isinstance_dict tval); simpl; unfold assign; rewrite ?Hres; simpl;
        [destruct (existsb (is_hstr key) l); reflexivity|reflexivity].
Qed.

(** A call on a base that refers to an object, with a dict as override. *)
Lemma merge_configs_ref_simulates avoid (h : heap) a ov ob tb items td :
  (forall x, avoid x -> x < length h) ->
  ~ avoid a ->
  h !! a = Some ob ->
  obj_repr avoid h ob tb ->
  h !! ov = Some (ODict items) ->
  Forall2 (item_repr avoid h) items td ->
  Forall (fun kt => simulates (snd kt)) td ->
  agrees avoid (fun fuel => Store.merge_configs fuel h (HRef a) (HRef ov))
         (Config.merge_loop Config.merge_configs td tb).
Proof.
  intros Hav Ha Hl Hob Hitems Hall IH.
  set (r := length h). set (h1 := (h ++ [ob])%list).
  set (avoid' := fun x => avoid x \/ x = r).
  assert (Hpre : h `prefix_of` h1) by now apply prefix_app_r.
  assert (Hweak : forall x, x < length h -> avoid' x -> avoid x).
  { intros x Hx [Hx'|Hx']; [exact Hx'|]. unfold r in Hx'. lia. }
  assert (Hfresh : ~ avoid r) by (intros Hr; apply Hav in Hr; unfold r in Hr; lia).
  assert (Hloop : loop_agrees avoid' r
            (fun fuel => Store.merge_loop (Store.merge_configs fuel) items r h1)
            (Config.merge_loop Config.merge_configs td tb)).
  { apply merge_loop_agrees with (ores := ob).
    - now right.
    - exact IH.
    - intros x [Hx|Hx]; unfold h1; rewrite length_app; simpl.
      + apply Hav in Hx. lia.
      + unfold r in Hx. lia.
    - apply list_lookup_middle. reflexivity.
    - eapply obj_repr_mono; [exact Hpre|exact Hweak|exact Hob].
    - eapply items_repr_mono; [exact Hpre|exact Hweak|exact Hall]. }
  assert (Hstep : forall fuel,
            Store.merge_configs (S fuel) h (HRef a) (HRef ov)
            = Store.merge_loop (Store.merge_configs fuel) items r h1).
  { intros fuel. simpl. rewrite Hl.
    rewrite lookup_app_l by (now apply lookup_lt_Some in Hitems).
    now rewrite Hitems. }
  unfold agrees, loop_agrees in *.
  destruct (Config.merge_loop Config.merge_configs td tb) as [e|t'].
  - destruct Hloop as (h' & fuel & Hfuel). exists h', (S fuel).
    intros [|fuel'] Hle; [lia|]. rewrite Hstep. apply Hfuel. lia.
  - destruct Hloop as (h' & o' & (fuel & Hfuel) & Hres & Hobj).
    exists h', (HRef r). split.
    + exists (S fuel). intros [|fuel'] Hle; [lia|]. rewrite Hstep. apply Hfuel. lia.
    + destruct o' as [d'|l'], t' as [s|tl'|td']; simpl in Hobj; try contradiction.
      * apply repr_dict with (d := d'); [exact Hfresh|exact Hres|].
        eapply items_repr_mono; [reflexivity| |exact Hobj]. intros x _ Hx. now left.
      * apply repr_list with (l := l'); [exact Hfresh|exact Hres|].
        eapply list_repr_mono; [reflexivity| |exact Hobj]. intros x _ Hx. now left.
Qed.

(** The merger on the store returns what the merger on trees returns: with
    enough fuel the call on values standing for the trees [tb] and [tv]
    ends, with the same exception, or with a value standing for the merged
    tree. *)
Lemma merge_configs_simulates : forall tv, simulates tv.
Proof.
  induction tv as [s|tl _|td IH] using value_ind';
    intros avoid h b o tb Hav Hb Ho.
  - (* the override is a scalar *)
    inversion Ho; subst.
    inversion Hb as [s'|a l tl' Ha Hl Hall|a d td' Ha Hl Hall]; subst; simpl.
    + exists h, 1. intros [|fuel'] Hle; [lia|reflexivity].
    + exists (h ++ [OList l])%list, 1. intros [|fuel'] Hle; [lia|].
      simpl. now rewrite Hl.
    + exists (h ++ [ODict d])%list, 1. intros [|fuel'] Hle; [lia|].
      simpl. now rewrite Hl.
  - (* the override is a list *)
    inversion Ho as [|ov lo tlo Hov Hlo Hallo|]; subst.
    assert (Hgrow : forall x, (h ++ [x])%list !! ov = Some (OList lo)).
    { intros x. rewrite lookup_app_l; [exact Hlo|]. now apply lookup_lt_Some in Hlo. }
    inversion Hb as [s'|a l tl' Ha Hl Hall|a d td' Ha Hl Hall]; subst; simpl.
    + exists h, 1. intros [|fuel'] Hle; [lia|reflexivity].
    + exists (h ++ [OList l])%list, 1. intros [|fuel'] Hle; [lia|].
      simpl. now rewrite Hl, Hgrow.
    + exists (h ++ [ODict d])%list, 1. intros [|fuel'] Hle; [lia|].
      simpl. now rewrite Hl, Hgrow.
  - (* the override is a dict *)
    inversion Ho as [| |ov items td' Hov Hitems Hall]; subst.
    destruct tb as [s|tl|tdb].
    + inversion Hb; subst. simpl. exists h, 1.
      intros [|fuel'] Hle; [lia|reflexivity].
    + inversion Hb as [|a l tl' Ha Hl Hallb|]; subst.
      apply (merge_configs_ref_simulates avoid h a ov (OList l) (VList tl) items td);
        try assumption.
    + inversion Hb as [| |a d td' Ha Hl Hallb]; subst.
      apply (merge_configs_ref_simulates avoid h a ov (ODict d) (VDict tdb) items td);
        try assumption.
Qed.

(** The same for stores in which the two arguments stand for trees, with
    no address set aside. *)
Lemma merge_configs_agree (h : heap) (b o : hval) (tb tv : value) :
  repr nowhere h b tb -> repr nowhere h o tv ->
  agrees nowhere (fun fuel => Store.merge_configs fuel h b o) (Config.merge_configs tb tv).
Proof.
  intros Hb Ho. apply merge_configs_simulates; [|exact Hb|exact Ho].
  intros a [].
Qed.

(** On trees, the loop over a dict returns a dict. *)
Lemma merge_loop_returns_dict rec items : forall d t,
  Config.merge_loop rec items (VDict d) = inr t -> exists d', t = VDict d'.
Proof.
  induction items as [|[key val] rest IH]; intros d t Hrun.
  - simpl in Hrun. injection Hrun as <-. eauto.
  - rewrite merge_loop_cons in Hrun.
    destruct val as [s|l|sub]; [eauto..|].
    destruct (dict_get key d) as [old|]; [|eauto].
    destruct (rec old (VDict sub)) as [e|merged]; [discriminate|eauto].
Qed.

(** C9.  In the store, a call of [merge_configs] changes no object that
    existed before it, whatever its outcome: it writes only to the copies
    it allocates.  When the base and the override are dicts and the call
    returns, it returns a reference to a new dict, allocated at the first
    free address, in which every key that only the base has holds the
    base's value and every key that only the override has holds the
    override's value.  On a base and an override that stand for trees the
    call ends once it has enough fuel, with the exception the merger on
    trees raises, or with a value that stands for the tree that merger
    returns; and in that tree too the keys of the base alone keep the
    base's subtree and the keys of the override alone hold the
    override's. *)
Theorem merge_configs_keeps_base :
  (forall fuel (h h' : heap) base override out,
      Store.merge_configs fuel h base override = Some (h', out) ->
      forall a x, h !! a = Some x -> h' !! a = Some x)
  /\ (forall fuel (h h' : heap) b o db dov r,
        h !! b = Some (ODict db) ->
        h !! o = Some (ODict dov) ->
        NoDup (map fst dov) ->
        Store.merge_configs fuel h (HRef b) (HRef o) = Some (h', inr r) ->
        r = HRef (length h)
        /\ h !! length h = None
        /\ h' !! b = Some (ODict db)
        /\ exists dr,
             h' !! length h = Some (ODict dr)
             /\ (forall k, dict_get k dov = None -> dict_get k dr = dict_get k db)
             /\ (forall k v, dict_get k db = None -> dict_get k dov = Some v ->
                             dict_get k dr = Some v))
  /\ (forall (h : heap) b o tb tov,
        repr nowhere h b tb ->
        repr nowhere h o tov ->
        agrees nowhere (fun fuel => Store.merge_configs fuel h b o)
               (Config.merge_configs tb tov))
  /\ (forall d items t,
        NoDup (map fst items) ->
        Config.merge_configs (VDict d) (VDict items) = inr t ->
        exists d',
          t = VDict d'
          /\ (forall k, dict_get k items = None -> dict_get k d' = dict_get k d)
          /\ (forall k v, dict_get k d = None -> dict_get k items = Some v ->
                          dict_get k d' = Some v)).
Proof.
  split; [|split; [|split]].
  - intros fuel h h' base override out Hrun a x Hlook.
    eapply prefix_lookup_Some; [exact Hlook|].
    eapply merge_configs_frame; exact Hrun.
  - intros fuel h h' b o db dov r Hb Ho Hnd Hrun.
    pose proof (merge_configs_frame _ _ _ _ _ _ Hrun) as Hframe.
    destruct fuel as [|fuel]; [discriminate|]. simpl in Hrun.
    rewrite Hb in Hrun.
    rewrite lookup_app_l in Hrun by (now apply lookup_lt_Some in Ho).
    rewrite Ho in Hrun.
    assert (Hcopy : (h ++ [ODict db])%list !! length h = Some (ODict db))
      by apply list_lookup_middle, eq_refl.
    pose proof (merge_loop_result _ _ _ _ _ _ Hrun) as ->.
    destruct (merge_loop_lookup _ (merge_configs_frame fuel) _ _ _ _ _ _ Hcopy Hrun)
      as (dr & Hdr & Hother & Hnew).
    split; [reflexivity|]. split; [now apply lookup_ge_None_2|].
    split; [eapply prefix_lookup_Some; eassumption|].
    exists dr. split; [exact Hdr|]. split.
    + intros k Hk. apply Hother. now apply dict_get_None.
    + intros k v Hk Hv. apply (Hnew Hnd k v); [|exact Hk].
      now apply dict_get_Some_elem.
  - intros h b o tb tov. apply merge_configs_agree.
  - intros d items t Hnd Hrun.
    pose proof Hrun as Hdict. rewrite merge_configs_dict in Hdict.
    cbn [py_copy ret] in Hdict.
    apply merge_loop_returns_dict in Hdict as [d' ->].
    exists d'. split; [reflexivity|]. split.
    + intros k Hk. apply dict_get_None in Hk.
      destruct (merge_configs_other_keys _ _ _ _ Hrun Hk) as (d'' & [= <-] & Hget).
      exact Hget.
    + intros k v Hk Hv. apply dict_get_Some_elem in Hv.
      destruct (merge_configs_override_key _ _ _ _ _ Hrun Hnd Hv) as (d'' & [= <-] & Hget).
      rewrite Hk in Hget. now destruct v.
Qed.

Example store_merge_example :
  Store.merge_configs 2 sample_heap (HRef 0) (HRef 2) = Some (merged_heap, inr (HRef 5)).
Proof. reflexivity. Qed.

Lemma merge_configs_keeps_base_witness :
  (forall a x, sample_heap !! a = Some x -> merged_heap !! a = Some x)
  /\ merged_heap !! 0
     = Some (ODict [("a", HRef 1); ("b", HScalar (SInt 3))])
  /\ (exists dr,
         merged_heap !! 5 = Some (ODict dr)
         /\ dict_get "b" dr = Some (HScalar (SInt 3))
         /\ dict_get "c" dr = Some (HRef 4))
  /\ agrees nowhere (fun fuel => Store.merge_configs fuel sample_heap (HRef 0) (HRef 2))
            (inr (VDict [("a", VDict [("x", VInt 1); ("y", VInt 5)]); ("b", VInt 3);
                         ("c", VList [])]))
  /\ exists d',
       Config.merge_configs sample_base_tree sample_override_tree = inr (VDict d')
       /\ dict_get "b" d' = Some (VInt 3)
       /\ dict_get "c" d' = Some (VList []).
Proof.
  destruct merge_configs_keeps_base as (Hframe & Hkeys & Hagree & Htree).
  assert (Hnd : forall A (x y : A), NoDup (map fst [("a", x); ("c", y)])).
  { intros A x y. simpl.
    repeat (apply NoDup_cons; split;
            [rewrite ?not_elem_of_cons; repeat split;
             first [discriminate|apply not_elem_of_nil]|]).
    apply NoDup_nil. exact I. }
  split; [exact (Hframe 2 sample_heap merged_heap (HRef 0) (HRef 2) (inr (HRef 5)) eq_refl)|].
  destruct (Hkeys 2 sample_heap merged_heap 0 2 [("a", HRef 1); ("b", HScalar (SInt 3))]
              [("a", HRef 3); ("c", HRef 4)] (HRef 5) eq_refl eq_refl (Hnd _ _ _) eq_refl)
    as (_ & _ & Hbase & dr & Hdr & Hother & Hnew).
  split; [exact Hbase|]. split; [|split].
  - exists dr. split; [exact Hdr|]. split.
    + rewrite (Hother "b" eq_refl). reflexivity.
    + exact (Hnew "c" (HRef 4) eq_refl eq_refl).
  - apply (Hagree sample_heap (HRef 0) (HRef 2) sample_base_tree sample_override_tree);
      unfold sample_base_tree, sample_override_tree;
      repeat first [ apply repr_scalar
                   | eapply repr_dict; [intros []|reflexivity|]
                   | eapply repr_list; [intros []|reflexivity|]
                   | apply List.Forall2_nil
                   | apply List.Forall2_cons
                   | split; [reflexivity|] ].
  - destruct (Htree [("a", VDict [("x", VInt 1); ("y", VInt 2)]); ("b", VInt 3)]
                [("a", VDict [("y", VInt 5)]); ("c", VList [])] _ (Hnd _ _ _) eq_refl)
      as (d' & Hd' & Hother' & Hnew').
    exists d'. split; [now rewrite <- Hd'|]. split.
    + rewrite (Hother' "b" eq_refl). reflexivity.
    + exact (Hnew' "c" (VList []) eq_refl eq_refl).
Defined.

Import TreeShape Stages MoreExamples.

(** * Further properties of the code *)

(** ** Keys and entries of association lists *)

Lemma existsb_eqb_elem k (l : list string) : existsb (String.eqb k) l = true <-> k ∈ l.
Proof.
  induction l as [|x l IH]; simpl.
  - split; [discriminate|intros Hin; now apply elem_of_nil in Hin].
  - rewrite orb_true_iff, elem_of_cons, IH, String.eqb_eq. tauto.
Qed.

Lemma distinct_NoDup (l : list string) : distinct l = true <-> NoDup l.
Proof.
  induction l as [|k l IH]; simpl.
  - split; [intros _; apply NoDup_nil; exact I|reflexivity].
  - rewrite andb_true_iff, negb_true_iff, NoDup_cons, IH.
    assert (Hk : existsb (String.eqb k) l = false <-> k ∉ l).
    { rewrite <- existsb_eqb_elem. destruct (existsb (String.eqb k) l); split;
        congruence. }
    tauto.
Qed.

Section DictSetFacts.
Context {V : Type}.
Implicit Types (d : list (string * V)) (k : string) (v : V).

Lemma dict_set_fresh k v d : dict_get k d = None -> dict_set k v d = (d ++ [(k, v)])%list.
Proof.
  induction d as [|[k0 v0] d IH]; simpl; [reflexivity|].
  destruct (String.eqb k k0); [discriminate|]. intros Hget. now rewrite IH.
Qed.

Lemma dict_set_same k v d : dict_get k d = Some v -> dict_set k v d = d.
Proof.
  induction d as [|[k0 v0] d IH]; simpl; [discriminate|].
  destruct (String.eqb k k0) eqn:E.
  - apply String.eqb_eq in E. now intros [= ->]; subst.
  - intros Hget. now rewrite IH.
Qed.

Lemma keys_dict_set k v d :
  map fst (dict_set k v d)
  = if dict_mem k d then map fst d else (map fst d ++ [k])%list.
Proof.
  unfold dict_mem. induction d as [|[k0 v0] d IH]; simpl; [reflexivity|].
  destruct (String.eqb k k0) eqn:E; simpl.
  - apply String.eqb_eq in E. now subst.
  - rewrite IH. now destruct (dict_get k d).
Qed.

Lemma dict_mem_set_ne k k' v d :
  k <> k' -> dict_mem k' (dict_set k v d) = dict_mem k' d.
Proof. intros Hne. unfold dict_mem. now rewrite dict_get_set_ne. Qed.
End DictSetFacts.

(** ** The merger: disjoint trees, keys, paths *)

(** One turn of the loop on a dict is an assignment to the result, unless
    the recursive call raises. *)
Lemma merge_loop_step rec key val rest d r :
  Config.merge_loop rec ((key, val) :: rest) (VDict d) = inr r ->
  exists x, Config.merge_loop rec rest (VDict (dict_set key x d)) = inr r.
Proof.
  rewrite merge_loop_cons. intros Hrun.
  destruct val as [s|l|sub]; [eauto..|].
  destruct (dict_get key d) as [old|]; [|eauto].
  destruct (rec old (VDict sub)) as [e|merged]; [discriminate|eauto].
Qed.

Lemma merge_loop_disjoint rec items : forall d,
  NoDup (map fst items) ->
  (forall k, k ∈ map fst items -> dict_get k d = None) ->
  Config.merge_loop rec items (VDict d) = inr (VDict (d ++ items)%list).
Proof.
  induction items as [|[key val] rest IH]; intros d Hnd Hfresh.
  - simpl. now rewrite app_nil_r.
  - simpl in Hnd. apply NoDup_cons in Hnd as [Hkey Hnd].
    assert (Hk : dict_get key d = None)
      by (apply Hfresh; simpl; apply elem_of_cons; now left).
    rewrite merge_loop_cons, Hk.
    replace (match val with VDict _ | _ =>
               Config.merge_loop rec rest (VDict (dict_set key val d)) end)
      with (Config.merge_loop rec rest (VDict (dict_set key val d)))
      by now destruct val.
    rewrite dict_set_fresh by exact Hk.
    rewrite IH; [now rewrite <- List.app_assoc|exact Hnd|].
    intros k Hin. rewrite <- (dict_set_fresh key val d Hk).
    rewrite dict_get_set_ne.
    + apply Hfresh. simpl. apply elem_of_cons. now right.
    + intros ->. contradiction.
Qed.

Lemma forallb_fresh (d : dict) (ks : list string) :
  forallb (fun k => negb (dict_mem k d)) ks = true ->
  forall k, k ∈ ks -> dict_get k d = None.
Proof.
  rewrite forallb_forall. intros Hall k Hin.
  apply list_elem_of_In, Hall, negb_true_iff in Hin. now apply dict_mem_false.
Qed.

(** When no key of the override is a key of the base, and the override's
    keys are distinct, the merge returns the entries of the base followed
    by the entries of the override, each subtree as it was: nothing is
    merged and nothing raises.  So merging onto the empty mapping (what
    [load_yaml] gives for a missing file) returns the override. *)
Theorem merge_configs_disjoint (d items : dict) :
  distinct (map fst items) = true ->
  forallb (fun k => negb (dict_mem k d)) (map fst items) = true ->
  Config.merge_configs (VDict d) (VDict items) = inr (VDict (d ++ items)%list).
Proof.
  intros Hnd Hfresh. rewrite merge_configs_dict. cbn [py_copy ret].
  apply merge_loop_disjoint; [now apply distinct_NoDup|now apply forallb_fresh].
Qed.

Lemma merge_configs_disjoint_witness :
  Config.merge_configs (VDict []) sample_override_tree = inr sample_override_tree
  /\ Config.merge_configs (VDict [("b", VInt 3)]) sample_override_tree
     = inr (VDict [("b", VInt 3); ("a", VDict [("y", VInt 5)]); ("c", VList [])]).
Proof.
  split.
  - exact (merge_configs_disjoint [] [("a", VDict [("y", VInt 5)]); ("c", VList [])]
             eq_refl eq_refl).
  - exact (merge_configs_disjoint [("b", VInt 3)]
             [("a", VDict [("y", VInt 5)]); ("c", VList [])] eq_refl eq_refl).
Defined.

Lemma merge_loop_keys rec items : forall d r,
  NoDup (map fst items) ->
  Config.merge_loop rec items (VDict d) = inr r ->
  exists d',
    r = VDict d'
    /\ map fst d'
       = (map fst d ++ List.filter (fun k => negb (dict_mem k d)) (map fst items))%list.
Proof.
  induction items as [|[key val] rest IH]; intros d r Hnd Hrun.
  - simpl in Hrun. injection Hrun as <-. exists d. now rewrite app_nil_r.
  - simpl in Hnd. apply NoDup_cons in Hnd as [Hkey Hnd].
    apply merge_loop_step in Hrun as [x Hrun].
    apply IH in Hrun as (d' & -> & Hkeys); [|exact Hnd].
    exists d'. split; [reflexivity|]. rewrite Hkeys, keys_dict_set. simpl.
    assert (Hsame : List.filter (fun k => negb (dict_mem k (dict_set key x d)))
                      (map fst rest)
                    = List.filter (fun k => negb (dict_mem k d)) (map fst rest)).
    { apply List.filter_ext_in. intros k Hin. rewrite dict_mem_set_ne; [reflexivity|].
      intros ->. apply Hkey. now apply list_elem_of_In. }
    rewrite Hsame. destruct (dict_mem key d); simpl; [reflexivity|].
    now rewrite <- List.app_assoc.
Qed.

(** The keys of a merge result are the keys of the base, in the base's
    order, followed by the keys the override adds, in the override's order:
    no key is dropped and none is moved. *)
Theorem merge_configs_keys (d items d' : dict) :
  distinct (map fst items) = true ->
  Config.merge_configs (VDict d) (VDict items) = inr (VDict d') ->
  map fst d'
  = (map fst d ++ List.filter (fun k => negb (dict_mem k d)) (map fst items))%list.
Proof.
  intros Hnd Hrun. rewrite merge_configs_dict in Hrun. cbn [py_copy ret] in Hrun.
  apply merge_loop_keys in Hrun as (d'' & [= <-] & Hkeys); [exact Hkeys|].
  now apply distinct_NoDup.
Qed.

Lemma merge_configs_keys_witness :
  map fst [("a", VDict [("x", VInt 1); ("y", VInt 5)]); ("b", VInt 3); ("c", VList [])]
  = ["a"; "b"; "c"].
Proof.
  exact (merge_configs_keys
           [("a", VDict [("x", VInt 1); ("y", VInt 2)]); ("b", VInt 3)]
           [("a", VDict [("y", VInt 5)]); ("c", VList [])]
           [("a", VDict [("x", VInt 1); ("y", VInt 5)]); ("b", VInt 3); ("c", VList [])]
           eq_refl eq_refl).
Defined.

Lemma merge_configs_not_dict base ovr m :
  Config.merge_configs base ovr = inr m -> isinstance_dict ovr = true.
Proof.
  destruct ovr as [s|l|items]; [| |reflexivity];
    destruct base as [s'|l'|d]; discriminate.
Qed.

Lemma merge_configs_path : forall p base ovr m v,
  Config.merge_configs base ovr = inr m ->
  distinct_along p ovr = true ->
  get_path p ovr = Some v ->
  isinstance_dict v = false ->
  get_path p m = Some v.
Proof.
  induction p as [|k p IH]; intros base ovr m v Hrun Hnd Hget Hv.
  - simpl in Hget. injection Hget as <-.
    apply merge_configs_not_dict in Hrun. congruence.
  - destruct ovr as [s|l|items]; try discriminate. simpl in Hget, Hnd.
    destruct (dict_get k items) as [x|] eqn:Hx; [|discriminate].
    apply andb_true_iff in Hnd as [Hnd Hsub]. apply distinct_NoDup in Hnd.
    assert (Hin : (k, x) ∈ items) by now apply dict_get_Some_elem.
    destruct items as [|item rest]; [now apply elem_of_nil in Hin|].
    destruct (merge_configs_base_dict _ _ _ _ Hrun) as [d ->].
    destruct (merge_configs_override_key _ _ _ _ _ Hrun Hnd Hin) as (d' & -> & Hk).
    simpl. destruct x as [s|l|sub].
    + rewrite Hk. exact Hget.
    + rewrite Hk. exact Hget.
    + destruct (dict_get k d) as [old|].
      * destruct Hk as (merged & Hm & ->). eapply IH; eassumption.
      * rewrite Hk. exact Hget.
Qed.

Lemma untouched_no_path : forall p v, untouched p v = true -> get_path p v = None.
Proof.
  induction p as [|k p IH]; intros v Hun; [discriminate|].
  destruct v as [s|l|d]; try discriminate. simpl in *.
  destruct (dict_get k d) as [x|]; [now apply IH|reflexivity].
Qed.

(** What the merge result holds at a path, at any depth.  A value of the
    override that is no mapping (a scalar or a list) is in the result at
    the same path, whatever the base holds there: it replaces the base's
    value and is never combined with it.  A path that the override does not
    reach leads in the result to what it leads to in the base: the
    siblings of the overridden keys survive. *)
Theorem merge_configs_paths (p : list string) (base ovr m : value) :
  Config.merge_configs base ovr = inr m ->
  distinct_along p ovr = true ->
  (forall v, get_path p ovr = Some v -> isinstance_dict v = false ->
             get_path p m = Some v)
  /\ (untouched p ovr = true -> get_path p m = get_path p base).
Proof.
  intros Hrun Hnd. split.
  - intros v Hget Hv. eapply merge_configs_path; eassumption.
  - revert base ovr m Hrun Hnd.
    induction p as [|k p IH]; intros base ovr m Hrun Hnd Hun; [discriminate|].
    destruct ovr as [s|l|items]; try discriminate. simpl in Hun, Hnd.
    apply andb_true_iff in Hnd as [Hnd Hsub]. apply distinct_NoDup in Hnd.
    destruct items as [|item rest].
    + destruct base as [s|l|d]; simpl in Hrun; [discriminate|congruence..].
    + destruct (merge_configs_base_dict _ _ _ _ Hrun) as [d ->].
      destruct (dict_get k (item :: rest)) as [x|] eqn:Hx.
      * assert (Hin : (k, x) ∈ item :: rest) by now apply dict_get_Some_elem.
        destruct (merge_configs_override_key _ _ _ _ _ Hrun Hnd Hin)
          as (d' & -> & Hk).
        simpl. destruct x as [s|l|sub]; [destruct p; discriminate Hun..|].
        destruct (dict_get k d) as [old|].
        -- destruct Hk as (merged & Hm & ->). eapply IH; eassumption.
        -- rewrite Hk. now apply untouched_no_path.
      * apply dict_get_None in Hx.
        destruct (merge_configs_other_keys _ _ _ _ Hrun Hx) as (d' & -> & Hk).
        simpl. now rewrite Hk.
Qed.

Lemma merge_configs_paths_witness :
  get_path ["a"; "y"]
    (VDict [("a", VDict [("x", VInt 1); ("y", VInt 5)]); ("b", VInt 3); ("c", VList [])])
  = Some (VInt 5)
  /\ get_path ["a"; "x"]
       (VDict [("a", VDict [("x", VInt 1); ("y", VInt 5)]); ("b", VInt 3); ("c", VList [])])
     = get_path ["a"; "x"] sample_base_tree.
Proof.
  split.
  - exact (proj1 (merge_configs_paths ["a"; "y"] sample_base_tree sample_override_tree
                    _ eq_refl eq_refl) (VInt 5) eq_refl eq_refl).
  - exact (proj2 (merge_configs_paths ["a"; "x"] sample_base_tree sample_override_tree
                    _ eq_refl eq_refl) eq_refl).
Defined.

(** ** The merger: when it returns *)

Lemma mergeable_loop (d : dict) : forall items d_cur,
  NoDup (map fst items) ->
  (forall k, k ∈ map fst items -> dict_get k d_cur = dict_get k d) ->
  Forall (fun kv => forall base,
              mergeable base (snd kv) = true
              <-> exists r, Config.merge_configs base (snd kv) = inr r) items ->
  forallb (fun kv =>
             match snd kv, dict_get (fst kv) d with
             | VDict _, Some old => mergeable old (snd kv)
             | _, _ => true
             end) items = true
  <-> exists r, Config.merge_loop Config.merge_configs items (VDict d_cur) = inr r.
Proof.
  induction items as [|[key val] rest IH]; intros d_cur Hnd Hagree Hall.
  - simpl. split; eauto.
  - simpl in Hnd. apply NoDup_cons in Hnd as [Hkey Hnd].
    apply Forall_cons in Hall as [Hval Hall]. simpl in Hval.
    assert (Hk : dict_get key d_cur = dict_get key d)
      by (apply Hagree; simpl; apply elem_of_cons; now left).
    assert (Hnext : forall x,
               forallb (fun kv =>
                          match snd kv, dict_get (fst kv) d with
                          | VDict _, Some old => mergeable old (snd kv)
                          | _, _ => true
                          end) rest = true
               <-> exists r, Config.merge_loop Config.merge_configs rest
                               (VDict (dict_set key x d_cur)) = inr r).
    { intros x. apply IH; [exact Hnd| |exact Hall].
      intros k Hin. rewrite dict_get_set_ne.
      - apply Hagree. simpl. apply elem_of_cons. now right.
      - intros ->. contradiction. }
    rewrite merge_loop_cons, Hk. cbn [forallb fst snd].
    destruct val as [s|l|sub]; [apply Hnext..|].
    destruct (dict_get key d) as [old|]; [|apply Hnext].
    rewrite andb_true_iff, Hval. split.
    + intros [[merged Hm] Hrest]. rewrite Hm. now apply Hnext.
    + intros [r Hr].
      destruct (Config.merge_configs old (VDict sub)) as [e|merged] eqn:Hm;
        [discriminate|].
      split; [eauto|]. apply (Hnext merged). eauto.
Qed.

(** For an override whose dicts have distinct keys, the merger returns
    exactly when the pair of trees is [mergeable]: the override is a
    mapping, the base is a mapping (or a list, if the override is empty),
    and wherever the override holds a mapping at a key of the base, the
    base's value there is mergeable with it in turn.  On every other pair
    the merger raises: a scalar in the base under a mapping of the
    override, or a list under a mapping that is not empty. *)
Theorem merge_configs_returns_iff (base override : value) :
  distinct_keys override = true ->
  (mergeable base override = true
   <-> exists r, Config.merge_configs base override = inr r).
Proof.
  revert base.
  induction override as [s|l _|items IH] using value_ind'; intros base Hnd.
  - simpl. split; [discriminate|]. intros [r Hr]. destruct base; discriminate.
  - simpl. split; [discriminate|]. intros [r Hr]. destruct base; discriminate.
  - simpl in Hnd. apply andb_true_iff in Hnd as [Hnd Hsub].
    destruct base as [s|l|d].
    + simpl. split; [discriminate|]. intros [r Hr]. discriminate.
    + destruct items as [|item rest].
      * simpl. split; eauto.
      * rewrite merge_configs_dict. cbn [py_copy ret mergeable].
        rewrite merge_loop_list_raises. split; [discriminate|]. intros [r Hr].
        discriminate.
    + rewrite merge_configs_dict. cbn [py_copy ret mergeable].
      apply mergeable_loop; [now apply distinct_NoDup|reflexivity|].
      rewrite forallb_forall in Hsub. rewrite List.Forall_forall in IH.
      apply List.Forall_forall. intros kv Hin base. apply IH; [exact Hin|].
      now apply Hsub.
Qed.

Lemma merge_configs_returns_iff_witness :
  (exists r, Config.merge_configs sample_base_tree sample_override_tree = inr r)
  /\ ~ (exists r, Config.merge_configs (VDict [("a", VInt 1)])
                    (VDict [("a", VDict [("b", VInt 2)])]) = inr r).
Proof.
  split.
  - exact (proj1 (merge_configs_returns_iff sample_base_tree sample_override_tree
                    eq_refl) eq_refl).
  - intros Hr.
    apply (proj2 (merge_configs_returns_iff (VDict [("a", VInt 1)])
                    (VDict [("a", VDict [("b", VInt 2)])]) eq_refl)) in Hr.
    discriminate Hr.
Defined.

Lemma merge_loop_same (d : dict) : forall items,
  (forall k v, (k, v) ∈ items -> dict_get k d = Some v) ->
  Forall (fun kv => match snd kv with
                    | VDict sub => Config.merge_configs (snd kv) (snd kv) = inr (snd kv)
                    | _ => True
                    end) items ->
  Config.merge_loop Config.merge_configs items (VDict d) = inr (VDict d).
Proof.
  induction items as [|[key val] rest IH]; intros Hin Hall; [reflexivity|].
  apply Forall_cons in Hall as [Hval Hall]. simpl in Hval.
  assert (Hk : dict_get key d = Some val) by (apply Hin, elem_of_cons; now left).
  assert (Hrest : Config.merge_loop Config.merge_configs rest (VDict d) = inr (VDict d)).
  { apply IH; [|exact Hall]. intros k v Hkv. apply Hin, elem_of_cons. now right. }
  rewrite merge_loop_cons, Hk.
  destruct val as [s|l|sub]; rewrite ?Hval, dict_set_same by exact Hk; exact Hrest.
Qed.

(** Merging a mapping with itself returns it unchanged, entries and order:
    the merger is idempotent on every mapping whose dicts have distinct
    keys. *)
Theorem merge_configs_idempotent (d : dict) :
  distinct_keys (VDict d) = true ->
  Config.merge_configs (VDict d) (VDict d) = inr (VDict d).
Proof.
  assert (Hall : forall t,
             distinct_keys t = true ->
             match t with
             | VDict _ => Config.merge_configs t t = inr t
             | _ => True
             end).
  { induction t as [s|l _|items IH] using value_ind'; intros Hnd; [exact I..|].
    simpl in Hnd. apply andb_true_iff in Hnd as [Hnd Hsub].
    apply distinct_NoDup in Hnd.
    rewrite merge_configs_dict. cbn [py_copy ret]. apply merge_loop_same.
    - intros k v Hin. now apply dict_get_elem.
    - rewrite forallb_forall in Hsub. rewrite List.Forall_forall in IH.
      apply List.Forall_forall. intros kv Hin.
      specialize (IH kv Hin (Hsub kv Hin)). now destruct (snd kv). }
  intros Hnd. exact (Hall (VDict d) Hnd).
Qed.

Lemma merge_configs_idempotent_witness :
  Config.merge_configs default_yaml default_yaml = inr default_yaml.
Proof.
  exact (merge_configs_idempotent
           [("app", VDict [("name", VStr "traderai"); ("log_level", VStr "INFO")]);
            ("data",
             VDict [("providers",
                     VList [VDict [("name", VStr "alpaca");
                                   ("endpoint", VStr "https://paper-api.alpaca.markets")]]);
                    ("cache", VDict [("redis_url", VStr "redis://localhost:6379/0")])]);
            ("trading",
             VDict [("markets", VList [VStr "stocks"; VStr "crypto"]);
                    ("max_position_size", VFloat float_0_1);
                    ("risk", VDict [("max_drawdown", VFloat float_0_2);
                                    ("var_limit", VFloat float_0_05)])])]
           eq_refl).
Defined.

(** ** Reading an accepted [Settings] backwards *)

Lemma defaulted_inv {A} name (f : value -> vres A) default kw a :
  defaulted name f default kw = vok a ->
  match dict_get name kw with
  | None => a = default
  | Some v => v <> VNone /\ f v = vok a
  end.
Proof.
  unfold defaulted. intros Hok. apply at_loc_inv in Hok.
  destruct (dict_get name kw) as [v|]; [|now injection Hok].
  destruct v as [[| | | |]| |]; try (split; [discriminate|exact Hok]).
  discriminate.
Qed.

Lemma optional_inv {A} name (f : value -> vres A) kw o :
  optional name f kw = vok o ->
  match dict_get name kw with
  | None | Some VNone => o = None
  | Some v => exists a, f v = vok a /\ o = Some a
  end.
Proof.
  unfold optional. intros Hok. apply at_loc_inv in Hok.
  destruct (dict_get name kw) as [v|]; [|now injection Hok].
  destruct v as [[| | | |]| |];
    try (apply vmap_inv in Hok as (a & Ha & ->); now exists a).
  now injection Hok.
Qed.

Lemma list_items_inv {A} (f : value -> vres A) l : forall i rs,
  list_items f i l = vok rs -> Forall2 (fun v r => f v = vok r) l rs.
Proof.
  induction l as [|v l IH]; intros i rs Hok; simpl in Hok.
  - injection Hok as <-. constructor.
  - apply vmap_inv in Hok as ([r rs'] & Hboth & ->).
    apply both_inv in Hboth as [Hv Hl]. apply at_loc_inv in Hv.
    constructor; [exact Hv|]. eapply IH. exact Hl.
Qed.

Lemma list_validator_inv {A} (f : value -> vres A) v rs :
  list_validator f v = vok rs ->
  exists l, v = VList l /\ Forall2 (fun x r => f x = vok r) l rs.
Proof.
  destruct v as [s|l|d]; try discriminate. simpl. intros Hok.
  exists l. split; [reflexivity|]. eapply list_items_inv. exact Hok.
Qed.

Section Accepted.
Context `{PyBuiltins}.

Lemma str_validator_str s r : str_validator (VStr s) = vok r -> r = s.
Proof. simpl. now intros [= <-]. Qed.

Lemma validate_log_level_inv s r :
  validate_log_level s = vok r -> r = s /\ str_in s valid_levels = true.
Proof.
  unfold validate_log_level. destruct (str_in s valid_levels); simpl; [|discriminate].
  now intros [= <-].
Qed.

Lemma validate_provider_name_inv s r :
  validate_provider_name s = vok r -> r = s /\ str_in s valid_providers = true.
Proof.
  unfold validate_provider_name. destruct (str_in s valid_providers); simpl;
    [|discriminate].
  now intros [= <-].
Qed.

Lemma validate_markets_inv l r :
  validate_markets l = vok r ->
  r = l /\ forallb (fun m => str_in m valid_markets) l = true.
Proof.
  unfold validate_markets. destruct (forallb _ l); simpl; [|discriminate].
  now intros [= <-].
Qed.

Lemma AppConfig_validate_inv kw a :
  AppConfig_validate kw = vok a ->
  defaulted "name" str_validator "traderai" kw = vok (app_name a)
  /\ defaulted "log_level" (fun v => and_then (str_validator v) validate_log_level)
       "INFO" kw = vok (log_level a).
Proof.
  unfold AppConfig_validate. intros Hok.
  apply vmap_inv in Hok as ([n l] & Hboth & ->). now apply both_inv in Hboth.
Qed.

Lemma CacheConfig_validate_inv kw c :
  CacheConfig_validate kw = vok c ->
  defaulted "redis_url" str_validator "redis://localhost:6379/0" kw = vok (redis_url c).
Proof.
  unfold CacheConfig_validate. intros Hok. now apply vmap_inv in Hok as (u & Hu & ->).
Qed.

Lemma DataProviderConfig_validate_inv kw p :
  DataProviderConfig_validate kw = vok p ->
  required "name"
    (fun v => and_then (and_then (str_validator v) min_length_1) validate_provider_name)
    kw = vok (provider_name p)
  /\ optional "api_key" str_validator kw = vok (provider_api_key p)
  /\ optional "secret_key" str_validator kw = vok (provider_secret_key p)
  /\ required "endpoint" str_validator kw = vok (provider_endpoint p).
Proof.
  unfold DataProviderConfig_validate. intros Hok.
  apply vmap_inv in Hok as ([n [a [s e]]] & Hboth & ->).
  apply both_inv in Hboth as [Hn Hrest]. apply both_inv in Hrest as [Ha Hrest].
  apply both_inv in Hrest as [Hs He]. auto.
Qed.

Lemma DataConfig_validate_inv kw d :
  DataConfig_validate kw = vok d ->
  required "providers" (list_validator (model_validator DataProviderConfig_validate)) kw
  = vok (providers d)
  /\ required "cache" (model_validator CacheConfig_validate) kw = vok (cache d).
Proof.
  unfold DataConfig_validate. intros Hok.
  apply vmap_inv in Hok as ([p c] & Hboth & ->). now apply both_inv in Hboth.
Qed.

Lemma RiskConfig_validate_fields kw r :
  RiskConfig_validate kw = vok r ->
  required "max_drawdown" unit_fraction kw = vok (max_drawdown r)
  /\ required "var_limit" unit_fraction kw = vok (var_limit r)
  /\ optional "max_latency_ms" int_validator kw = vok (max_latency_ms r).
Proof.
  unfold RiskConfig_validate. intros Hok.
  apply vmap_inv in Hok as ([d [v l]] & Hboth & ->).
  apply both_inv in Hboth as [Hd Hrest]. apply both_inv in Hrest as [Hv Hl]. auto.
Qed.

Lemma TradingConfig_validate_fields kw t :
  TradingConfig_validate kw = vok t ->
  required "markets"
    (fun v => and_then (list_validator str_validator v) validate_markets) kw
  = vok (markets t)
  /\ required "max_position_size" unit_fraction kw = vok (max_position_size t)
  /\ required "risk" (model_validator RiskConfig_validate) kw = vok (risk t).
Proof.
  unfold TradingConfig_validate. intros Hok.
  apply vmap_inv in Hok as ([m [p r]] & Hboth & ->).
  apply both_inv in Hboth as [Hm Hrest]. apply both_inv in Hrest as [Hp Hr]. auto.
Qed.

Lemma Settings_new_fields `{CoreTypes} config strats rls S :
  Settings_new config strats rls = inr S ->
  required "app" (model_validator AppConfig_validate) config = vok (app S)
  /\ required "data" (model_validator DataConfig_validate) config = vok (data S)
  /\ required "trading" (model_validator TradingConfig_validate) config = vok (trading S)
  /\ forbid_extra settings_fields config = vok tt
  /\ strategies S = strats /\ rules S = rls.
Proof.
  unfold Settings_new, construct. intros Hok.
  destruct (Settings_validate config strats rls) as [e|[errs|S']] eqn:Hval;
    try discriminate.
  injection Hok as ->. unfold Settings_validate in Hval.
  apply vmap_inv in Hval as ([a [d [t u]]] & Hboth & ->).
  apply both_inv in Hboth as [Ha Hrest]. apply both_inv in Hrest as [Hd Hrest].
  apply both_inv in Hrest as [Ht Hu]. destruct u. simpl. auto 10.
Qed.

(** A model field that holds a dict: the model is validated on its
    entries. *)
Lemma required_model_inv {A} name (validate : dict -> vres A) config a :
  required name (model_validator validate) config = vok a ->
  exists v kw, dict_get name config = Some v /\ py_dict_of v = Some kw
               /\ validate kw = vok a.
Proof.
  intros Hok. apply required_inv in Hok as (v & Hget & Hv).
  apply model_validator_inv in Hv as (kw & Hkw & Hval). eauto.
Qed.

Lemma strings_validated l : forall i,
  list_items str_validator i (map (fun s => VStr s) l) = vok l.
Proof.
  induction l as [|s l IH]; intros i; simpl; [reflexivity|]. now rewrite IH.
Qed.
End Accepted.

(** Every [Settings] that the schema accepts has a log level among the five
    level names, providers whose names are among the five provider names,
    and markets among the four market names; its strategies and rules are
    the mappings that were passed in. *)
Theorem settings_names_are_valid `{PyBuiltins} `{CoreTypes}
    (config : dict) (strats : list (string * StrategyConfig))
    (rls : list (string * RiskPolicy)) (S : Settings) :
  Settings_new config strats rls = inr S ->
  str_in (log_level (app S)) valid_levels = true
  /\ forallb (fun p => str_in (provider_name p) valid_providers) (providers (data S)) = true
  /\ forallb (fun m => str_in m valid_markets) (markets (trading S)) = true
  /\ strategies S = strats /\ rules S = rls.
Proof.
  intros Hok. apply Settings_new_fields in Hok as (Ha & Hd & Ht & _ & Hs & Hr).
  split; [|split; [|split; [|auto]]].
  - apply required_model_inv in Ha as (v & kw & _ & _ & Ha).
    apply AppConfig_validate_inv in Ha as [_ Hl]. apply defaulted_inv in Hl.
    destruct (dict_get "log_level" kw) as [x|]; [|now rewrite Hl].
    destruct Hl as [_ Hl]. apply and_then_inv in Hl as (s & _ & Hl).
    now apply validate_log_level_inv in Hl as [-> Hl].
  - apply required_model_inv in Hd as (v & kw & _ & _ & Hd).
    apply DataConfig_validate_inv in Hd as [Hp _].
    apply required_inv in Hp as (x & _ & Hp).
    apply list_validator_inv in Hp as (l & _ & Hall).
    apply forallb_forall. intros p Hin.
    induction Hall as [|y q l qs Hy Hall IH]; [contradiction|].
    destruct Hin as [<-|Hin]; [|now apply IH].
    apply model_validator_inv in Hy as (pk & _ & Hq).
    apply DataProviderConfig_validate_inv in Hq as (Hn & _).
    apply required_inv in Hn as (n & _ & Hn).
    apply and_then_inv in Hn as (s & _ & Hn).
    now apply validate_provider_name_inv in Hn as [-> Hn].
  - apply required_model_inv in Ht as (v & kw & _ & _ & Ht).
    apply TradingConfig_validate_fields in Ht as (Hm & _).
    apply required_inv in Hm as (x & _ & Hm).
    apply and_then_inv in Hm as (l & _ & Hm).
    now apply validate_markets_inv in Hm as [-> Hm].
Qed.

Lemma settings_names_are_valid_witness :
  str_in (log_level (app (fractions_settings float_0_2 float_0_05 float_0_1)))
    valid_levels = true
  /\ forallb (fun p => str_in (provider_name p) valid_providers)
       (providers (data (fractions_settings float_0_2 float_0_05 float_0_1))) = true
  /\ forallb (fun m => str_in m valid_markets)
       (markets (trading (fractions_settings float_0_2 float_0_05 float_0_1))) = true.
Proof.
  assert (Hok : Settings_new (H := plain_builtins) (H0 := plain_core)
                  (fractions_yaml float_0_2 float_0_05 float_0_1) [] []
                = inr (fractions_settings float_0_2 float_0_05 float_0_1))
    by (vm_compute; reflexivity).
  destruct (settings_names_are_valid (H := plain_builtins) (H0 := plain_core)
              _ [] [] _ Hok) as (Hl & Hp & Hm & _).
  auto.
Defined.

(** ** The pipeline of [get_settings], stage by stage *)

Section Pipeline.
Context `{PyBuiltins} `{CoreTypes}.
Variable w : world.

Lemma get_settings_stages env :
  get_settings w env
  = (config <- base_config w env ;;
     overrides <- env_overrides w config ;;
     merged <- Config.merge_configs config overrides ;;
     strats <- load_strategy_configs w "configs/strategies" ;;
     d <- as_dict merged ;;
     rls <- load_rules_configs w "configs/rules" ;;
     match Settings_new d strats rls with
     | inl (ValidationError model errs) =>
         raise (ValueError ("Configuration validation error: "
                            ++ validation_error_str model errs))
     | inl (ValueError msg) | inl (UnicodeDecodeError msg) =>
         raise (ValueError ("Configuration validation error: " ++ msg))
     | r => r
     end).
Proof.
  unfold get_settings, base_config, bind. simpl.
  destruct (load_yaml w "configs/default.yaml"); [reflexivity|].
  destruct (load_yaml w _); reflexivity.
Qed.

Lemma as_dict_inv merged d : as_dict merged = inr d -> merged = VDict d.
Proof.
  destruct merged as [s|l|md]; simpl; try discriminate. now intros [= <-].
Qed.

(** What a call that returns went through. *)
Lemma get_settings_inv env S :
  get_settings w env = inr S ->
  exists config ovr merged strats rls,
    base_config w env = inr config
    /\ env_overrides w config = inr ovr
    /\ Config.merge_configs config ovr = inr (VDict merged)
    /\ load_strategy_configs w "configs/strategies" = inr strats
    /\ load_rules_configs w "configs/rules" = inr rls
    /\ Settings_new merged strats rls = inr S.
Proof.
  rewrite get_settings_stages. unfold bind. intros Hok.
  destruct (base_config w env) as [e|config]; [discriminate|].
  destruct (env_overrides w config) as [e|ovr] eqn:Hovr; [discriminate|].
  destruct (Config.merge_configs config ovr) as [e|merged] eqn:Hm; [discriminate|].
  destruct (load_strategy_configs w _) as [e|strats]; [discriminate|].
  destruct (as_dict merged) as [e|d] eqn:Hd; [discriminate|].
  apply as_dict_inv in Hd. subst merged.
  destruct (load_rules_configs w _) as [e|rls]; [discriminate|].
  exists config, ovr, d, strats, rls.
  destruct (Settings_new d strats rls) as [[]|S']; try discriminate Hok.
  injection Hok as <-. auto 10.
Qed.

End Pipeline.

(** The override tree, entry by entry. *)
Section OverrideShape.
Context `{PyBuiltins}.
Variable w : world.

Lemma env_overrides_parts config ovr :
  env_overrides w config = inr ovr ->
  exists a d t,
    app_overrides w config = inr a /\ data_overrides w config = inr d
    /\ trading_overrides w config = inr t
    /\ ovr = VDict [("app", a); ("data", d); ("trading", t)].
Proof.
  unfold env_overrides, bind. intros Hok.
  destruct (app_overrides w config) as [e|a]; [discriminate|].
  destruct (data_overrides w config) as [e|d]; [discriminate|].
  destruct (trading_overrides w config) as [e|t]; [discriminate|].
  injection Hok as <-. now exists a, d, t.
Qed.

Lemma app_overrides_inv config a :
  app_overrides w config = inr a ->
  exists bn bl,
    get2 config "app" "name" VNone = inr bn
    /\ get2 config "app" "log_level" VNone = inr bl
    /\ a = VDict [("name", getenv w "APP_NAME" bn); ("log_level", getenv w "LOG_LEVEL" bl)].
Proof.
  unfold app_overrides, bind. intros Hok.
  destruct (get2 config "app" "name" VNone) as [e|bn]; [discriminate|].
  destruct (get2 config "app" "log_level" VNone) as [e|bl]; [discriminate|].
  injection Hok as <-. now exists bn, bl.
Qed.

Lemma data_overrides_inv config d :
  data_overrides w config = inr d ->
  exists bp pl ps br,
    get2 config "data" "providers" (VList []) = inr bp
    /\ py_iter bp = inr pl
    /\ mapM (provider_override w) pl = inr ps
    /\ get3 config "data" "cache" "redis_url" VNone = inr br
    /\ d = VDict [("providers", VList ps);
                  ("cache", VDict [("redis_url", getenv w "REDIS_URL" br)])].
Proof.
  unfold data_overrides, bind. intros Hok.
  destruct (get2 config "data" "providers" (VList [])) as [e|bp]; [discriminate|].
  destruct (py_iter bp) as [e|pl] eqn:Hpl; [discriminate|].
  destruct (mapM (provider_override w) pl) as [e|ps] eqn:Hps; [discriminate|].
  destruct (get3 config "data" "cache" "redis_url" VNone) as [e|br]; [discriminate|].
  injection Hok as <-. now exists bp, pl, ps, br.
Qed.

Lemma float_override_inv var base v :
  float_override w var base = inr v ->
  exists b f, base = inr b /\ py_float (getenv w var b) = inr f /\ v = VFloat f.
Proof.
  unfold float_override, bind. intros Hok. destruct base as [e|b]; [discriminate|].
  destruct (py_float (getenv w var b)) as [e|f] eqn:Hf; [discriminate|].
  injection Hok as <-. now exists b, f.
Qed.

Lemma int_override_inv var base v :
  int_override w var base = inr v ->
  exists b z, base = inr b /\ py_int (getenv w var b) = inr z /\ v = VInt z.
Proof.
  unfold int_override, bind. intros Hok. destruct base as [e|b]; [discriminate|].
  destruct (py_int (getenv w var b)) as [e|z] eqn:Hz; [discriminate|].
  injection Hok as <-. now exists b, z.
Qed.

Lemma trading_overrides_inv config t :
  trading_overrides w config = inr t ->
  exists bm b1 f1 b2 f2 b3 f3 b4 z,
    get2 config "trading" "markets" (VList []) = inr bm
    /\ get2 config "trading" "max_position_size" (VFloat float_0_1) = inr b1
    /\ py_float (getenv w "MAX_POSITION_SIZE" b1) = inr f1
    /\ get3 config "trading" "risk" "max_drawdown" (VFloat float_0_2) = inr b2
    /\ py_float (getenv w "MAX_DRAWDOWN" b2) = inr f2
    /\ get3 config "trading" "risk" "var_limit" (VFloat float_0_05) = inr b3
    /\ py_float (getenv w "VAR_LIMIT" b3) = inr f3
    /\ get3 config "trading" "risk" "max_latency_ms" (VInt 1000) = inr b4
    /\ py_int (getenv w "MAX_LATENCY_MS" b4) = inr z
    /\ t = VDict [("markets",
                   VList (map (fun s => VStr s)
                              (split comma (py_str (getenv w "MARKETS" bm)))));
                  ("max_position_size", VFloat f1);
                  ("risk", VDict [("max_drawdown", VFloat f2); ("var_limit", VFloat f3);
                                  ("max_latency_ms", VInt z)])].
Proof.
  unfold trading_overrides, risk_overrides, markets_override. unfold bind at 1 2 3 4 5 6 7.
  intros Hok.
  destruct (get2 config "trading" "markets" (VList [])) as [e|bm]; [discriminate|].
  destruct (float_override w "MAX_POSITION_SIZE" _) as [e|v1] eqn:H1; [discriminate|].
  destruct (float_override w "MAX_DRAWDOWN" _) as [e|v2] eqn:H2; [discriminate|].
  destruct (float_override w "VAR_LIMIT" _) as [e|v3] eqn:H3; [discriminate|].
  destruct (int_override w "MAX_LATENCY_MS" _) as [e|v4] eqn:H4; [discriminate|].
  apply float_override_inv in H1 as (b1 & f1 & Hb1 & Hf1 & ->).
  apply float_override_inv in H2 as (b2 & f2 & Hb2 & Hf2 & ->).
  apply float_override_inv in H3 as (b3 & f3 & Hb3 & Hf3 & ->).
  apply int_override_inv in H4 as (b4 & z & Hb4 & Hz & ->).
  injection Hok as <-. exists bm, b1, f1, b2, f2, b3, f3, b4, z. auto 12.
Qed.
End OverrideShape.

(** ** From the merged tree to the fields of [Settings] *)

Lemma get_path_one k (d : dict) x :
  get_path [k] (VDict d) = Some x <-> dict_get k d = Some x.
Proof. simpl. destruct (dict_get k d); split; congruence. Qed.

Lemma get_path_cons k p (d : dict) x :
  get_path (k :: p) (VDict d) = Some x <->
  exists y, dict_get k d = Some y /\ get_path p y = Some x.
Proof.
  simpl. destruct (dict_get k d) as [y|].
  - split; [eauto|]. now intros (y' & [= <-] & Hy).
  - split; [discriminate|]. now intros (y' & Hf & _).
Qed.

Lemma get_path_nonempty_dict k p v x :
  get_path (k :: p) v = Some x -> exists d, v = VDict d.
Proof. destruct v as [s|l|d]; try discriminate. eauto. Qed.

Lemma required_at {A} name (f : value -> vres A) kw a x :
  required name f kw = vok a -> dict_get name kw = Some x -> f x = vok a.
Proof.
  intros Hok Hget. apply required_inv in Hok as (v & Hv & Hf). congruence.
Qed.

Lemma required_model_path {A} name (validate : dict -> vres A) config a k p x :
  required name (model_validator validate) config = vok a ->
  get_path (name :: k :: p) (VDict config) = Some x ->
  exists kw, validate kw = vok a /\ get_path (k :: p) (VDict kw) = Some x.
Proof.
  intros Hok Hpath. apply required_model_inv in Hok as (v & kw & Hget & Hkw & Hval).
  apply get_path_cons in Hpath as (y & Hy & Hpath). rewrite Hget in Hy.
  injection Hy as <-.
  destruct (get_path_nonempty_dict _ _ _ _ Hpath) as [d ->].
  injection Hkw as <-. eauto.
Qed.

Section AcceptedFields.
Context `{PyBuiltins} `{CoreTypes}.
Variables (merged : dict) (strats : list (string * StrategyConfig))
          (rls : list (string * RiskPolicy)) (S : Settings).
Hypothesis accepted : Settings_new merged strats rls = inr S.

Lemma accepted_app_name x :
  get_path ["app"; "name"] (VDict merged) = Some x ->
  x <> VNone /\ str_validator x = vok (app_name (app S)).
Proof.
  intros Hpath. destruct (Settings_new_fields _ _ _ _ accepted) as (Ha & _).
  destruct (required_model_path _ _ _ _ _ _ _ Ha Hpath) as (kw & Hval & Hx).
  apply get_path_one in Hx. apply AppConfig_validate_inv in Hval as [Hn _].
  apply defaulted_inv in Hn. now rewrite Hx in Hn.
Qed.

Lemma accepted_log_level x :
  get_path ["app"; "log_level"] (VDict merged) = Some x ->
  x <> VNone
  /\ exists s, str_validator x = vok s /\ validate_log_level s = vok (log_level (app S)).
Proof.
  intros Hpath. destruct (Settings_new_fields _ _ _ _ accepted) as (Ha & _).
  destruct (required_model_path _ _ _ _ _ _ _ Ha Hpath) as (kw & Hval & Hx).
  apply get_path_one in Hx. apply AppConfig_validate_inv in Hval as [_ Hl].
  apply defaulted_inv in Hl. rewrite Hx in Hl. destruct Hl as [Hne Hl].
  split; [exact Hne|]. now apply and_then_inv in Hl.
Qed.

Lemma accepted_redis_url x :
  get_path ["data"; "cache"; "redis_url"] (VDict merged) = Some x ->
  x <> VNone /\ str_validator x = vok (redis_url (cache (data S))).
Proof.
  intros Hpath. destruct (Settings_new_fields _ _ _ _ accepted) as (_ & Hd & _).
  destruct (required_model_path _ _ _ _ _ _ _ Hd Hpath) as (kw & Hval & Hx).
  apply DataConfig_validate_inv in Hval as [_ Hc].
  destruct (required_model_path _ _ _ _ _ _ _ Hc Hx) as (ck & Hcache & Hu).
  apply get_path_one in Hu. apply CacheConfig_validate_inv in Hcache.
  apply defaulted_inv in Hcache. now rewrite Hu in Hcache.
Qed.

Lemma accepted_trading k p x :
  get_path ("trading" :: k :: p) (VDict merged) = Some x ->
  exists kw, TradingConfig_validate kw = vok (trading S)
             /\ get_path (k :: p) (VDict kw) = Some x.
Proof.
  intros Hpath. destruct (Settings_new_fields _ _ _ _ accepted) as (_ & _ & Ht & _).
  exact (required_model_path _ _ _ _ _ _ _ Ht Hpath).
Qed.

Lemma accepted_markets x :
  get_path ["trading"; "markets"] (VDict merged) = Some x ->
  exists l, list_validator str_validator x = vok l
            /\ validate_markets l = vok (markets (trading S)).
Proof.
  intros Hpath. apply accepted_trading in Hpath as (kw & Hval & Hx).
  apply get_path_one in Hx. apply TradingConfig_validate_fields in Hval as (Hm & _).
  apply (required_at _ _ _ _ _ Hm) in Hx. now apply and_then_inv in Hx.
Qed.

Lemma accepted_position_size x :
  get_path ["trading"; "max_position_size"] (VDict merged) = Some x ->
  unit_fraction x = vok (max_position_size (trading S)).
Proof.
  intros Hpath. apply accepted_trading in Hpath as (kw & Hval & Hx).
  apply get_path_one in Hx. apply TradingConfig_validate_fields in Hval as (_ & Hp & _).
  exact (required_at _ _ _ _ _ Hp Hx).
Qed.

Lemma accepted_risk k x :
  get_path ["trading"; "risk"; k] (VDict merged) = Some x ->
  exists kw, RiskConfig_validate kw = vok (risk (trading S))
             /\ dict_get k kw = Some x.
Proof.
  intros Hpath. apply accepted_trading in Hpath as (kw & Hval & Hx).
  apply TradingConfig_validate_fields in Hval as (_ & _ & Hr).
  destruct (required_model_path _ _ _ _ _ _ _ Hr Hx) as (rk & Hrisk & Hk).
  apply get_path_one in Hk. eauto.
Qed.

Lemma accepted_drawdown x :
  get_path ["trading"; "risk"; "max_drawdown"] (VDict merged) = Some x ->
  unit_fraction x = vok (max_drawdown (risk (trading S))).
Proof.
  intros Hpath. apply accepted_risk in Hpath as (kw & Hval & Hx).
  apply RiskConfig_validate_fields in Hval as (Hd & _).
  exact (required_at _ _ _ _ _ Hd Hx).
Qed.

Lemma accepted_var_limit x :
  get_path ["trading"; "risk"; "var_limit"] (VDict merged) = Some x ->
  unit_fraction x = vok (var_limit (risk (trading S))).
Proof.
  intros Hpath. apply accepted_risk in Hpath as (kw & Hval & Hx).
  apply RiskConfig_validate_fields in Hval as (_ & Hv & _).
  exact (required_at _ _ _ _ _ Hv Hx).
Qed.

Lemma accepted_latency z :
  get_path ["trading"; "risk"; "max_latency_ms"] (VDict merged) = Some (VInt z) ->
  max_latency_ms (risk (trading S)) = Some z.
Proof.
  intros Hpath. apply accepted_risk in Hpath as (kw & Hval & Hx).
  apply RiskConfig_validate_fields in Hval as (_ & _ & Hl).
  apply optional_inv in Hl. rewrite Hx in Hl. destruct Hl as (a & Ha & ->).
  simpl in Ha. now injection Ha as <-.
Qed.
End AcceptedFields.

Lemma unit_fraction_of_float `{PyBuiltins} f r : unit_fraction (VFloat f) = vok r -> r = f.
Proof. rewrite unit_fraction_float. intros Hok. now apply gt0_le1_inv in Hok. Qed.

(** ** The merged tree, entry by entry *)

Section MergedTree.
Context `{PyBuiltins}.
Variables (w : world) (config ovr : value) (merged : dict).
Hypothesis built : env_overrides w config = inr ovr.
Hypothesis merge : Config.merge_configs config ovr = inr (VDict merged).

Lemma merged_app :
  exists bn bl,
    get2 config "app" "name" VNone = inr bn
    /\ get2 config "app" "log_level" VNone = inr bl
    /\ (isinstance_dict (getenv w "APP_NAME" bn) = false ->
        get_path ["app"; "name"] (VDict merged) = Some (getenv w "APP_NAME" bn))
    /\ (isinstance_dict (getenv w "LOG_LEVEL" bl) = false ->
        get_path ["app"; "log_level"] (VDict merged) = Some (getenv w "LOG_LEVEL" bl)).
Proof.
  destruct (env_overrides_parts _ _ _ built) as (a & d & t & Ha & _ & _ & ->).
  apply app_overrides_inv in Ha as (bn & bl & Hbn & Hbl & ->).
  exists bn, bl. split; [exact Hbn|]. split; [exact Hbl|].
  split; intros Hv; (eapply merge_configs_path; [exact merge|reflexivity|reflexivity|exact Hv]).
Qed.

Lemma merged_redis :
  exists br,
    get3 config "data" "cache" "redis_url" VNone = inr br
    /\ (isinstance_dict (getenv w "REDIS_URL" br) = false ->
        get_path ["data"; "cache"; "redis_url"] (VDict merged)
        = Some (getenv w "REDIS_URL" br)).
Proof.
  destruct (env_overrides_parts _ _ _ built) as (a & d & t & _ & Hd & _ & ->).
  apply data_overrides_inv in Hd as (bp & pl & ps & br & _ & _ & _ & Hbr & ->).
  exists br. split; [exact Hbr|]. intros Hv.
  eapply merge_configs_path; [exact merge|reflexivity|reflexivity|exact Hv].
Qed.

Lemma merged_trading :
  exists bm b1 f1 b2 f2 b3 f3 b4 z,
    get2 config "trading" "markets" (VList []) = inr bm
    /\ get2 config "trading" "max_position_size" (VFloat float_0_1) = inr b1
    /\ py_float (getenv w "MAX_POSITION_SIZE" b1) = inr f1
    /\ get3 config "trading" "risk" "max_drawdown" (VFloat float_0_2) = inr b2
    /\ py_float (getenv w "MAX_DRAWDOWN" b2) = inr f2
    /\ get3 config "trading" "risk" "var_limit" (VFloat float_0_05) = inr b3
    /\ py_float (getenv w "VAR_LIMIT" b3) = inr f3
    /\ get3 config "trading" "risk" "max_latency_ms" (VInt 1000) = inr b4
    /\ py_int (getenv w "MAX_LATENCY_MS" b4) = inr z
    /\ get_path ["trading"; "markets"] (VDict merged)
       = Some (VList (map (fun s => VStr s)
                          (split comma (py_str (getenv w "MARKETS" bm)))))
    /\ get_path ["trading"; "max_position_size"] (VDict merged) = Some (VFloat f1)
    /\ get_path ["trading"; "risk"; "max_drawdown"] (VDict merged) = Some (VFloat f2)
    /\ get_path ["trading"; "risk"; "var_limit"] (VDict merged) = Some (VFloat f3)
    /\ get_path ["trading"; "risk"; "max_latency_ms"] (VDict merged) = Some (VInt z).
Proof.
  destruct (env_overrides_parts _ _ _ built) as (a & d & t & _ & _ & Ht & ->).
  apply trading_overrides_inv in Ht
    as (bm & b1 & f1 & b2 & f2 & b3 & f3 & b4 & z
        & Hbm & Hb1 & Hf1 & Hb2 & Hf2 & Hb3 & Hf3 & Hb4 & Hz & ->).
  exists bm, b1, f1, b2, f2, b3, f3, b4, z.
  repeat (split; [eassumption|]).
  repeat split;
    (eapply merge_configs_path; [exact merge|reflexivity|reflexivity|reflexivity]).
Qed.
End MergedTree.

(** ** What [get_settings] returns *)

Lemma getenv_set w var s default : environ w var = Some s -> getenv w var default = VStr s.
Proof. unfold getenv. now intros ->. Qed.

Lemma getenv_unset w var default : environ w var = None -> getenv w var default = default.
Proof. unfold getenv. now intros ->. Qed.

Lemma py_float_str `{PyBuiltins} s f : py_float (VStr s) = inr f -> float_of_str s = Some f.
Proof. simpl. destruct (float_of_str s); [now intros [= ->]|discriminate]. Qed.

Lemma py_int_str `{PyBuiltins} s z : py_int (VStr s) = inr z -> int_of_str s = Some z.
Proof. simpl. destruct (int_of_str s); [now intros [= ->]|discriminate]. Qed.

(** The schema's own defaults ("traderai", "INFO", the local Redis URL)
    are never applied by [get_settings].  The override builder always
    passes [app.name], [app.log_level] and [data.cache.redis_url], as
    [None] when neither the variable nor the base tree gives a value, and
    the schema refuses [None] for these fields: the call raises. *)
Theorem schema_defaults_unreachable `{PyBuiltins} `{CoreTypes}
    (w : world) (env : Environment) (config : value) :
  base_config w env = inr config ->
  (environ w "APP_NAME" = None /\ get2 config "app" "name" VNone = inr VNone)
  \/ (environ w "LOG_LEVEL" = None /\ get2 config "app" "log_level" VNone = inr VNone)
  \/ (environ w "REDIS_URL" = None
      /\ get3 config "data" "cache" "redis_url" VNone = inr VNone) ->
  exists e, get_settings w env = inl e.
Proof.
  intros Hbase Hcase.
  destruct (get_settings w env) as [e|S] eqn:Hrun; [eauto|exfalso].
  apply get_settings_inv in Hrun
    as (config' & ovr & merged & strats & rls & Hb & Ho & Hm & _ & _ & Hs).
  rewrite Hbase in Hb. injection Hb as <-.
  destruct (merged_app w config ovr merged Ho Hm) as (bn & bl & Hbn & Hbl & Hn & Hl).
  destruct (merged_redis w config ovr merged Ho Hm) as (br & Hbr & Hr).
  destruct Hcase as [[Henv Hget]|[[Henv Hget]|[Henv Hget]]].
  - rewrite Hget in Hbn. injection Hbn as <-.
    rewrite (getenv_unset _ _ _ Henv) in Hn. specialize (Hn eq_refl).
    apply (accepted_app_name _ _ _ _ Hs) in Hn as [Hne _]. now apply Hne.
  - rewrite Hget in Hbl. injection Hbl as <-.
    rewrite (getenv_unset _ _ _ Henv) in Hl. specialize (Hl eq_refl).
    apply (accepted_log_level _ _ _ _ Hs) in Hl as [Hne _]. now apply Hne.
  - rewrite Hget in Hbr. injection Hbr as <-.
    rewrite (getenv_unset _ _ _ Henv) in Hr. specialize (Hr eq_refl).
    apply (accepted_redis_url _ _ _ _ Hs) in Hr as [Hne _]. now apply Hne.
Qed.

Lemma schema_defaults_unreachable_witness :
  exists e, get_settings (H := plain_builtins) (H0 := plain_core) missing_name_world "dev"
            = inl e.
Proof.
  apply (schema_defaults_unreachable (H := plain_builtins) (H0 := plain_core)
           missing_name_world "dev" missing_name_yaml eq_refl).
  left. split; reflexivity.
Defined.

(** An environment variable that is set decides its field of the returned
    [Settings], whatever the files hold: [APP_NAME], [LOG_LEVEL] and
    [REDIS_URL] as they are, [MARKETS] split at its commas, and
    [MAX_POSITION_SIZE], [MAX_DRAWDOWN], [VAR_LIMIT] and [MAX_LATENCY_MS] as
    [float] and [int] read them. *)
Theorem env_vars_take_precedence `{PyBuiltins} `{CoreTypes}
    (w : world) (env : Environment) (S : Settings) :
  get_settings w env = inr S ->
  (forall s, environ w "APP_NAME" = Some s -> app_name (app S) = s)
  /\ (forall s, environ w "LOG_LEVEL" = Some s -> log_level (app S) = s)
  /\ (forall s, environ w "REDIS_URL" = Some s -> redis_url (cache (data S)) = s)
  /\ (forall s, environ w "MARKETS" = Some s -> markets (trading S) = split comma s)
  /\ (forall s, environ w "MAX_POSITION_SIZE" = Some s ->
                float_of_str s = Some (max_position_size (trading S)))
  /\ (forall s, environ w "MAX_DRAWDOWN" = Some s ->
                float_of_str s = Some (max_drawdown (risk (trading S))))
  /\ (forall s, environ w "VAR_LIMIT" = Some s ->
                float_of_str s = Some (var_limit (risk (trading S))))
  /\ (forall s, environ w "MAX_LATENCY_MS" = Some s ->
                exists z, int_of_str s = Some z
                          /\ max_latency_ms (risk (trading S)) = Some z).
Proof.
  intros Hrun.
  apply get_settings_inv in Hrun
    as (config & ovr & merged & strats & rls & _ & Ho & Hm & _ & _ & Hs).
  destruct (merged_app w config ovr merged Ho Hm) as (bn & bl & _ & _ & Hn & Hl).
  destruct (merged_redis w config ovr merged Ho Hm) as (br & _ & Hr).
  destruct (merged_trading w config ovr merged Ho Hm)
    as (bm & b1 & f1 & b2 & f2 & b3 & f3 & b4 & z
        & _ & _ & Hf1 & _ & Hf2 & _ & Hf3 & _ & Hz & Pm & P1 & P2 & P3 & P4).
  apply (accepted_position_size _ _ _ _ Hs), unit_fraction_of_float in P1.
  apply (accepted_drawdown _ _ _ _ Hs), unit_fraction_of_float in P2.
  apply (accepted_var_limit _ _ _ _ Hs), unit_fraction_of_float in P3.
  apply (accepted_latency _ _ _ _ Hs) in P4.
  repeat split; intros s Henv.
  - rewrite (getenv_set _ _ _ _ Henv) in Hn. specialize (Hn eq_refl).
    apply (accepted_app_name _ _ _ _ Hs) in Hn as [_ Hn]. now apply str_validator_str in Hn.
  - rewrite (getenv_set _ _ _ _ Henv) in Hl. specialize (Hl eq_refl).
    apply (accepted_log_level _ _ _ _ Hs) in Hl as [_ (s' & Hs' & Hl)].
    apply str_validator_str in Hs'. subst s'.
    now apply validate_log_level_inv in Hl as [-> _].
  - rewrite (getenv_set _ _ _ _ Henv) in Hr. specialize (Hr eq_refl).
    apply (accepted_redis_url _ _ _ _ Hs) in Hr as [_ Hr]. now apply str_validator_str in Hr.
  - rewrite (getenv_set _ _ _ _ Henv) in Pm.
    apply (accepted_markets _ _ _ _ Hs) in Pm as (l & Hl' & Hv).
    simpl in Hl'. rewrite strings_validated in Hl'. injection Hl' as <-.
    now apply validate_markets_inv in Hv as [-> _].
  - rewrite (getenv_set _ _ _ _ Henv) in Hf1. apply py_float_str in Hf1. congruence.
  - rewrite (getenv_set _ _ _ _ Henv) in Hf2. apply py_float_str in Hf2. congruence.
  - rewrite (getenv_set _ _ _ _ Henv) in Hf3. apply py_float_str in Hf3. congruence.
  - rewrite (getenv_set _ _ _ _ Henv) in Hz. apply py_int_str in Hz. eauto.
Qed.

Lemma env_vars_take_precedence_witness :
  markets (trading good_settings) = split comma "stocks,crypto".
Proof.
  assert (Hrun : get_settings (H := plain_builtins) (H0 := plain_core) good_world "dev"
                 = inr good_settings) by (vm_compute; reflexivity).
  destruct (env_vars_take_precedence (H := plain_builtins) (H0 := plain_core)
              good_world "dev" good_settings Hrun) as (_ & _ & _ & Hm & _).
  exact (Hm "stocks,crypto" eq_refl).
Defined.

(** A numeric field whose variable is not set is the base tree's value as
    [float] or [int] converts it, and the literal default (0.1, 0.2, 0.05,
    1000) stands in for a value the base tree does not have.  So
    [max_latency_ms] is set in every [Settings] that [get_settings]
    returns, although the schema makes it optional. *)
Theorem numeric_fields_fall_back `{PyBuiltins} `{CoreTypes}
    (w : world) (env : Environment) (config : value) (S : Settings) :
  base_config w env = inr config ->
  get_settings w env = inr S ->
  (environ w "MAX_POSITION_SIZE" = None ->
   exists b, get2 config "trading" "max_position_size" (VFloat float_0_1) = inr b
             /\ py_float b = inr (max_position_size (trading S)))
  /\ (environ w "MAX_DRAWDOWN" = None ->
      exists b, get3 config "trading" "risk" "max_drawdown" (VFloat float_0_2) = inr b
                /\ py_float b = inr (max_drawdown (risk (trading S))))
  /\ (environ w "VAR_LIMIT" = None ->
      exists b, get3 config "trading" "risk" "var_limit" (VFloat float_0_05) = inr b
                /\ py_float b = inr (var_limit (risk (trading S))))
  /\ (environ w "MAX_LATENCY_MS" = None ->
      exists b z, get3 config "trading" "risk" "max_latency_ms" (VInt 1000) = inr b
                  /\ py_int b = inr z
                  /\ max_latency_ms (risk (trading S)) = Some z)
  /\ exists z, max_latency_ms (risk (trading S)) = Some z.
Proof.
  intros Hbase Hrun.
  apply get_settings_inv in Hrun
    as (config' & ovr & merged & strats & rls & Hb & Ho & Hm & _ & _ & Hs).
  rewrite Hbase in Hb. injection Hb as <-.
  destruct (merged_trading w config ovr merged Ho Hm)
    as (bm & b1 & f1 & b2 & f2 & b3 & f3 & b4 & z
        & _ & Hb1 & Hf1 & Hb2 & Hf2 & Hb3 & Hf3 & Hb4 & Hz & _ & P1 & P2 & P3 & P4).
  apply (accepted_position_size _ _ _ _ Hs), unit_fraction_of_float in P1.
  apply (accepted_drawdown _ _ _ _ Hs), unit_fraction_of_float in P2.
  apply (accepted_var_limit _ _ _ _ Hs), unit_fraction_of_float in P3.
  apply (accepted_latency _ _ _ _ Hs) in P4. subst f1 f2 f3.
  split; [|split; [|split; [|split]]].
  - intros Henv. rewrite (getenv_unset _ _ _ Henv) in Hf1. eauto.
  - intros Henv. rewrite (getenv_unset _ _ _ Henv) in Hf2. eauto.
  - intros Henv. rewrite (getenv_unset _ _ _ Henv) in Hf3. eauto.
  - intros Henv. rewrite (getenv_unset _ _ _ Henv) in Hz. eauto.
  - eauto.
Qed.

Lemma numeric_fields_fall_back_witness :
  (exists b, get3 default_yaml "trading" "risk" "max_drawdown" (VFloat float_0_2) = inr b
             /\ py_float (H := plain_builtins) b
                = inr (max_drawdown (risk (trading good_settings))))
  /\ exists z, max_latency_ms (risk (trading good_settings)) = Some z.
Proof.
  assert (Hrun : get_settings (H := plain_builtins) (H0 := plain_core) good_world "dev"
                 = inr good_settings) by (vm_compute; reflexivity).
  destruct (numeric_fields_fall_back (H := plain_builtins) (H0 := plain_core)
              good_world "dev" default_yaml good_settings eq_refl Hrun)
    as (_ & Hd & _ & _ & Hl).
  split; [exact (Hd eq_refl)|exact Hl].
Defined.

(** With [MARKETS] unset and a list of markets in the base tree (or none
    at all), [get_settings] never returns: the override's markets are the
    pieces of the list's text, the first of which starts with a bracket
    and is no market name. *)
Theorem markets_list_needs_variable `{PyBuiltins} `{CoreTypes}
    (w : world) (env : Environment) (config : value) (l : list value) :
  base_config w env = inr config ->
  environ w "MARKETS" = None ->
  get2 config "trading" "markets" (VList []) = inr (VList l) ->
  exists e, get_settings w env = inl e.
Proof.
  intros Hbase Henv Hget.
  destruct (get_settings w env) as [e|S] eqn:Hrun; [eauto|exfalso].
  apply get_settings_inv in Hrun
    as (config' & ovr & merged & strats & rls & Hb & Ho & Hm & _ & _ & Hs).
  rewrite Hbase in Hb. injection Hb as <-.
  destruct (merged_trading w config ovr merged Ho Hm)
    as (bm & b1 & f1 & b2 & f2 & b3 & f3 & b4 & z & Hbm & Hrest).
  destruct Hrest as (_ & _ & _ & _ & _ & _ & _ & _ & Pm & _).
  rewrite Hget in Hbm. injection Hbm as <-.
  rewrite (getenv_unset _ _ _ Henv) in Pm.
  apply (accepted_markets _ _ _ _ Hs) in Pm as (ms & Hl & Hv).
  simpl in Hl. rewrite strings_validated in Hl. injection Hl as <-.
  apply validate_markets_inv in Hv as [_ Hv].
  simpl in Hv.
  destruct (split comma (join ", " (map py_repr l) ++ "]")); discriminate Hv.
Qed.

Lemma markets_list_needs_variable_witness :
  exists e, get_settings (H := plain_builtins) (H0 := plain_core) no_env_world "dev" = inl e.
Proof.
  exact (markets_list_needs_variable (H := plain_builtins) (H0 := plain_core)
           no_env_world "dev" default_yaml [VStr "stocks"; VStr "crypto"]
           eq_refl eq_refl eq_refl).
Defined.

(** ** The provider entries of the override *)



(** ** Sequences of calls of the accessor *)

Lemma init_calls_cached `{PyBuiltins} `{CoreTypes} calls s :
  init_calls calls (Some s) = (map (fun _ => inr s) calls, Some s).
Proof.
  induction calls as [|[w env] rest IH]; simpl; [reflexivity|]. now rewrite IH.
Qed.

(** In any sequence of calls of [init_settings] that starts with the
    module variable unset, the pipeline runs at each call until one run
    returns: the calls before it raise what [get_settings] raises in their
    worlds, and that call and every later one return the same [Settings],
    whatever their arguments and worlds.  If no run returns, the variable
    stays unset. *)
Theorem init_settings_single_instance `{PyBuiltins} `{CoreTypes}
    (calls : list (world * Environment)) :
  exists failures successes,
    fst (init_calls calls None) = (map inl failures ++ successes)%list
    /\ match snd (init_calls calls None) with
       | None =>
           successes = []
           /\ Forall2 (fun c e => get_settings (fst c) (snd c) = inl e) calls failures
       | Some s =>
           exists pre c post,
             calls = (pre ++ c :: post)%list
             /\ Forall2 (fun c e => get_settings (fst c) (snd c) = inl e) pre failures
             /\ get_settings (fst c) (snd c) = inr s
             /\ successes = map (fun _ => inr s) (c :: post)
       end.
Proof.
  induction calls as [|[w env] rest IH].
  - exists [], []. simpl. split; [reflexivity|]. split; [reflexivity|constructor].
  - simpl. unfold init_settings.
    destruct (get_settings w env) as [e|s] eqn:Hrun.
    + destruct IH as (failures & successes & Hres & Hfinal).
      destruct (init_calls rest None) as [rs final]. simpl in Hres, Hfinal. simpl.
      exists (e :: failures), successes. split; [now rewrite Hres|].
      destruct final as [s|].
      * destruct Hfinal as (pre & c & post & -> & Hpre & Hc & Hs).
        exists ((w, env) :: pre), c, post. split; [reflexivity|].
        split; [now constructor|]. auto.
      * destruct Hfinal as [-> Hall]. split; [reflexivity|now constructor].
    + rewrite init_calls_cached. simpl.
      exists [], (inr s :: map (fun _ => inr s) rest). split; [reflexivity|].
      exists [], (w, env), rest. split; [reflexivity|]. split; [constructor|].
      split; [exact Hrun|reflexivity].
Qed.

(** ** Splitting at commas *)

(** [s.split(",")] cuts [s] at each comma and keeps empty pieces: no piece
    has a comma, there is always at least one piece (the empty string gives
    one empty piece), and the pieces joined by commas give [s] back. *)
Theorem split_join (s : string) :
  join "," (split comma s) = s
  /\ split comma s <> []
  /\ Forall (fun x => has_char comma x = false) (split comma s).
Proof.
  induction s as [|c s (Hjoin & Hne & Hall)].
  - simpl. split; [reflexivity|]. split; [discriminate|]. now repeat constructor.
  - simpl. destruct (Ascii.eqb c comma) eqn:E.
    + apply Ascii.eqb_eq in E. subst c.
      destruct (split comma s) as [|x xs]; [contradiction|].
      split; [|split; [discriminate|]].
      * change (join "," ("" :: x :: xs)) with ("" ++ "," ++ join "," (x :: xs)).
        now rewrite Hjoin.
      * constructor; [reflexivity|exact Hall].
    + destruct (split comma s) as [|x xs]; [contradiction|].
      apply Forall_cons in Hall as [Hx Hall].
      split; [|split; [discriminate|]].
      * destruct xs as [|y ys]; [simpl in *; now rewrite Hjoin|].
        change (join "," (String c x :: y :: ys))
          with (String c (x ++ "," ++ join "," (y :: ys))).
        change (join "," (x :: y :: ys)) with (x ++ "," ++ join "," (y :: ys)) in Hjoin.
        now rewrite Hjoin.
      * constructor; [|exact Hall].
        change (has_char comma (String c x))
          with (Ascii.eqb comma c || has_char comma x).
        now rewrite Ascii.eqb_sym, E, Hx.
Qed.

(** ** The loaders, file by file *)

Section LoaderRuns.
Variable w : world.
Context {R : Type} (new : dict -> res R) (section dir : string).

Lemma load_records_one stem r records :
  loads_as w new section dir stem r ->
  load_records w new section dir [stem] records = inr (dict_set stem r records).
Proof.
  intros (data & kw & Hload & Hsec & Hnew). simpl. unfold bind.
  now rewrite Hload, Hsec; simpl; rewrite Hnew.
Qed.

Lemma load_records_cons stem rest records :
  load_records w new section dir (stem :: rest) records
  = (recs <- load_records w new section dir [stem] records ;;
     load_records w new section dir rest recs).
Proof. exact (load_records_app w new section dir [stem] rest records). Qed.

Lemma load_records_all : forall stems rs records,
  NoDup stems ->
  (forall k, k ∈ stems -> dict_get k records = None) ->
  Forall2 (loads_as w new section dir) stems rs ->
  load_records w new section dir stems records
  = inr (records ++ combine stems rs)%list.
Proof.
  induction stems as [|stem rest IH]; intros rs records Hnd Hfresh Hall;
    inversion Hall as [|? r ? rs' Hone Hrest]; subst.
  - simpl. now rewrite app_nil_r.
  - apply NoDup_cons in Hnd as [Hstem Hnd].
    assert (Hk : dict_get stem records = None) by (apply Hfresh, elem_of_cons; now left).
    rewrite load_records_cons, (load_records_one _ _ _ Hone). simpl.
    rewrite dict_set_fresh by exact Hk.
    rewrite (IH rs'); [now rewrite <- List.app_assoc|exact Hnd| |exact Hrest].
    intros k Hin. rewrite <- (dict_set_fresh stem r records Hk).
    rewrite dict_get_set_ne.
    + apply Hfresh, elem_of_cons. now right.
    + intros ->. contradiction.
Qed.

Lemma load_records_one_fails stem e records :
  load_records w new section dir [stem] [] = inl e ->
  load_records w new section dir [stem] records = inl e.
Proof.
  simpl. unfold bind.
  destruct (load_yaml w (yaml_path dir stem)) as [e'|data]; [auto|].
  destruct (py_getitem data section) as [e'|sec]; [auto|].
  destruct (py_kwargs sec) as [e'|kw]; [auto|].
  destruct (new kw) as [e'|r]; [auto|discriminate].
Qed.

Lemma load_records_first_failure pre stem post recs e :
  load_records w new section dir pre [] = inr recs ->
  load_records w new section dir [stem] [] = inl e ->
  load_records w new section dir (pre ++ stem :: post)%list [] = inl e.
Proof.
  intros Hpre Hfail. rewrite load_records_app, Hpre.
  change (load_records w new section dir (stem :: post) recs = inl e).
  rewrite load_records_cons. now rewrite (load_records_one_fails _ _ _ Hfail).
Qed.

Lemma load_records_not_mapping stem data :
  load_yaml w (yaml_path dir stem) = inr data ->
  isinstance_dict data = false
  \/ (exists d v, data = VDict d /\ dict_get section d = Some v
                  /\ isinstance_dict v = false) ->
  exists msg, load_records w new section dir [stem] [] = inl (TypeError msg).
Proof.
  intros Hload Hbad. simpl. unfold bind. rewrite Hload.
  destruct Hbad as [Hdata|(d & v & -> & Hget & Hv)].
  - destruct data as [[| | | |]|l|d]; try discriminate; simpl; eauto.
  - simpl. rewrite Hget. simpl. destruct v as [s|l|d']; [| |discriminate]; simpl; eauto.
Qed.
End LoaderRuns.

(** When the stems of the scanned files are distinct and every file has its
    section as a mapping that the record class accepts, the loader returns
    one entry per file, keyed by the file's stem, in the order of the
    scan. *)
Theorem loaders_key_by_stem `{CoreTypes} (w : world) (dir : string) :
  distinct (yaml_stems w dir) = true ->
  (forall ss,
      Forall2 (loads_as w StrategyConfig_new "strategy" dir) (yaml_stems w dir) ss ->
      load_strategy_configs w dir = inr (combine (yaml_stems w dir) ss))
  /\ (forall ps,
        Forall2 (loads_as w RiskPolicy_new "risk" dir) (yaml_stems w dir) ps ->
        load_rules_configs w dir = inr (combine (yaml_stems w dir) ps)).
Proof.
  intros Hnd. apply distinct_NoDup in Hnd.
  split; intros rs Hall.
  - unfold load_strategy_configs.
    now rewrite (load_records_all w StrategyConfig_new "strategy" dir _ rs []).
  - unfold load_rules_configs.
    now rewrite (load_records_all w RiskPolicy_new "risk" dir _ rs []).
Qed.

Lemma loaders_key_by_stem_witness :
  load_strategy_configs (H := plain_core) records_world "configs/strategies"
  = inr [("momentum", [("window", VInt 20)])]
  /\ load_rules_configs (H := plain_core) records_world "configs/rules"
     = inr [("limits", [("limit", VInt 3)])].
Proof.
  split.
  - apply (proj1 (loaders_key_by_stem (H := plain_core) records_world
                    "configs/strategies" eq_refl) [[("window", VInt 20)]]).
    constructor; [|constructor].
    exists (VDict [("strategy", VDict [("window", VInt 20)])]), [("window", VInt 20)].
    repeat split.
  - apply (proj2 (loaders_key_by_stem (H := plain_core) records_world
                    "configs/rules" eq_refl) [[("limit", VInt 3)]]).
    constructor; [|constructor].
    exists (VDict [("risk", VDict [("limit", VInt 3)])]), [("limit", VInt 3)].
    repeat split.
Defined.

(** The loaders stop at the first file that fails: when the files before it
    load, the loader raises what that file raises on its own, whatever it
    is and whatever files follow, and returns no partial mapping. *)
Theorem loaders_stop_at_first_failure `{CoreTypes} (w : world) (dir : string)
    (pre post : list string) (stem : string) (e : exn) :
  yaml_stems w dir = (pre ++ stem :: post)%list ->
  (forall recs,
      load_records w StrategyConfig_new "strategy" dir pre [] = inr recs ->
      load_records w StrategyConfig_new "strategy" dir [stem] [] = inl e ->
      load_strategy_configs w dir = inl e)
  /\ (forall recs,
        load_records w RiskPolicy_new "risk" dir pre [] = inr recs ->
        load_records w RiskPolicy_new "risk" dir [stem] [] = inl e ->
        load_rules_configs w dir = inl e).
Proof.
  intros Hstems. split; intros recs Hpre Hfail.
  - unfold load_strategy_configs. rewrite Hstems.
    eapply load_records_first_failure; eassumption.
  - unfold load_rules_configs. rewrite Hstems.
    eapply load_records_first_failure; eassumption.
Qed.

Lemma loaders_stop_at_first_failure_witness :
  exists msg,
    load_strategy_configs (H := plain_core) null_section_world "configs/strategies"
    = inl (TypeError msg).
Proof.
  eexists.
  exact (proj1 (loaders_stop_at_first_failure (H := plain_core) null_section_world
                  "configs/strategies" ["momentum"] ["trend"] "reversal" _ eq_refl)
               _ eq_refl eq_refl).
Defined.

(** From the document of a file to what the loader makes of it: [load_yaml]
    puts the empty tree in place of a falsy document. *)
Lemma load_yaml_document w path doc :
  files w path = Yaml doc ->
  load_yaml w path = inr (if py_truthy doc then doc else VDict []).
Proof. unfold load_yaml. now intros ->. Qed.

Lemma load_records_falsy_document w {R : Type} (new : dict -> res R)
    (section dir stem : string) doc :
  files w (yaml_path dir stem) = Yaml doc ->
  py_truthy doc = false ->
  load_records w new section dir [stem] [] = inl (KeyError section).
Proof.
  intros Hfile Hfalsy. simpl. unfold bind.
  now rewrite (load_yaml_document _ _ _ Hfile), Hfalsy.
Qed.

Lemma load_records_document_not_mapping w {R : Type} (new : dict -> res R)
    (section dir stem : string) doc :
  files w (yaml_path dir stem) = Yaml doc ->
  py_truthy doc = true /\ isinstance_dict doc = false
  \/ (exists d v, doc = VDict d /\ dict_get section d = Some v
                  /\ isinstance_dict v = false) ->
  exists msg, load_records w new section dir [stem] [] = inl (TypeError msg).
Proof.
  intros Hfile Hbad. apply load_yaml_document in Hfile.
  destruct Hbad as [[Htruthy Hdoc]|(d & v & -> & Hget & Hv)].
  - rewrite Htruthy in Hfile.
    apply (load_records_not_mapping w new section dir stem doc Hfile). now left.
  - assert (Htruthy : py_truthy (VDict d) = true)
      by (destruct d; [discriminate Hget|reflexivity]).
    rewrite Htruthy in Hfile.
    apply (load_records_not_mapping w new section dir stem (VDict d) Hfile).
    right. now exists d, v.
Qed.

(** A scanned file whose document is truthy and no mapping (a list or a
    string that is not empty, a number other than zero, [True]), or whose
    section is no mapping (an empty section, a scalar, a list), makes the
    loader raise [TypeError] once the files before it have loaded: it is
    not reported as a missing section or as a validation error.  A falsy
    document (an empty file, an empty list, string or mapping, zero,
    [False]) is read as the empty tree, and the loader raises [KeyError]
    for the section. *)
Theorem loaders_need_mappings `{CoreTypes} (w : world) (dir : string)
    (pre post : list string) (stem : string) (doc : value) :
  yaml_stems w dir = (pre ++ stem :: post)%list ->
  files w (yaml_path dir stem) = Yaml doc ->
  (forall recs,
      load_records w StrategyConfig_new "strategy" dir pre [] = inr recs ->
      (py_truthy doc = true /\ isinstance_dict doc = false
       \/ (exists d v, doc = VDict d /\ dict_get "strategy" d = Some v
                       /\ isinstance_dict v = false) ->
       exists msg, load_strategy_configs w dir = inl (TypeError msg))
      /\ (py_truthy doc = false ->
          load_strategy_configs w dir = inl (KeyError "strategy")))
  /\ (forall recs,
        load_records w RiskPolicy_new "risk" dir pre [] = inr recs ->
        (py_truthy doc = true /\ isinstance_dict doc = false
         \/ (exists d v, doc = VDict d /\ dict_get "risk" d = Some v
                         /\ isinstance_dict v = false) ->
         exists msg, load_rules_configs w dir = inl (TypeError msg))
        /\ (py_truthy doc = false ->
            load_rules_configs w dir = inl (KeyError "risk"))).
Proof.
  intros Hstems Hfile. split; intros recs Hpre; split.
  - intros Hbad.
    destruct (load_records_document_not_mapping w StrategyConfig_new "strategy" dir
                stem doc Hfile Hbad) as [msg Hfail].
    exists msg. unfold load_strategy_configs. rewrite Hstems.
    eapply load_records_first_failure; eassumption.
  - intros Hfalsy. unfold load_strategy_configs. rewrite Hstems.
    eapply load_records_first_failure; [eassumption|].
    now apply load_records_falsy_document with (doc := doc).
  - intros Hbad.
    destruct (load_records_document_not_mapping w RiskPolicy_new "risk" dir
                stem doc Hfile Hbad) as [msg Hfail].
    exists msg. unfold load_rules_configs. rewrite Hstems.
    eapply load_records_first_failure; eassumption.
  - intros Hfalsy. unfold load_rules_configs. rewrite Hstems.
    eapply load_records_first_failure; [eassumption|].
    now apply load_records_falsy_document with (doc := doc).
Qed.

Lemma loaders_need_mappings_witness :
  (exists msg,
     load_strategy_configs (H := plain_core) null_section_world "configs/strategies"
     = inl (TypeError msg))
  /\ load_strategy_configs (H := plain_core) empty_list_world "configs/strategies"
     = inl (KeyError "strategy").
Proof.
  split.
  - apply (proj1 (proj1 (loaders_need_mappings (H := plain_core) null_section_world
                    "configs/strategies" ["momentum"] ["trend"] "reversal"
                    (VDict [("strategy", VNone)]) eq_refl eq_refl)
                 [("momentum", [("window", VInt 20)])] eq_refl)).
    right. exists [("strategy", VNone)], VNone. repeat split.
  - exact (proj2 (proj1 (loaders_need_mappings (H := plain_core) empty_list_world
                    "configs/strategies" [] [] "momentum" (VList []) eq_refl eq_refl)
                 [] eq_refl) eq_refl).
Defined.

(** ** What [get_settings] reads *)

Section SameInputs.
Context `{PyBuiltins} `{CoreTypes}.
Variables w1 w2 : world.
Hypothesis same_env : forall n, environ w1 n = environ w2 n.

Lemma same_env_but n : n <> "" -> environ w1 n = environ w2 n.
Proof. intros _. apply same_env. Qed.

Lemma key_name_not_empty (up suffix : string) : suffix <> "" -> up ++ suffix <> "".
Proof. destruct up; simpl; [auto|discriminate]. Qed.

Lemma env_overrides_same config : env_overrides w1 config = env_overrides w2 config.
Proof.
  unfold env_overrides, trading_overrides, risk_overrides.
  rewrite (app_overrides_agree w1 w2 "" same_env_but) by discriminate.
  rewrite (data_overrides_agree w1 w2 "" same_env_but)
    by (discriminate || (intros up; apply key_name_not_empty; discriminate)).
  rewrite (markets_override_agree w1 w2 "" same_env_but) by discriminate.
  rewrite !(float_override_agree w1 w2 "" same_env_but) by discriminate.
  rewrite (int_override_agree w1 w2 "" same_env_but) by discriminate.
  reflexivity.
Qed.

Lemma load_yaml_same p : files w1 p = files w2 p -> load_yaml w1 p = load_yaml w2 p.
Proof. unfold load_yaml. now intros ->. Qed.

Lemma load_records_same {R} (new : dict -> res R) section dir stems : forall records,
  (forall stem, stem ∈ stems -> files w1 (yaml_path dir stem) = files w2 (yaml_path dir stem)) ->
  load_records w1 new section dir stems records
  = load_records w2 new section dir stems records.
Proof.
  induction stems as [|stem rest IH]; intros records Hfiles; [reflexivity|].
  simpl. rewrite (load_yaml_same (yaml_path dir stem))
    by (apply Hfiles, elem_of_cons; now left).
  unfold bind. destruct (load_yaml w2 (yaml_path dir stem)) as [e|data]; [reflexivity|].
  destruct (py_getitem data section) as [e|sec]; [reflexivity|].
  destruct (py_kwargs sec) as [e|kw]; [reflexivity|].
  destruct (new kw) as [e|r]; [reflexivity|].
  apply IH. intros s Hs. apply Hfiles, elem_of_cons. now right.
Qed.
End SameInputs.

(** The outcome of [get_settings] depends on nothing but the process
    environment, the default file, the file of the environment, and the
    files the scans of [configs/strategies] and [configs/rules] find: two
    worlds that agree on these give the same result or the same
    exception. *)
Theorem get_settings_reads_only `{PyBuiltins} `{CoreTypes}
    (w1 w2 : world) (env : Environment) :
  (forall n, environ w1 n = environ w2 n) ->
  files w1 "configs/default.yaml" = files w2 "configs/default.yaml" ->
  files w1 ("configs/" ++ env_value env ++ ".yaml")
  = files w2 ("configs/" ++ env_value env ++ ".yaml") ->
  (forall dir, dir = "configs/strategies" \/ dir = "configs/rules" ->
     yaml_stems w1 dir = yaml_stems w2 dir
     /\ forall stem, stem ∈ yaml_stems w1 dir ->
                     files w1 (yaml_path dir stem) = files w2 (yaml_path dir stem)) ->
  get_settings w1 env = get_settings w2 env.
Proof.
  intros Henv Hdefault Hfile Hdirs.
  destruct (Hdirs "configs/strategies" (or_introl eq_refl)) as [Hs1 Hs2].
  destruct (Hdirs "configs/rules" (or_intror eq_refl)) as [Hr1 Hr2].
  rewrite !get_settings_stages. unfold base_config.
  rewrite (load_yaml_same w1 w2 _ Hdefault), (load_yaml_same w1 w2 _ Hfile).
  unfold load_strategy_configs, load_rules_configs. rewrite <- Hs1, <- Hr1.
  rewrite (load_records_same w1 w2 StrategyConfig_new "strategy" _ _ [] Hs2).
  rewrite (load_records_same w1 w2 RiskPolicy_new "risk" _ _ [] Hr2).
  unfold bind.
  destruct (load_yaml w2 "configs/default.yaml") as [e|d]; [reflexivity|].
  destruct (load_yaml w2 _) as [e|ec]; [reflexivity|].
  destruct (Config.merge_configs d ec) as [e|config]; [reflexivity|].
  now rewrite (env_overrides_same w1 w2 Henv).
Qed.

Lemma get_settings_reads_only_witness :
  get_settings (H := plain_builtins) (H0 := plain_core) other_files_world "dev"
  = get_settings (H := plain_builtins) (H0 := plain_core) good_world "dev".
Proof.
  apply (get_settings_reads_only (H := plain_builtins) (H0 := plain_core)
           other_files_world good_world "dev").
  - intros n. reflexivity.
  - reflexivity.
  - reflexivity.
  - intros dir _. split; [reflexivity|]. intros stem Hin. now apply elem_of_nil in Hin.
Defined.
